(** * Phone advisor: query extraction, filter merging, dataset filtering
      and the chat dialogue of [app.py], embedded and verified.

    Modelling conventions.
    - Text is a [string] of bytes (the UTF-8 encoding of the Python [str]);
      the rupee sign is the three bytes of its encoding.  [str.lower],
      [str.capitalize] and the classes [\d] and [\s] of [re] are Python's on
      ASCII characters and on the rupee sign ([plain_text]); on other
      characters Python folds more letters and accepts the digits and spaces
      of every script.
    - A filter dictionary is a [gmap string value]; the values Python stores
      there are integers, booleans and strings.
    - The numeric columns of the catalog are rationals: every finite float or
      integer is one.  pandas compares a column with the float of a bound,
      which is the bound itself up to 2^53 in size ([exact_bounds]).
    - An operation on which Python raises ([TypeError], [AttributeError],
      [ValueError]) returns [None].  The limit of 4300 digits on the
      conversions between integers and text is modelled in [Raising]. *)

From Stdlib Require Import ZArith QArith Ascii String List Permutation Sorted Lia.
From stdpp Require Import base option gmap strings list fin_maps pretty.

Local Open Scope string_scope.
Local Open Scope list_scope.

(** ** Python strings *)

Definition is_upper (c : ascii) : bool :=
  (65 <=? nat_of_ascii c)%nat && (nat_of_ascii c <=? 90)%nat.

Definition is_lower (c : ascii) : bool :=
  (97 <=? nat_of_ascii c)%nat && (nat_of_ascii c <=? 122)%nat.

Definition lower_char (c : ascii) : ascii :=
  if is_upper c then ascii_of_nat (nat_of_ascii c + 32) else c.

Definition upper_char (c : ascii) : ascii :=
  if is_lower c then ascii_of_nat (nat_of_ascii c - 32) else c.

(** [s.lower()] *)
Fixpoint lower (s : string) : string :=
  match s with
  | EmptyString => EmptyString
  | String c s' => String (lower_char c) (lower s')
  end.

(** [s.capitalize()]: first character upper-cased, the rest lower-cased. *)
Definition capitalize (s : string) : string :=
  match s with
  | EmptyString => EmptyString
  | String c s' => String (upper_char c) (lower s')
  end.

(** [s.startswith(p)] *)
Fixpoint starts_with (p s : string) : bool :=
  match p, s with
  | EmptyString, _ => true
  | String a p', String b s' => Ascii.eqb a b && starts_with p' s'
  | String _ _, EmptyString => false
  end.

(** [sub in s] *)
Fixpoint contains (sub s : string) : bool :=
  starts_with sub s ||
  match s with
  | EmptyString => false
  | String _ s' => contains sub s'
  end.

(** [any(k in s for k in ks)] *)
Definition any_in (ks : list string) (s : string) : bool :=
  existsb (fun k => contains k s) ks.

Definition is_digit (c : ascii) : bool :=
  (48 <=? nat_of_ascii c)%nat && (nat_of_ascii c <=? 57)%nat.

(** The characters [\s] matches below code point 128. *)
Definition is_space (c : ascii) : bool :=
  let n := nat_of_ascii c in
  (n =? 32)%nat || ((9 <=? n)%nat && (n <=? 13)%nat)
  || ((28 <=? n)%nat && (n <=? 31)%nat).

Definition digit_val (c : ascii) : Z := Z.of_nat (nat_of_ascii c - 48).

Fixpoint int_acc (acc : Z) (s : string) : Z :=
  match s with
  | EmptyString => acc
  | String c s' => int_acc (10 * acc + digit_val c) s'
  end.

(** The value of [int(s)] on a string of decimal digits.  [int] raises on
    more than 4300 digits: [Raising.int] below is [int] with that check. *)
Definition int (s : string) : Z := int_acc 0 s.

(** Every character of [s] is in the class [p]. *)
Fixpoint all_chars (p : ascii -> bool) (s : string) : bool :=
  match s with
  | EmptyString => true
  | String c s' => p c && all_chars p s'
  end.

(** [s] starts with a character of the class [p]. *)
Definition head_is (p : ascii -> bool) (s : string) : bool :=
  match s with
  | EmptyString => false
  | String c _ => p c
  end.

(** The texts on which the functions above are Python's: ASCII characters
    and the rupee sign (the bytes 226, 130, 185). *)
Fixpoint plain_text (s : string) : bool :=
  match s with
  | EmptyString => true
  | String c s' =>
      if (nat_of_ascii c <? 128)%nat then plain_text s'
      else
        match s' with
        | String c2 (String c3 s'') =>
            (nat_of_ascii c =? 226)%nat && (nat_of_ascii c2 =? 130)%nat
            && (nat_of_ascii c3 =? 185)%nat && plain_text s''
        | _ => false
        end
  end.

(** ** The fragment of [re] the patterns use

    A backtracking matcher: [run r s g] lists, in the order the engine of
    [re] tries them, the ways [r] matches a prefix of [s]; each is the rest
    of the text with the groups captured so far. *)

Module Re.

Inductive regex :=
| Lit (c : ascii)
| Class (p : ascii -> bool)
| Empty
| Cat (r1 r2 : regex)
| Or (r1 r2 : regex)
| Many (r : regex)
| Group (i : nat) (r : regex)
| NotAhead (r : regex).

Definition caps := list (nat * string).

(** The text between the start [s] of a match and its rest [s1]. *)
Definition consumed (s s1 : string) : string :=
  substring 0 (String.length s - String.length s1) s.

(** Greedy repetition of [step]: as many rounds as match, giving up rounds
    from the last one back.  A round that consumes nothing is not repeated;
    [n] bounds the number of rounds, and [S (length s)] rounds are never
    used up on [s]. *)
Definition many (step : string -> caps -> list (string * caps))
  : nat -> string -> caps -> list (string * caps) :=
  fix loop (n : nat) (s : string) (g : caps) : list (string * caps) :=
    match n with
    | O => [(s, g)]
    | S n' =>
        flat_map (fun x =>
                    if (String.length (fst x) <? String.length s)%nat
                    then loop n' (fst x) (snd x) else [])
                 (step s g)
        ++ [(s, g)]
    end.

Fixpoint run (r : regex) (s : string) (g : caps) : list (string * caps) :=
  match r with
  | Lit c =>
      match s with
      | String c' s' => if Ascii.eqb c c' then [(s', g)] else []
      | EmptyString => []
      end
  | Class p =>
      match s with
      | String c' s' => if p c' then [(s', g)] else []
      | EmptyString => []
      end
  | Empty => [(s, g)]
  | Cat r1 r2 => flat_map (fun x => run r2 (fst x) (snd x)) (run r1 s g)
  | Or r1 r2 => run r1 s g ++ run r2 s g
  | Many r1 => many (run r1) (S (String.length s)) s g
  | Group i r1 =>
      List.map (fun x => (fst x, (i, consumed s (fst x)) :: snd x)) (run r1 s g)
  | NotAhead r1 =>
      match run r1 s g with
      | [] => [(s, g)]
      | _ :: _ => []
      end
  end.

(** The first way [r] matches at the start of [s] is [x]. *)
Definition leads (r : regex) (s : string) (g : caps) (x : string * caps) : Prop :=
  exists tl, run r s g = x :: tl.

(** [re.match]: the first way the pattern matches at the start of [s]. *)
Definition match_at (r : regex) (s : string) : option caps :=
  match run r s [] with
  | x :: _ => Some (snd x)
  | [] => None
  end.

(** [re.search]: the match at the leftmost position that has one. *)
Fixpoint search (r : regex) (s : string) : option caps :=
  match match_at r s with
  | Some g => Some g
  | None =>
      match s with
      | EmptyString => None
      | String _ s' => search r s'
      end
  end.

(** [m.group(i)] *)
Fixpoint group (g : caps) (i : nat) : string :=
  match g with
  | [] => EmptyString
  | (j, t) :: g' => if (i =? j)%nat then t else group g' i
  end.

(** Pattern syntax. *)
Fixpoint Str (s : string) : regex :=
  match s with
  | EmptyString => Empty
  | String c s' => Cat (Lit c) (Str s')
  end.

Definition Opt (r : regex) : regex := Or r Empty.
Definition Some1 (r : regex) : regex := Cat r (Many r).
Definition spaces : regex := Many (Class is_space).
Definition digits : regex := Some1 (Class is_digit).

End Re.

Import Re.

Declare Scope re_scope.
Delimit Scope re_scope with re.
Infix "·" := Cat (at level 40, left associativity) : re_scope.
Infix "∣" := Or (at level 50, left associativity) : re_scope.

(** ** Values and filter dictionaries *)

Inductive value :=
| VInt (n : Z)
| VBool (b : bool)
| VStr (s : string).

(** ** The patterns of [extract_filters] *)

Definition rupee : string := "₹".

(** [(?:under|less than|below)\s*₹?\s*(\d+)] *)
Definition price_max_re : regex :=
  ((Str "under" ∣ Str "less than" ∣ Str "below")
   · spaces · Opt (Str rupee) · spaces · Group 1 digits)%re.

(** [₹(\d+)\s*(?:to|-)\s*₹?(\d+)] *)
Definition price_range_re : regex :=
  (Str rupee · Group 1 digits · spaces · (Str "to" ∣ Str "-")
   · spaces · Opt (Str rupee) · Group 2 digits)%re.

(** [(?:over|above|more than)\s*₹?\s*(\d+)] *)
Definition price_min_re : regex :=
  ((Str "over" ∣ Str "above" ∣ Str "more than")
   · spaces · Opt (Str rupee) · spaces · Group 1 digits)%re.

(** [(?:around|about)\s*₹?\s*(\d+)] *)
Definition around_price_re : regex :=
  ((Str "around" ∣ Str "about")
   · spaces · Opt (Str rupee) · spaces · Group 1 digits)%re.

(** [(\d+)\s*gb] *)
Definition gb_re : regex := (Group 1 digits · spaces · Str "gb")%re.

(** [(\d+)\s*gb\s*ram] *)
Definition ram_explicit_re : regex := (gb_re · spaces · Str "ram")%re.

(** [(\d+)\s*gb(?!\s*(?:storage|rom))] *)
Definition ram_ambiguous_re : regex :=
  (gb_re · NotAhead (spaces · (Str "storage" ∣ Str "rom")))%re.

(** [(?:min|at least)\s*(\d+)\s*gb(?:\s*ram)?] *)
Definition ram_min_re : regex :=
  ((Str "min" ∣ Str "at least") · spaces · Group 1 digits · spaces · Str "gb"
   · Opt (spaces · Str "ram"))%re.

(** [(\d+)\s*gb(?:\s*storage|\s*rom)] *)
Definition storage_explicit_re : regex :=
  (gb_re · ((spaces · Str "storage") ∣ (spaces · Str "rom")))%re.

(** [(?:min|at least)\s*(\d+)\s*gb(?:\s*storage|\s*rom)?] *)
Definition storage_min_re : regex :=
  ((Str "min" ∣ Str "at least") · spaces · Group 1 digits · spaces · Str "gb"
   · Opt ((spaces · Str "storage") ∣ (spaces · Str "rom")))%re.

(** [(\d+)\s*mah(?:\s*battery)?] *)
Definition battery_re : regex :=
  (Group 1 digits · spaces · Str "mah" · Opt (spaces · Str "battery"))%re.

(** ** Catalog rows *)

Record Row := {
  brand : option string;
  model : string;
  launched_price_rs : Q;
  ram_gb : Q;
  storage_gb : Q;
  battery_capacity_mah : Q;
  back_camera_mp : Q;
  screen_size_inches : Q;
  Processor : option string;
  launched_year : option Z
}.

(** [series.dropna().unique().tolist()]: the values present, each once, in
    the order of their first appearance. *)
Fixpoint unique (l : list string) : list string :=
  match l with
  | [] => []
  | x :: l' => x :: List.filter (fun y => negb (String.eqb x y)) (unique l')
  end.

Definition unique_brands_lower (df : list Row) : list string :=
  List.map lower (unique (omap brand df)).

(** ** [extract_filters] *)

Definition set_int (k : string) (m : caps) (i : nat) (filters : gmap string value)
  : gmap string value :=
  <[k := VInt (int (group m i))]> filters.

Definition extract_price (query_lower : string) (filters : gmap string value)
  : gmap string value :=
  let filters :=
    match search price_max_re query_lower with
    | Some m => set_int "price_max" m 1 filters
    | None => filters
    end in
  let filters :=
    match search price_range_re query_lower with
    | Some m => set_int "price_max" m 2 (set_int "price_min" m 1 filters)
    | None =>
        match search price_min_re query_lower with
        | Some m => set_int "price_min" m 1 filters
        | None => filters
        end
    end in
  match search around_price_re query_lower with
  | Some m =>
      let price := int (group m 1) in
      <["price_max" := VInt (price + 2000)]>
        (<["price_min" := VInt (if (2000 <? price)%Z then price - 2000 else 0)]>
           filters)
  | None => filters
  end.

Definition extract_ram (query_lower : string) (filters : gmap string value)
  : gmap string value :=
  match search ram_explicit_re query_lower with
  | Some m => set_int "ram_min" m 1 filters
  | None =>
      match search ram_ambiguous_re query_lower with
      | Some m =>
          if negb (contains "storage" query_lower)
             && negb (contains "rom" query_lower)
          then set_int "ram_min" m 1 filters
          else filters
      | None =>
          match search ram_min_re query_lower with
          | Some m => set_int "ram_min" m 1 filters
          | None => filters
          end
      end
  end.

Definition extract_storage (query_lower : string) (filters : gmap string value)
  : gmap string value :=
  match search storage_explicit_re query_lower with
  | Some m => set_int "storage_min" m 1 filters
  | None =>
      match filters !! "ram_min" with
      | None =>
          match search gb_re query_lower with
          | Some m => set_int "storage_min" m 1 filters
          | None => filters
          end
      | Some _ =>
          match search storage_min_re query_lower with
          | Some m => set_int "storage_min" m 1 filters
          | None => filters
          end
      end
  end.

Definition extract_battery (query_lower : string) (filters : gmap string value)
  : gmap string value :=
  match search battery_re query_lower with
  | Some m => set_int "battery_capacity_mah" m 1 filters
  | None => filters
  end.

(** One [if any(k in query_lower for k in ks): filters[key] = True]. *)
Definition set_keyword (key : string) (ks : list string) (query_lower : string)
    (filters : gmap string value) : gmap string value :=
  if any_in ks query_lower then <[key := VBool true]> filters else filters.

Definition extract_keywords (query_lower : string) (filters : gmap string value)
  : gmap string value :=
  let filters := set_keyword "keyword_gaming"
      ["gaming"; "game"; "performance"; "powerful"] query_lower filters in
  let filters := set_keyword "keyword_camera"
      ["camera"; "photo"; "photography"; "photos"; "megapixel"; "mp"]
      query_lower filters in
  let filters := set_keyword "keyword_budget"
      ["budget"; "cheap"; "affordable"; "low cost"] query_lower filters in
  let filters := set_keyword "keyword_battery"
      ["battery"; "long lasting"; "endurance"] query_lower filters in
  let filters := set_keyword "keyword_display"
      ["display"; "screen"; "amoled"; "oled"; "fluid"; "hz"] query_lower filters in
  let filters := set_keyword "keyword_fast_charging"
      ["fast charging"; "quick charge"] query_lower filters in
  let filters := set_keyword "keyword_compact"
      ["compact"; "small"] query_lower filters in
  set_keyword "keyword_premium" ["premium"; "flagship"] query_lower filters.

Definition brand_matches (brand query_lower : string) : bool :=
  contains brand query_lower
  || (String.eqb brand "samsung" && contains "galaxy" query_lower)
  || (String.eqb brand "apple" && contains "iphone" query_lower)
  || (String.eqb brand "xiaomi" && contains "redmi" query_lower)
  || (String.eqb brand "oneplus" && contains "nord" query_lower).

(** The [for brand in unique_brands_lower: ... break] loop. *)
Fixpoint extract_brand (brands : list string) (query_lower : string)
    (filters : gmap string value) : gmap string value :=
  match brands with
  | [] => filters
  | brand :: rest =>
      if brand_matches brand query_lower
      then <["brand" := VStr (capitalize brand)]> filters
      else extract_brand rest query_lower filters
  end.

Definition extract_filters (df : list Row) (query : string) : gmap string value :=
  let query_lower := lower query in
  let filters := extract_price query_lower ∅ in
  let filters := extract_ram query_lower filters in
  let filters := extract_storage query_lower filters in
  let filters := extract_battery query_lower filters in
  let filters := extract_keywords query_lower filters in
  extract_brand (unique_brands_lower df) query_lower filters.

(** ** [filter_data] *)

(** The number a filter value is compared as ([True] is 1, [False] is 0);
    comparing a numeric column with a string raises.  An integer is compared
    as its float, which is the integer itself up to 2^53 in size; the
    rounding beyond is not modelled, and the statements that depend on the
    comparison take bounds within that size ([exact_bounds]). *)
Definition as_number (v : value) : option Q :=
  match v with
  | VInt n => Some (inject_Z n)
  | VBool b => Some (if b then 1 else 0)%Q
  | VStr _ => None
  end.

(** Truth value of a filter value, as [if v:] takes it. *)
Definition truthy (v : value) : bool :=
  match v with
  | VInt n => negb (n =? 0)%Z
  | VBool b => b
  | VStr s => negb (String.eqb s "")
  end.

(** [df[df[col] <= v]] and [df[df[col] >= v]]: boolean-mask selection keeps
    the selected rows in their order. *)
Definition keep_le (col : Row -> Q) (v : value) (rows : list Row)
  : option (list Row) :=
  n ← as_number v; Some (List.filter (fun r => Qle_bool (col r) n) rows).

Definition keep_ge (col : Row -> Q) (v : value) (rows : list Row)
  : option (list Row) :=
  n ← as_number v; Some (List.filter (fun r => Qle_bool n (col r)) rows).

Definition brand_is (b : string) (r : Row) : bool :=
  match brand r with
  | Some x => String.eqb (lower x) (lower b)
  | None => false
  end.

(** Whether [df['brand'].str] exists: the accessor raises [AttributeError]
    on a column that is not of text.  [read_csv] gives a column without any
    text a numeric dtype, and the columns of a table without rows the dtype
    object, on which [.str] works. *)
Definition has_str (df : list Row) : bool :=
  match df with
  | [] => true
  | _ :: _ => existsb (fun r => bool_decide (is_Some (brand r))) df
  end.

(** [df[df['brand'].str.lower() == v.lower()]]; [text] tells whether the
    column has the accessor [.str].  Selections and [sort_values] keep the
    dtype of a column: it is that of the catalog. *)
Definition keep_brand (text : bool) (v : value) (rows : list Row)
  : option (list Row) :=
  if text then
    match v with
    | VStr b => Some (List.filter (brand_is b) rows)
    | _ => None
    end
  else None.

(** [Processor.fillna('').str.contains('Snapdragon|Dimensity|Gaming', case=False)] *)
Definition gaming_processor (r : Row) : bool :=
  let p := lower (default "" (Processor r)) in
  contains "snapdragon" p || contains "dimensity" p || contains "gaming" p.

Definition is_gaming (r : Row) : bool :=
  Qle_bool 6 (ram_gb r) && gaming_processor r.

(** [df.sort_values(by='launched_price_rs', ascending=True)].  The place of
    rows of equal price among themselves is left to the sorting algorithm by
    pandas; here they keep their order, and no statement below relies on it. *)
Fixpoint insert_by_price (x : Row) (l : list Row) : list Row :=
  match l with
  | [] => [x]
  | y :: l' =>
      if Qle_bool (launched_price_rs x) (launched_price_rs y)
      then x :: y :: l'
      else y :: insert_by_price x l'
  end.

Definition sort_values (rows : list Row) : list Row :=
  fold_right insert_by_price [] rows.

(** [if key in filters: rows = step(filters[key], rows)] *)
Definition when_present (filters : gmap string value) (key : string)
    (step : value -> list Row -> option (list Row)) (rows : list Row)
  : option (list Row) :=
  match filters !! key with
  | Some v => step v rows
  | None => Some rows
  end.

(** [if key in filters and filters[key]: rows = step(rows)] *)
Definition when_flag (filters : gmap string value) (key : string)
    (step : list Row -> list Row) (rows : list Row) : list Row :=
  match filters !! key with
  | Some v => if truthy v then step rows else rows
  | None => rows
  end.

Definition has_key (filters : gmap string value) (key : string) : bool :=
  bool_decide (is_Some (filters !! key)).

Definition budget_step (filters : gmap string value) (rows : list Row) : list Row :=
  let rows := sort_values rows in
  if negb (has_key filters "price_max") && negb (has_key filters "price_min")
  then List.filter (fun r => Qle_bool (launched_price_rs r) 15000) rows
  else rows.

Definition battery_step (filters : gmap string value) (rows : list Row) : list Row :=
  if negb (has_key filters "battery_capacity_mah")
  then List.filter (fun r => Qle_bool 4500 (battery_capacity_mah r)) rows
  else rows.

(** The debug [print]s of the function show the filters and sizes; they are
    left out (they convert the numbers of the filters to text, which goes
    through for every number below 10^4300). *)
Definition filter_data (df : list Row) (filters : gmap string value)
  : option (list Row) :=
  let filtered_df := df in
  filtered_df ← when_present filters "price_max" (keep_le launched_price_rs) filtered_df;
  filtered_df ← when_present filters "price_min" (keep_ge launched_price_rs) filtered_df;
  filtered_df ← when_present filters "ram_min" (keep_ge ram_gb) filtered_df;
  filtered_df ← when_present filters "storage_min" (keep_ge storage_gb) filtered_df;
  filtered_df ← when_present filters "brand" (keep_brand (has_str df)) filtered_df;
  filtered_df ← when_present filters "battery_capacity_mah"
                  (keep_ge battery_capacity_mah) filtered_df;
  let filtered_df := when_flag filters "keyword_gaming"
                       (List.filter is_gaming) filtered_df in
  let filtered_df := when_flag filters "keyword_camera"
                       (List.filter (fun r => Qle_bool 48 (back_camera_mp r)))
                       filtered_df in
  let filtered_df := when_flag filters "keyword_budget"
                       (budget_step filters) filtered_df in
  let filtered_df := when_flag filters "keyword_battery"
                       (battery_step filters) filtered_df in
  let filtered_df := when_flag filters "keyword_display"
                       (List.filter (fun r => Qle_bool 6 (screen_size_inches r)))
                       filtered_df in
  let filtered_df := when_flag filters "keyword_compact"
                       (List.filter (fun r => Qle_bool (screen_size_inches r) 6))
                       filtered_df in
  let filtered_df := when_flag filters "keyword_premium"
                       (List.filter (fun r => Qle_bool 50000 (launched_price_rs r)))
                       filtered_df in
  Some filtered_df.

(** ** Merging: [current_filters.update(extracted_new_filters)] *)

#[global] Instance value_eq_dec : EqDecision value.
Proof. solve_decision. Defined.

(** [d.update(new)] assigns [d[k] = v] for every item [(k, v)] of [new]. *)
Definition dict_update (d new : gmap string value) : gmap string value :=
  map_fold (fun k v acc => <[k := v]> acc) d new.

(** Truth value of a dictionary: it has an item. *)
Definition nonempty (d : gmap string value) : bool :=
  negb (bool_decide (d = ∅)).

(** ** The chat session *)

Record Message := { role : string; content : string }.

Definition user_says (t : string) : Message := {| role := "user"; content := t |}.
Definition assistant_says (t : string) : Message :=
  {| role := "assistant"; content := t |}.

(** The part of [st.session_state] the dialogue reads and writes. *)
Record Session := {
  awaiting_confirmation : bool;
  messages : list Message;
  current_filters : gmap string value;
  filtered_df : list Row
}.

Definition initial_session : Session :=
  {| awaiting_confirmation := false; messages := [];
     current_filters := ∅; filtered_df := [] |}.

(** [str(v)] inside an f-string. *)
Definition py_str (v : value) : string :=
  match v with
  | VInt n => pretty n
  | VBool b => if b then "True" else "False"
  | VStr s => s
  end.

(** [v1 == v2] on filter values. *)
Definition py_eq (v1 v2 : value) : bool :=
  match v1, v2 with
  | VStr a, VStr b => String.eqb a b
  | VStr _, _ | _, VStr _ => false
  | VInt a, VInt b => (a =? b)%Z
  | VInt a, VBool b => (a =? (if b then 1 else 0))%Z
  | VBool a, VInt b => ((if a then 1 else 0) =? b)%Z
  | VBool a, VBool b => Bool.eqb a b
  end.

(** [sep.join(parts)] *)
Fixpoint join (sep : string) (parts : list string) : string :=
  match parts with
  | [] => ""
  | [p] => p
  | p :: rest => p +:+ sep +:+ join sep rest
  end.

(** The list [filter_summary_parts] of the search branch; the list [summary]
    of the dialogue branch is built by the same statements. *)
Definition summary_parts (current_filters : gmap string value) : list string :=
  let part (key : string) (text : value -> string) : list string :=
    match current_filters !! key with
    | Some v => [text v]
    | None => []
    end in
  let flag (key text : string) : list string := part key (fun _ => text) in
  part "brand" (fun v => "a " +:+ py_str v +:+ " phone")
  ++ match current_filters !! "price_min", current_filters !! "price_max" with
     | Some lo, Some hi =>
         if py_eq lo hi then ["around ₹" +:+ py_str lo]
         else ["between ₹" +:+ py_str lo +:+ " and ₹" +:+ py_str hi]
     | None, Some hi => ["under ₹" +:+ py_str hi]
     | Some lo, None => ["over ₹" +:+ py_str lo]
     | None, None => []
     end
  ++ part "ram_min" (fun v => "with at least " +:+ py_str v +:+ "GB RAM")
  ++ part "storage_min" (fun v => "with at least " +:+ py_str v +:+ "GB storage")
  ++ part "battery_capacity_mah"
       (fun v => "with at least " +:+ py_str v +:+ " mAh battery")
  ++ flag "keyword_gaming" "for gaming"
  ++ flag "keyword_camera" "with a good camera"
  ++ (if has_key current_filters "keyword_battery"
         && negb (has_key current_filters "battery_capacity_mah")
      then ["with long battery life"] else [])
  ++ flag "keyword_display" "with a great display"
  ++ flag "keyword_compact" "a compact size"
  ++ flag "keyword_premium" "a premium/flagship model".

Definition confirmation_text : string :=
  "Does that sound right? Shall I search now".

(** Drop the last message when it is the assistant's confirmation prompt. *)
Definition pop_confirmation (msgs : list Message) : list Message :=
  match last msgs with
  | Some m =>
      if String.eqb (role m) "assistant" && contains confirmation_text (content m)
      then removelast msgs else msgs
  | None => msgs
  end.

Definition affirmative : list string :=
  ["yes"; "yep"; "confirm"; "ok"; "go ahead"; "search"; "find"; "show me"].
Definition negative : list string := ["no"; "nope"; "cancel"; "change"; "not"].
Definition search_commands : list string :=
  ["search"; "find phones"; "show me"; "go"; "results"; "ok search";
   "what do you have"].
Definition greetings : list string := ["hi"; "hello"; "hey"; "hii"; "holla"].

Definition need_criteria_text : string :=
  "I need some criteria (like price, RAM, or use case) before I can search for phones. What are you looking for?".
Definition no_problem_text : string :=
  "No problem. What changes would you like to make, or what else are you looking for?".
Definition greeting_text : string :=
  "Hello! I'm your Phone Advisor. How can I assist you today? Tell me what kind of phone you are looking for. For example: 'I need a phone under ₹20000 with a good camera'.".
Definition thanks_text : string :=
  "You're most welcome! Happy to assist. Is there anything else you'd like to refine or search for?".
Definition help_text : string :=
  "I can help you find phones based on your preferences. You can ask for a phone 'under ₹25000', with '8GB RAM', for 'gaming', with 'good camera', or specific brands like 'Samsung'. Just tell me what you're looking for!".
Definition start_text : string :=
  "To help you better, please tell me what kind of phone you are looking for. For example, 'a phone under ₹15000' or 'a gaming phone with good battery'.".
Definition fallback_text : string :=
  "I'm still learning! Could you please rephrase or tell me more about what you're looking for?".

(** The acknowledgment returned when a search is triggered. *)
Definition search_response (current_filters : gmap string value) : string :=
  match summary_parts current_filters with
  | [] => "Understood! Searching for phones based on what we've discussed."
  | parts => "Understood! Searching for " +:+ join ", " parts +:+ " now..."
  end.

(** The question asked when filters exist and no search was triggered; the
    boolean tells whether the confirmation flag is set. *)
Definition next_question (current_filters : gmap string value) : string * bool :=
  let summary := summary_parts current_filters in
  if negb (has_key current_filters "price_max")
     && negb (has_key current_filters "price_min")
  then ("What's your budget for the phone?", false)
  else if negb (has_key current_filters "ram_min")
  then ("And how much RAM are you looking for? (e.g., '8GB RAM')", false)
  else if negb (has_key current_filters "storage_min")
  then ("What about storage? How much internal storage do you need? (e.g., '128GB storage')", false)
  else if negb (has_key current_filters "battery_capacity_mah")
          && negb (has_key current_filters "keyword_battery")
  then ("How about battery life? Do you need a minimum battery capacity (e.g., '5000 mAh')?", false)
  else if negb (has_key current_filters "brand") && (length summary <? 3)%nat
  then ("Do you have a preferred brand, or any specific features like camera or display you prioritize?", false)
  else
    (match summary with
     | [] => "Okay, I've noted your preferences. Shall I search for phones based on these criteria now, or do you have more details to add?"
     | _ => "So far, you're looking for " +:+ join ", " summary
            +:+ ". Does that sound right? Shall I search now or do you have more details?"
     end, true).

Definition set_awaiting (b : bool) (st : Session) : Session :=
  {| awaiting_confirmation := b; messages := messages st;
     current_filters := current_filters st; filtered_df := filtered_df st |}.

Definition set_messages (msgs : list Message) (st : Session) : Session :=
  {| awaiting_confirmation := awaiting_confirmation st; messages := msgs;
     current_filters := current_filters st; filtered_df := filtered_df st |}.

Definition set_filters (d : gmap string value) (st : Session) : Session :=
  {| awaiting_confirmation := awaiting_confirmation st; messages := messages st;
     current_filters := d; filtered_df := filtered_df st |}.

Definition set_results (rows : list Row) (st : Session) : Session :=
  {| awaiting_confirmation := awaiting_confirmation st; messages := messages st;
     current_filters := current_filters st; filtered_df := rows |}.

Definition say (m : Message) (st : Session) : Session :=
  set_messages (messages st ++ [m]) st.

(** Truth value of a string: it is not empty. *)
Definition nonblank (s : string) : bool := negb (String.eqb s "").

(** The confirmation block: the reply to a pending confirmation.  Returns
    [response], [trigger_search] and the session. *)
Definition confirmation_step (user_message_lower : string) (st : Session)
  : string * bool * Session :=
  if awaiting_confirmation st then
    if any_in affirmative user_message_lower then
      ("", true, set_messages (pop_confirmation (messages st)) (set_awaiting false st))
    else if any_in negative user_message_lower then
      (no_problem_text, false,
       set_messages (pop_confirmation (messages st)) (set_awaiting false st))
    else ("", false, st)
  else ("", false, st).

(** Step 2: [if extracted_new_filters: current_filters.update(...)]. *)
Definition merge_step (current new : gmap string value) : gmap string value :=
  if nonempty new then dict_update current new else current.

(** Step 4, reached when no search was triggered. *)
Definition dialogue_step (user_message_lower response : string) (st : Session)
  : string * Session :=
  let '(response, st) :=
    if nonblank response then (response, st)
    else if any_in greetings user_message_lower then (greeting_text, st)
    else if contains "thank you" user_message_lower
            || contains "thanks" user_message_lower then (thanks_text, st)
    else if contains "help" user_message_lower
            || contains "what can you do" user_message_lower then (help_text, st)
    else if negb (nonempty (current_filters st)) then (start_text, st)
    else
      let '(question, confirm) := next_question (current_filters st) in
      (question, if confirm then set_awaiting true st else st) in
  (if nonblank response then response else fallback_text, st).

(** [get_chatbot_response(user_message, current_filters)].  Its one caller
    passes [st.session_state.current_filters], the dictionary that
    [update] changes in place: the session carries it.  The result is
    [(response, current_filters, trigger_search)] and the session after the
    call. *)
Definition get_chatbot_response (df : list Row) (user_message : string)
    (st : Session) : (string * gmap string value * bool) * Session :=
  let user_message_lower := lower user_message in
  let extracted_new_filters := extract_filters df user_message in
  let '(response, trigger_search, st) := confirmation_step user_message_lower st in
  let st := set_filters (merge_step (current_filters st) extracted_new_filters) st in
  if negb trigger_search && any_in search_commands user_message_lower then
    if nonempty (current_filters st) then
      ((search_response (current_filters st), current_filters st, true),
       set_awaiting false st)
    else ((need_criteria_text, current_filters st, false), st)
  else if trigger_search then
    ((search_response (current_filters st), current_filters st, true), st)
  else
    let '(response, st) := dialogue_step user_message_lower response st in
    ((response, current_filters st, false), st).

(** The chat handler, [if prompt: ...]: one user turn.  [filter_data] may
    raise, which ends the run of the script. *)
Definition chat_turn (df : list Row) (prompt : string) (st : Session)
  : option Session :=
  let st := say (user_says prompt) st in
  let '((ai_response, updated_filters, trigger_search), st) :=
    get_chatbot_response df prompt st in
  let st := set_filters updated_filters st in
  let st := if negb (contains "Understood! Searching for" ai_response)
            then say (assistant_says ai_response) st else st in
  if trigger_search then
    let st := say (assistant_says "Searching for phones now...") st in
    rows ← filter_data df (current_filters st);
    let st := set_results rows st in
    let st := match rows with
              | [] => say (assistant_says "No phones found matching your combined criteria. Would you like to adjust your preferences?") st
              | _ => st
              end in
    Some (set_filters ∅ st)
  else Some st.

(** The results part of the chat page, run at each rerun of the script
    before the prompt is read: shown results are cleared with the filters
    and the confirmation flag; otherwise a pending "No phones found" notice
    is taken out of the transcript. *)
Definition display_results (st : Session) : Session :=
  match filtered_df st with
  | _ :: _ => set_awaiting false (set_filters ∅ (set_results [] st))
  | [] =>
      let notice := "No phones found matching your combined criteria." in
      if existsb (fun m => contains notice (content m)) (messages st)
      then set_messages
             (List.filter (fun m => negb (contains notice (content m))) (messages st))
             st
      else st
  end.

(** "Reset Chat and Search" and "Back to Home". *)
Definition reset (st : Session) : Session := initial_session.

(** The sessions a run of the application can be in: [reach_say] covers the
    welcome message of the chat button, [reach_direct] the search of the
    direct-search page, which stores its result in the same buffer. *)
Inductive reachable (df : list Row) : Session -> Prop :=
| reach_initial : reachable df initial_session
| reach_say st m : reachable df st -> reachable df (say m st)
| reach_direct st query rows :
    reachable df st -> filter_data df (extract_filters df query) = Some rows ->
    reachable df (set_results rows st)
| reach_show st : reachable df st -> reachable df (display_results st)
| reach_turn st prompt st' :
    reachable df st -> chat_turn df prompt st = Some st' -> reachable df st'
| reach_reset st : reachable df st -> reachable df (reset st).

(** ** The limit on the digits of an integer

    [int(s)] and the conversion of an integer to text raise [ValueError]
    beyond 4300 digits.  [extract_filters] above gives the dictionary built
    when no conversion raises; here are the same statements with the
    conversions checked, [None] standing for the exception. *)

Module Raising.

Definition max_str_digits : nat := 4300.

(** [int(s)] on a string of decimal digits. *)
Definition int (s : string) : option Z :=
  if (String.length s <=? max_str_digits)%nat then Some (int s) else None.

(** [str(n)], as an f-string converts an integer. *)
Definition str (n : Z) : option string :=
  if (Z.abs n <? 10 ^ Z.of_nat max_str_digits)%Z then Some (pretty n) else None.

(** [filters[k] = int(m.group(i))], and the [print] of the value stored. *)
Definition set_int (k : string) (m : caps) (i : nat) (filters : gmap string value)
  : option (gmap string value) :=
  n ← int (group m i);
  _ ← str n;
  Some (<[k := VInt n]> filters).

Definition extract_price (query_lower : string) (filters : gmap string value)
  : option (gmap string value) :=
  filters ←
    match search price_max_re query_lower with
    | Some m => set_int "price_max" m 1 filters
    | None => Some filters
    end;
  filters ←
    match search price_range_re query_lower with
    | Some m =>
        filters ← set_int "price_min" m 1 filters;
        set_int "price_max" m 2 filters
    | None =>
        match search price_min_re query_lower with
        | Some m => set_int "price_min" m 1 filters
        | None => Some filters
        end
    end;
  match search around_price_re query_lower with
  | Some m =>
      price ← int (group m 1);
      let price_min := if (2000 <? price)%Z then (price - 2000)%Z else 0%Z in
      let price_max := (price + 2000)%Z in
      _ ← str price_min;
      _ ← str price_max;
      Some (<["price_max" := VInt price_max]>
              (<["price_min" := VInt price_min]> filters))
  | None => Some filters
  end.

Definition extract_ram (query_lower : string) (filters : gmap string value)
  : option (gmap string value) :=
  match search ram_explicit_re query_lower with
  | Some m => set_int "ram_min" m 1 filters
  | None =>
      match search ram_ambiguous_re query_lower with
      | Some m =>
          if negb (contains "storage" query_lower)
             && negb (contains "rom" query_lower)
          then set_int "ram_min" m 1 filters
          else Some filters
      | None =>
          match search ram_min_re query_lower with
          | Some m => set_int "ram_min" m 1 filters
          | None => Some filters
          end
      end
  end.

Definition extract_storage (query_lower : string) (filters : gmap string value)
  : option (gmap string value) :=
  match search storage_explicit_re query_lower with
  | Some m => set_int "storage_min" m 1 filters
  | None =>
      match filters !! "ram_min" with
      | None =>
          match search gb_re query_lower with
          | Some m => set_int "storage_min" m 1 filters
          | None => Some filters
          end
      | Some _ =>
          match search storage_min_re query_lower with
          | Some m => set_int "storage_min" m 1 filters
          | None => Some filters
          end
      end
  end.

Definition extract_battery (query_lower : string) (filters : gmap string value)
  : option (gmap string value) :=
  match search battery_re query_lower with
  | Some m => set_int "battery_capacity_mah" m 1 filters
  | None => Some filters
  end.

Definition extract_filters (df : list Row) (query : string)
  : option (gmap string value) :=
  let query_lower := lower query in
  filters ← extract_price query_lower ∅;
  filters ← extract_ram query_lower filters;
  filters ← extract_storage query_lower filters;
  filters ← extract_battery query_lower filters;
  let filters := extract_keywords query_lower filters in
  Some (extract_brand (unique_brands_lower df) query_lower filters).

(** The direct search: [filters = extract_filters(query)] and
    [filter_data(df, filters)]. *)
Definition direct_search (df : list Row) (query : string) : option (list Row) :=
  filters ← extract_filters df query;
  filter_data df filters.

(** One user turn of the chat.  [extract_filters] is the first statement
    [get_chatbot_response] runs, before the session is read: when it
    raises the turn ends there, and when it returns the turn goes on as
    [chat_turn] with the dictionary returned.  The numbers that the replies
    show afterwards are numbers [extract_filters] has printed, in this turn
    or in an earlier one. *)
Definition chat_turn (df : list Row) (prompt : string) (st : Session)
  : option Session :=
  _ ← extract_filters df prompt;
  chat_turn df prompt st.

End Raising.

(** ** What the specification says a filter dictionary asks of a row

    One conjunct per key of the specification's list; an absent key asks
    nothing. *)

(** The test of a numeric key. *)
Definition bound (filters : gmap string value) (key : string) (test : Q -> bool)
  : bool :=
  match filters !! key ≫= as_number with
  | Some n => test n
  | None => true
  end.

(** A feature flag is present and true. *)
Definition flag_on (filters : gmap string value) (key : string) : bool :=
  match filters !! key with
  | Some v => truthy v
  | None => false
  end.

(** Two characters are the same letter: equal, or a capital (codes 65 to
    90) and its small letter, 32 further. *)
Definition same_letter (c d : ascii) : bool :=
  let m := nat_of_ascii c in
  let n := nat_of_ascii d in
  (m =? n)%nat
  || ((65 <=? m)%nat && (m <=? 90)%nat && (n =? m + 32)%nat)
  || ((65 <=? n)%nat && (n <=? 90)%nat && (m =? n + 32)%nat).

(** Equality of texts under case-insensitive comparison. *)
Fixpoint equal_ignoring_case (a b : string) : bool :=
  match a, b with
  | EmptyString, EmptyString => true
  | String c a', String d b' => same_letter c d && equal_ignoring_case a' b'
  | _, _ => false
  end.

Definition brand_ok (filters : gmap string value) (r : Row) : bool :=
  match filters !! "brand" with
  | Some (VStr b) =>
      match brand r with
      | Some x => equal_ignoring_case x b
      | None => false
      end
  | _ => true
  end.

(** The six constraints on values. *)
Definition numeric_ok (filters : gmap string value) (r : Row) : bool :=
  bound filters "price_max" (fun n => Qle_bool (launched_price_rs r) n)
  && bound filters "price_min" (fun n => Qle_bool n (launched_price_rs r))
  && bound filters "ram_min" (fun n => Qle_bool n (ram_gb r))
  && bound filters "storage_min" (fun n => Qle_bool n (storage_gb r))
  && brand_ok filters r
  && bound filters "battery_capacity_mah"
       (fun n => Qle_bool n (battery_capacity_mah r)).

(** The feature keywords. *)
Definition keyword_ok (filters : gmap string value) (r : Row) : bool :=
  implb (flag_on filters "keyword_gaming") (is_gaming r)
  && implb (flag_on filters "keyword_camera") (Qle_bool 48 (back_camera_mp r))
  && implb (flag_on filters "keyword_budget"
            && negb (has_key filters "price_max")
            && negb (has_key filters "price_min"))
       (Qle_bool (launched_price_rs r) 15000)
  && implb (flag_on filters "keyword_battery"
            && negb (has_key filters "battery_capacity_mah"))
       (Qle_bool 4500 (battery_capacity_mah r))
  && implb (flag_on filters "keyword_display") (Qle_bool 6 (screen_size_inches r))
  && implb (flag_on filters "keyword_compact") (Qle_bool (screen_size_inches r) 6)
  && implb (flag_on filters "keyword_premium")
       (Qle_bool 50000 (launched_price_rs r)).

Definition satisfies (filters : gmap string value) (r : Row) : bool :=
  numeric_ok filters r && keyword_ok filters r.

(** The six constraints on values, one by one, for a dictionary of integers
    and a text. *)
Definition meets (filters : gmap string value) (r : Row) : Prop :=
  (forall n, filters !! "price_max" = Some (VInt n) ->
             (launched_price_rs r <= inject_Z n)%Q)
  /\ (forall n, filters !! "price_min" = Some (VInt n) ->
                (inject_Z n <= launched_price_rs r)%Q)
  /\ (forall n, filters !! "ram_min" = Some (VInt n) -> (inject_Z n <= ram_gb r)%Q)
  /\ (forall n, filters !! "storage_min" = Some (VInt n) ->
                (inject_Z n <= storage_gb r)%Q)
  /\ (forall b, filters !! "brand" = Some (VStr b) ->
                exists x, brand r = Some x /\ equal_ignoring_case x b = true)
  /\ (forall n, filters !! "battery_capacity_mah" = Some (VInt n) ->
                (inject_Z n <= battery_capacity_mah r)%Q).

(** The keys compared with numeric columns, and the typing of a dictionary:
    those keys hold numbers and ["brand"] holds text. *)
Definition numeric_keys : list string :=
  ["price_max"; "price_min"; "ram_min"; "storage_min"; "battery_capacity_mah"].

Definition typed_entry (k : string) (v : value) : bool :=
  if existsb (String.eqb k) numeric_keys
  then match v with VStr _ => false | _ => true end
  else if String.eqb k "brand"
       then match v with VStr _ => true | _ => false end
       else true.

Definition typed_at (filters : gmap string value) (k : string) : bool :=
  match filters !! k with
  | Some v => typed_entry k v
  | None => true
  end.

Definition well_typed (filters : gmap string value) : bool :=
  forallb (typed_at filters) ("brand" :: numeric_keys).

(** The dictionaries and catalogs on which the model compares as pandas
    does: every integer of the dictionary is one that a float holds exactly
    (at most 2^53 in size), the numeric keys hold integers, the brand is
    plain text, and so are the brands and processors of the catalog. *)
Definition exact_value (v : value) : bool :=
  match v with
  | VInt n => (Z.abs n <=? 2 ^ 53)%Z
  | _ => true
  end.

Definition exact_bounds (filters : gmap string value) : bool :=
  bool_decide (map_Forall (fun _ v => exact_value v = true) filters)
  && forallb (fun k => match filters !! k with
                       | Some (VInt _) | None => true
                       | Some _ => false
                       end) numeric_keys
  && match filters !! "brand" with
     | Some (VStr b) => plain_text b
     | Some _ => false
     | None => true
     end.

Definition plain_cell (x : option string) : bool :=
  match x with
  | Some s => plain_text s
  | None => true
  end.

Definition plain_catalog (df : list Row) : bool :=
  forallb (fun r => plain_cell (brand r) && plain_cell (Processor r)) df.

(** Ascending by price. *)
Definition price_le (a b : Row) : Prop :=
  (launched_price_rs a <= launched_price_rs b)%Q.

(** ** [filter_data] on a store of data frames

    A [DataFrame] is an object: the catalog [df] is shared by every call and
    a call that wrote into it would change what later calls see.  Here
    frames live in a store and variables hold references.  Each pandas
    operation of [filter_data] is modelled by what it does to the store:
    [df.copy()], the selection [df[mask]] and [sort_values] without
    [inplace] all build a new frame.  The dtype of the brand column of the
    frames built is that of the catalog's. *)

Module Frames.

Definition ref := nat.
Definition Store := gmap nat (list Row).

(** Computations that read and extend the store, or raise. *)
Definition M (A : Type) : Type := Store -> option (A * Store).

Definition ret {A} (x : A) : M A := fun σ => Some (x, σ).

Definition bind {A B} (m : M A) (k : A -> M B) : M B :=
  fun σ => match m σ with
           | Some (x, σ') => k x σ'
           | None => None
           end.

Definition raise {A} : M A := fun _ => None.

Declare Scope frames_scope.
Delimit Scope frames_scope with frames.
Notation "x <- m ;; k" := (bind m (fun x => k))
  (at level 100, m at next level, right associativity) : frames_scope.
Local Open Scope frames_scope.

(** A new frame holding [rows]. *)
Definition alloc (rows : list Row) : M ref :=
  fun σ => let l := fresh (dom σ) in Some (l, <[l := rows]> σ).

Definition read (l : ref) : M (list Row) :=
  fun σ => match σ !! l with
           | Some rows => Some (rows, σ)
           | None => None
           end.

(** [df.copy()] *)
Definition copy (l : ref) : M ref := rows <- read l;; alloc rows.

(** [df[mask]] *)
Definition select (p : Row -> bool) (l : ref) : M ref :=
  rows <- read l;; alloc (List.filter p rows).

(** [df.sort_values(by='launched_price_rs', ascending=True)] *)
Definition sorted (l : ref) : M ref :=
  rows <- read l;; alloc (sort_values rows).

Definition keep_le (col : Row -> Q) (v : value) (l : ref) : M ref :=
  match as_number v with
  | Some n => select (fun r => Qle_bool (col r) n) l
  | None => raise
  end.

Definition keep_ge (col : Row -> Q) (v : value) (l : ref) : M ref :=
  match as_number v with
  | Some n => select (fun r => Qle_bool n (col r)) l
  | None => raise
  end.

Definition keep_brand (text : bool) (v : value) (l : ref) : M ref :=
  if text then
    match v with
    | VStr b => select (brand_is b) l
    | _ => raise
    end
  else raise.

Definition when_present (filters : gmap string value) (key : string)
    (step : value -> ref -> M ref) (l : ref) : M ref :=
  match filters !! key with
  | Some v => step v l
  | None => ret l
  end.

Definition when_flag (filters : gmap string value) (key : string)
    (step : ref -> M ref) (l : ref) : M ref :=
  match filters !! key with
  | Some v => if truthy v then step l else ret l
  | None => ret l
  end.

Definition budget_step (filters : gmap string value) (l : ref) : M ref :=
  l <- sorted l;;
  if negb (has_key filters "price_max") && negb (has_key filters "price_min")
  then select (fun r => Qle_bool (launched_price_rs r) 15000) l
  else ret l.

Definition battery_step (filters : gmap string value) (l : ref) : M ref :=
  if negb (has_key filters "battery_capacity_mah")
  then select (fun r => Qle_bool 4500 (battery_capacity_mah r)) l
  else ret l.

Definition filter_data (df : ref) (filters : gmap string value) : M ref :=
  catalog <- read df;;
  filtered_df <- copy df;;
  filtered_df <- when_present filters "price_max" (keep_le launched_price_rs) filtered_df;;
  filtered_df <- when_present filters "price_min" (keep_ge launched_price_rs) filtered_df;;
  filtered_df <- when_present filters "ram_min" (keep_ge ram_gb) filtered_df;;
  filtered_df <- when_present filters "storage_min" (keep_ge storage_gb) filtered_df;;
  filtered_df <- when_present filters "brand" (keep_brand (has_str catalog))
                   filtered_df;;
  filtered_df <- when_present filters "battery_capacity_mah"
                   (keep_ge battery_capacity_mah) filtered_df;;
  filtered_df <- when_flag filters "keyword_gaming" (select is_gaming) filtered_df;;
  filtered_df <- when_flag filters "keyword_camera"
                   (select (fun r => Qle_bool 48 (back_camera_mp r))) filtered_df;;
  filtered_df <- when_flag filters "keyword_budget" (budget_step filters) filtered_df;;
  filtered_df <- when_flag filters "keyword_battery" (battery_step filters) filtered_df;;
  filtered_df <- when_flag filters "keyword_display"
                   (select (fun r => Qle_bool 6 (screen_size_inches r))) filtered_df;;
  filtered_df <- when_flag filters "keyword_compact"
                   (select (fun r => Qle_bool (screen_size_inches r) 6)) filtered_df;;
  filtered_df <- when_flag filters "keyword_premium"
                   (select (fun r => Qle_bool 50000 (launched_price_rs r))) filtered_df;;
  ret filtered_df.

(** How the outcome of a computation started from a store extending [σ0]
    stands to the outcome [o] of the function on rows it models: it raises
    when [o] is [None]; otherwise it returns a frame holding the rows of [o]
    in a store where every frame of [σ0] is as it was. *)
Definition agrees (σ0 : Store) (res : option (ref * Store))
    (o : option (list Row)) : Prop :=
  match res, o with
  | Some (l', σ'), Some rows' => σ' !! l' = Some rows' /\ σ0 ⊆ σ'
  | None, None => True
  | _, _ => False
  end.

End Frames.

(** ** Auxiliary predicates of the proofs *)

(** The conjuncts of [satisfies] that the budget and battery keywords add. *)
Definition budget_cap (f : gmap string value) (r : Row) : bool :=
  implb (flag_on f "keyword_budget"
         && negb (has_key f "price_max") && negb (has_key f "price_min"))
        (Qle_bool (launched_price_rs r) 15000).

Definition battery_floor (f : gmap string value) (r : Row) : bool :=
  implb (flag_on f "keyword_battery" && negb (has_key f "battery_capacity_mah"))
        (Qle_bool 4500 (battery_capacity_mah r)).

(** The keyword part of [satisfies], split at the one step that may sort. *)
Definition before_budget (f : gmap string value) (r : Row) : bool :=
  numeric_ok f r
  && implb (flag_on f "keyword_gaming") (is_gaming r)
  && implb (flag_on f "keyword_camera") (Qle_bool 48 (back_camera_mp r)).

Definition from_budget (f : gmap string value) (r : Row) : bool :=
  budget_cap f r && battery_floor f r
  && implb (flag_on f "keyword_display") (Qle_bool 6 (screen_size_inches r))
  && implb (flag_on f "keyword_compact") (Qle_bool (screen_size_inches r) 6)
  && implb (flag_on f "keyword_premium") (Qle_bool 50000 (launched_price_rs r)).

(** The dictionaries [filter_data] takes on a catalog without raising: well
    typed, and asking for a brand only of a column of text. *)
Definition accepts (df : list Row) (f : gmap string value) : bool :=
  well_typed f && (negb (has_key f "brand") || has_str df).

(** Every entry of the dictionary has the type its key asks for. *)
Definition typed_map (f : gmap string value) : Prop :=
  map_Forall (fun k v => typed_entry k v = true) f.

(** An invariant of the session: the accumulated filters are well typed,
    and a confirmation is pending only for a non-empty set of filters. *)
Definition session_ok (st : Session) : Prop :=
  typed_map (current_filters st)
  /\ (awaiting_confirmation st = true -> nonempty (current_filters st) = true).

(** ** Sample data *)

Definition phone (b m : string) (price ram storage battery camera screen : Q)
    (cpu : option string) : Row :=
  {| brand := Some b; model := m; launched_price_rs := price; ram_gb := ram;
     storage_gb := storage; battery_capacity_mah := battery;
     back_camera_mp := camera; screen_size_inches := screen;
     Processor := cpu; launched_year := None |}.

Definition redmi_12 : Row :=
  phone "Xiaomi" "Redmi 12" 9999 4 64 4200 50 6 (Some "Snapdragon 685").

(** A row without a brand. *)
Definition unbranded : Row :=
  {| brand := None; model := "Pixel 8"; launched_price_rs := 59999; ram_gb := 8;
     storage_gb := 128; battery_capacity_mah := 4575; back_camera_mp := 50;
     screen_size_inches := 6.2; Processor := Some "Tensor G3";
     launched_year := Some 2023%Z |}.

Definition sample_catalog : list Row :=
  [ phone "Samsung" "Galaxy A15" 14999 6 128 5000 50 6.5 (Some "Dimensity 6100");
    phone "Apple" "iPhone 15" 79999 6 128 3349 48 6.1 None;
    redmi_12;
    phone "Samsung" "Galaxy S5" 12999 8 128 4300 13 5.8 (Some "Exynos 7904");
    phone "OnePlus" "Nord 3" 33999 8 256 5000 50 6.7 (Some "Dimensity 9000") ].

Definition sample_pending : Session :=
  {| awaiting_confirmation := true;
     messages := [user_says "under 20000 with 6gb ram, 128gb storage and 4000 mah";
                  assistant_says "So far, you're looking for under ₹20000, with at least 6GB RAM, with at least 128GB storage, with at least 4000 mAh battery. Does that sound right? Shall I search now or do you have more details?"];
     current_filters := {["price_max" := VInt 20000; "ram_min" := VInt 6;
                          "storage_min" := VInt 128;
                          "battery_capacity_mah" := VInt 4000]};
     filtered_df := [] |}.

(** ** Keys of a filter dictionary *)

Definition flag_keys : list string :=
  ["keyword_gaming"; "keyword_camera"; "keyword_budget"; "keyword_battery";
   "keyword_display"; "keyword_compact"; "keyword_premium"].

(** The keys [filter_data] looks up. *)
Definition read_keys : list string := "brand" :: numeric_keys ++ flag_keys.

(** What [extract_filters] stores under a key: a natural number under a
    numeric key, text under ["brand"], [True] under a keyword; it writes the
    keys [filter_data] reads and ["keyword_fast_charging"]. *)
Definition extracted_entry (k : string) (v : value) : bool :=
  if existsb (String.eqb k) numeric_keys
  then match v with VInt n => (0 <=? n)%Z | _ => false end
  else if String.eqb k "brand"
       then match v with VStr _ => true | _ => false end
       else if existsb (String.eqb k) ("keyword_fast_charging" :: flag_keys)
            then match v with VBool true => true | _ => false end
            else false.

(** No character of [s] is a digit. *)
Definition no_digit (s : string) : bool :=
  all_chars (fun c => negb (is_digit c)) s.

(** The filters [next_question] asks for before it proposes a search. *)
Definition ready (f : gmap string value) : bool :=
  (has_key f "price_max" || has_key f "price_min")
  && has_key f "ram_min" && has_key f "storage_min"
  && (has_key f "battery_capacity_mah" || has_key f "keyword_battery").

(** Every captured group has at most [n] characters. *)
Definition short (n : nat) (g : caps) : Prop :=
  List.Forall (fun c => (String.length (snd c) <= n)%nat) g.

(** The patterns whose groups [extract_filters] converts, and the texts in
    which every number they find has at most 4000 digits, well within the
    limit. *)
Definition number_patterns : list regex :=
  [price_max_re; price_range_re; price_min_re; around_price_re;
   ram_explicit_re; ram_ambiguous_re; ram_min_re;
   storage_explicit_re; gb_re; storage_min_re; battery_re].

Definition numbers_fit (q : string) : Prop :=
  forall r m i, In r number_patterns -> search r q = Some m ->
                (String.length (group m i) <= 4000)%nat.

(** [r] matches nowhere in a text without digits. *)
Definition needs_digit (r : regex) : Prop :=
  forall s g, no_digit s = true -> run r s g = [].

(** Every entry is one [extract_filters] can have written. *)
Definition extracted_map (f : gmap string value) : Prop :=
  map_Forall (fun k v => extracted_entry k v = true) f.


(** ** The grid of result cards *)

(** [range(start, stop, step)] for a positive [step]; [fuel] bounds the number
    of items, and [stop] items are never exceeded. *)
Fixpoint py_range (fuel start stop step : nat) : list nat :=
  match fuel with
  | O => []
  | S fuel' =>
      if (start <? stop)%nat
      then start :: py_range fuel' (start + step) stop step
      else []
  end.

(** The two loops that lay the results out, [for i in range(0, num_cards,
    cols_per_row): for j in range(cols_per_row): idx = i + j; if idx <
    num_cards: ...]: for each row of the grid, the indices of the results
    shown in its columns. *)
Definition card_grid (num_cards cols_per_row : nat) : list (list nat) :=
  List.map
    (fun i => List.filter (fun idx => (idx <? num_cards)%nat)
                (List.map (fun j => (i + j)%nat) (seq 0 cols_per_row)))
    (py_range num_cards 0 num_cards cols_per_row).

(** ** [load_data]: cleaning the table

    The table as it stands after the loop of [pd.to_numeric(errors='coerce')],
    with every column of [numeric_cols] and of the key in the file: a numeric
    cell is a number, or missing where the text was not one.  (Without one of
    those columns [dropna] or [drop_duplicates] raises and the application
    stops.) *)

Record RawRow := {
  raw_brand : option string;
  raw_model : option string;
  raw_launched_price_rs : option Q;
  raw_ram_gb : option Q;
  raw_storage_gb : option Q;
  raw_battery_capacity_mah : option Q;
  raw_back_camera_mp : option Q;
  raw_screen_size_inches : option Q;
  raw_Processor : option string;
  raw_launched_year : option Z
}.

Definition present {A} (x : option A) : bool :=
  match x with Some _ => true | None => false end.

(** No cell of [numeric_cols] is missing. *)
Definition complete (r : RawRow) : bool :=
  present (raw_launched_price_rs r) && present (raw_ram_gb r)
  && present (raw_storage_gb r) && present (raw_battery_capacity_mah r)
  && present (raw_back_camera_mp r) && present (raw_screen_size_inches r).

(** [df.dropna(subset=numeric_cols)] *)
Definition dropna (rows : list RawRow) : list RawRow := List.filter complete rows.

(** Equality of cells as [drop_duplicates] takes it: equal numbers, equal
    texts, and a missing cell equal to a missing cell. *)
Definition same_number (a b : option Q) : bool :=
  match a, b with
  | Some x, Some y => Qeq_bool x y
  | None, None => true
  | _, _ => false
  end.

Definition same_text (a b : option string) : bool :=
  match a, b with
  | Some x, Some y => String.eqb x y
  | None, None => true
  | _, _ => false
  end.

(** Equal on [brand], [model], [ram_gb], [storage_gb], [launched_price_rs]. *)
Definition same_key (a b : RawRow) : bool :=
  same_text (raw_brand a) (raw_brand b)
  && same_text (raw_model a) (raw_model b)
  && same_number (raw_ram_gb a) (raw_ram_gb b)
  && same_number (raw_storage_gb a) (raw_storage_gb b)
  && same_number (raw_launched_price_rs a) (raw_launched_price_rs b).

(** [df.drop_duplicates(subset=[...])]: the first row of each key stays. *)
Fixpoint drop_duplicates (rows : list RawRow) : list RawRow :=
  match rows with
  | [] => []
  | x :: rows' =>
      x :: List.filter (fun y => negb (same_key x y)) (drop_duplicates rows')
  end.

Definition load_data (rows : list RawRow) : list RawRow :=
  drop_duplicates (dropna rows).

(** ** Lemmas on lists *)

Section ListFacts.
Context {A : Type}.
Implicit Types (p q : A -> bool) (l : list A).

Lemma filter_all p l : (forall x, p x = true) -> List.filter p l = l.
Proof.
  intros Hp. induction l as [|x l IH]; simpl; [reflexivity|].
  rewrite Hp. f_equal. exact IH.
Qed.

Lemma filter_twice p q l :
  List.filter q (List.filter p l) = List.filter (fun x => p x && q x) l.
Proof.
  induction l as [|x l IH]; simpl; [reflexivity|].
  destruct (p x); simpl; [|exact IH].
  destruct (q x); simpl; congruence.
Qed.

Lemma filter_perm p l l' :
  Permutation l l' -> Permutation (List.filter p l) (List.filter p l').
Proof.
  induction 1 as [|x l l' _ IH|x y l|l l' l'' _ IH1 _ IH2]; simpl.
  - constructor.
  - destruct (p x); [constructor|]; exact IH.
  - destruct (p x), (p y); try reflexivity. constructor.
  - etransitivity; eassumption.
Qed.

Lemma filter_strongly_sorted (R : A -> A -> Prop) p l :
  StronglySorted R l -> StronglySorted R (List.filter p l).
Proof.
  induction 1 as [|x l Hs IH Hx]; simpl; [constructor|].
  destruct (p x); [|exact IH].
  constructor; [exact IH|].
  rewrite List.Forall_forall in *. intros y Hy.
  apply List.filter_In in Hy. apply Hx, Hy.
Qed.
End ListFacts.

(** ** [sort_values] sorts *)

Lemma insert_by_price_perm x l : Permutation (insert_by_price x l) (x :: l).
Proof.
  induction l as [|y l IH]; simpl; [reflexivity|].
  destruct (Qle_bool _ _); [reflexivity|].
  rewrite IH. apply perm_swap.
Qed.

Lemma sort_values_perm rows : Permutation (sort_values rows) rows.
Proof.
  induction rows as [|x rows IH]; simpl; [reflexivity|].
  rewrite insert_by_price_perm. constructor. exact IH.
Qed.

Lemma price_le_trans a b c : price_le a b -> price_le b c -> price_le a c.
Proof. unfold price_le. apply Qle_trans. Qed.

Lemma insert_by_price_sorted x l :
  StronglySorted price_le l -> StronglySorted price_le (insert_by_price x l).
Proof.
  induction 1 as [|y l Hs IH Hy]; simpl.
  - repeat constructor.
  - destruct (Qle_bool _ _) eqn:E.
    + apply Qle_bool_iff in E.
      constructor; [constructor; assumption|].
      constructor; [exact E|].
      eapply List.Forall_impl; [|exact Hy].
      intros z Hz. eapply price_le_trans; [exact E|exact Hz].
    + assert (price_le y x) as Hyx.
      { unfold price_le. apply Qlt_le_weak, Qnot_le_lt.
        intros H. apply Qle_bool_iff in H. congruence. }
      constructor; [exact IH|].
      rewrite List.Forall_forall in *. intros z Hz.
      apply (Permutation_in _ (insert_by_price_perm x l)) in Hz.
      destruct Hz as [<-|Hz]; [exact Hyx|apply Hy, Hz].
Qed.

Lemma sort_values_sorted rows : StronglySorted price_le (sort_values rows).
Proof.
  induction rows as [|x rows IH]; simpl; [constructor|].
  apply insert_by_price_sorted, IH.
Qed.

(** ** The steps of [filter_data] as selections *)

Lemma typed_at_of_well_typed f k :
  well_typed f = true -> In k ("brand" :: numeric_keys) -> typed_at f k = true.
Proof.
  unfold well_typed. rewrite List.forallb_forall. intros H Hk. apply H, Hk.
Qed.

Lemma when_present_keep_le f key col rows :
  existsb (String.eqb key) numeric_keys = true -> typed_at f key = true ->
  when_present f key (keep_le col) rows
  = Some (List.filter (fun r => bound f key (fun n => Qle_bool (col r) n)) rows).
Proof.
  unfold when_present, keep_le, bound, typed_at, typed_entry. intros -> Ht.
  destruct (f !! key) as [[n|b|s]|]; simpl in *; try reflexivity; try discriminate.
  now rewrite filter_all.
Qed.

Lemma when_present_keep_ge f key col rows :
  existsb (String.eqb key) numeric_keys = true -> typed_at f key = true ->
  when_present f key (keep_ge col) rows
  = Some (List.filter (fun r => bound f key (fun n => Qle_bool n (col r))) rows).
Proof.
  unfold when_present, keep_ge, bound, typed_at, typed_entry. intros -> Ht.
  destruct (f !! key) as [[n|b|s]|]; simpl in *; try reflexivity; try discriminate.
  now rewrite filter_all.
Qed.

Lemma all_ascii (P : ascii -> Prop) :
  (forall n, (n < 256)%nat -> P (ascii_of_nat n)) -> forall c, P c.
Proof.
  intros H c. rewrite <- (ascii_nat_embedding c). apply H, nat_ascii_bounded.
Qed.

Lemma same_letter_lower c d :
  same_letter c d = Ascii.eqb (lower_char c) (lower_char d).
Proof.
  revert c d.
  assert (forallb (fun m => forallb (fun n =>
            Bool.eqb (same_letter (ascii_of_nat m) (ascii_of_nat n))
              (Ascii.eqb (lower_char (ascii_of_nat m))
                 (lower_char (ascii_of_nat n))))
            (seq 0 256)) (seq 0 256) = true) as Hall
    by (vm_compute; reflexivity).
  rewrite List.forallb_forall in Hall.
  apply (all_ascii (fun c => forall d, _)). intros m Hm.
  apply (all_ascii (fun d => _)). intros n Hn.
  specialize (Hall m). rewrite List.in_seq in Hall.
  specialize (Hall ltac:(lia)). rewrite List.forallb_forall in Hall.
  specialize (Hall n). rewrite List.in_seq in Hall.
  specialize (Hall ltac:(lia)). now apply Bool.eqb_prop in Hall.
Qed.

Lemma equal_ignoring_case_lower a b :
  equal_ignoring_case a b = String.eqb (lower a) (lower b).
Proof.
  revert b. induction a as [|c a IH]; intros [|d b]; simpl; try reflexivity.
  now rewrite same_letter_lower, IH.
Qed.

Lemma brand_ok_brand_is f r b :
  f !! "brand" = Some (VStr b) -> brand_ok f r = brand_is b r.
Proof.
  unfold brand_ok, brand_is. intros ->.
  destruct (brand r); [apply equal_ignoring_case_lower|reflexivity].
Qed.

Lemma when_present_keep_brand f text rows :
  typed_at f "brand" = true -> negb (has_key f "brand") || text = true ->
  when_present f "brand" (keep_brand text) rows
  = Some (List.filter (brand_ok f) rows).
Proof.
  unfold when_present, keep_brand, typed_at, has_key. intros Ht Hx.
  destruct (f !! "brand") as [v|] eqn:E.
  - rewrite bool_decide_eq_true_2 in Hx by eauto. simpl in Hx. subst text.
    destruct v as [n|b|s]; simpl in Ht; try discriminate.
    f_equal. apply List.filter_ext. intros r. symmetry.
    now apply brand_ok_brand_is.
  - unfold brand_ok. rewrite E. now rewrite filter_all.
Qed.

Lemma accepts_spec df f :
  accepts df f = true
  <-> well_typed f = true /\ (has_key f "brand" = true -> has_str df = true).
Proof.
  unfold accepts. rewrite andb_true_iff, orb_true_iff, negb_true_iff.
  destruct (has_key f "brand"); intuition congruence.
Qed.

Lemma when_flag_filter f key p rows :
  when_flag f key (List.filter p) rows
  = List.filter (fun r => implb (flag_on f key) (p r)) rows.
Proof.
  unfold when_flag, flag_on.
  destruct (f !! key) as [v|]; [destruct (truthy v)|]; simpl;
    try reflexivity; now rewrite filter_all.
Qed.

Lemma when_flag_budget f rows :
  when_flag f "keyword_budget" (budget_step f) rows
  = List.filter (budget_cap f)
      (if flag_on f "keyword_budget" then sort_values rows else rows).
Proof.
  unfold when_flag, budget_step, budget_cap, flag_on.
  destruct (f !! "keyword_budget") as [v|]; [destruct (truthy v)|]; simpl;
    try (now rewrite filter_all).
  destruct (negb (has_key f "price_max") && negb (has_key f "price_min")); simpl;
    [reflexivity|now rewrite filter_all].
Qed.

Lemma when_flag_battery f rows :
  when_flag f "keyword_battery" (battery_step f) rows
  = List.filter (battery_floor f) rows.
Proof.
  unfold when_flag, battery_step, battery_floor, flag_on.
  destruct (f !! "keyword_battery") as [v|]; [destruct (truthy v)|]; simpl;
    try (now rewrite filter_all).
  destruct (negb (has_key f "battery_capacity_mah")); simpl;
    [reflexivity|now rewrite filter_all].
Qed.

Lemma satisfies_split f r : satisfies f r = before_budget f r && from_budget f r.
Proof.
  unfold satisfies, keyword_ok, before_budget, from_budget, budget_cap, battery_floor.
  rewrite <- !andb_assoc. reflexivity.
Qed.

(** Normal form of [filter_data] on a dictionary it accepts. *)
Lemma filter_data_normal df f :
  accepts df f = true ->
  filter_data df f
  = Some (List.filter (from_budget f)
            (if flag_on f "keyword_budget"
             then sort_values (List.filter (before_budget f) df)
             else List.filter (before_budget f) df)).
Proof.
  unfold accepts. intros Hacc. apply andb_true_iff in Hacc as [Hwt Hstr].
  unfold filter_data.
  pose proof (fun k => typed_at_of_well_typed f k Hwt) as Ht. simpl in Ht.
  rewrite when_present_keep_le by (try reflexivity; apply Ht; auto 10).
  simpl.
  rewrite when_present_keep_ge by (try reflexivity; apply Ht; auto 10).
  simpl.
  rewrite when_present_keep_ge by (try reflexivity; apply Ht; auto 10).
  simpl.
  rewrite when_present_keep_ge by (try reflexivity; apply Ht; auto 10).
  simpl.
  rewrite when_present_keep_brand by (exact Hstr || (apply Ht; auto 10)).
  simpl.
  rewrite when_present_keep_ge by (try reflexivity; apply Ht; auto 10).
  simpl.
  rewrite !when_flag_filter, when_flag_budget, when_flag_battery.
  rewrite !filter_twice. f_equal.
  assert (forall l l' : list Row, l = l' ->
            List.filter (from_budget f) l = List.filter (from_budget f) l') as Hl
    by (intros ? ? ->; reflexivity).
  etransitivity; [apply List.filter_ext|apply Hl].
  - intros r. unfold from_budget. rewrite !andb_assoc. reflexivity.
  - destruct (flag_on f "keyword_budget"); [f_equal|]; apply List.filter_ext;
      intros r; unfold before_budget, numeric_ok; rewrite !andb_assoc; reflexivity.
Qed.

Lemma when_present_keep_le_raises f key col rows :
  existsb (String.eqb key) numeric_keys = true -> typed_at f key = false ->
  when_present f key (keep_le col) rows = None.
Proof.
  unfold when_present, keep_le, typed_at, typed_entry. intros -> Ht.
  destruct (f !! key) as [[n|b|s]|]; simpl in *; try discriminate; reflexivity.
Qed.

Lemma when_present_keep_ge_raises f key col rows :
  existsb (String.eqb key) numeric_keys = true -> typed_at f key = false ->
  when_present f key (keep_ge col) rows = None.
Proof.
  unfold when_present, keep_ge, typed_at, typed_entry. intros -> Ht.
  destruct (f !! key) as [[n|b|s]|]; simpl in *; try discriminate; reflexivity.
Qed.

Lemma when_present_keep_brand_raises f text rows :
  typed_at f "brand" && (negb (has_key f "brand") || text) = false ->
  when_present f "brand" (keep_brand text) rows = None.
Proof.
  unfold when_present, keep_brand, typed_at, has_key. intros Ht.
  destruct (f !! "brand") as [v|] eqn:E; [|discriminate].
  rewrite bool_decide_eq_true_2 in Ht by eauto.
  destruct text; [|reflexivity].
  destruct v as [n|b|s]; simpl in *; try discriminate; reflexivity.
Qed.

(** [filter_data] raises exactly on the dictionaries it does not accept. *)
Lemma filter_data_raises df f : filter_data df f = None <-> accepts df f = false.
Proof.
  split.
  - intros Hnone. destruct (accepts df f) eqn:Hwt; [|reflexivity].
    rewrite filter_data_normal in Hnone by exact Hwt. discriminate.
  - unfold accepts. intros Hwt. unfold filter_data.
    destruct (typed_at f "price_max") eqn:E1;
      [|now rewrite when_present_keep_le_raises].
    rewrite when_present_keep_le by (reflexivity || exact E1). simpl.
    destruct (typed_at f "price_min") eqn:E2;
      [|now rewrite when_present_keep_ge_raises].
    rewrite when_present_keep_ge by (reflexivity || exact E2). simpl.
    destruct (typed_at f "ram_min") eqn:E3;
      [|now rewrite when_present_keep_ge_raises].
    rewrite when_present_keep_ge by (reflexivity || exact E3). simpl.
    destruct (typed_at f "storage_min") eqn:E4;
      [|now rewrite when_present_keep_ge_raises].
    rewrite when_present_keep_ge by (reflexivity || exact E4). simpl.
    destruct (typed_at f "brand" && (negb (has_key f "brand") || has_str df))
      eqn:E5; [|now rewrite when_present_keep_brand_raises].
    apply andb_true_iff in E5 as [E5 E5'].
    rewrite when_present_keep_brand by assumption. simpl.
    destruct (typed_at f "battery_capacity_mah") eqn:E6;
      [|now rewrite when_present_keep_ge_raises].
    unfold well_typed in Hwt. simpl in Hwt.
    rewrite E1, E2, E3, E4, E5, E6, E5' in Hwt. discriminate.
Qed.

Lemma filter_data_some_accepts df f rows :
  filter_data df f = Some rows -> accepts df f = true.
Proof.
  intros H. destruct (accepts df f) eqn:Hwt; [reflexivity|].
  apply (filter_data_raises df) in Hwt. congruence.
Qed.

Lemma filter_data_some_typed df f rows :
  filter_data df f = Some rows -> well_typed f = true.
Proof.
  intros H. apply filter_data_some_accepts in H. now apply accepts_spec in H.
Qed.

(** The rows returned are the rows of the catalog that satisfy the filters. *)
Lemma filter_data_In df f rows r :
  filter_data df f = Some rows ->
  In r rows <-> In r df /\ satisfies f r = true.
Proof.
  intros H. pose proof (filter_data_some_accepts _ _ _ H) as Hwt.
  rewrite filter_data_normal in H by exact Hwt. injection H as <-.
  rewrite List.filter_In, satisfies_split, andb_true_iff.
  assert (In r (if flag_on f "keyword_budget"
                then sort_values (List.filter (before_budget f) df)
                else List.filter (before_budget f) df)
          <-> In r (List.filter (before_budget f) df)) as ->.
  { destruct (flag_on f "keyword_budget"); [|tauto].
    split; apply Permutation_in;
      [|symmetry]; apply sort_values_perm. }
  rewrite List.filter_In. tauto.
Qed.

Lemma keyword_ok_no_flags f r :
  (forall k, flag_on f k = false) -> keyword_ok f r = true.
Proof. intros H. unfold keyword_ok. rewrite !H. reflexivity. Qed.

Lemma filter_twice_satisfies f l :
  List.filter (from_budget f) (List.filter (before_budget f) l)
  = List.filter (satisfies f) l.
Proof.
  rewrite filter_twice. apply List.filter_ext.
  intros r. now rewrite satisfies_split.
Qed.

(** Without [keyword_budget] the rows come out in catalog order. *)
Lemma filter_data_unsorted df f :
  accepts df f = true -> flag_on f "keyword_budget" = false ->
  filter_data df f = Some (List.filter (satisfies f) df).
Proof.
  intros Hwt Hoff. rewrite filter_data_normal, Hoff by exact Hwt.
  now rewrite filter_twice_satisfies.
Qed.

(** A dictionary with a brand, on a catalog with rows and no brand among
    them: [filter_data] raises. *)
Lemma filter_data_without_str df f :
  has_key f "brand" = true -> has_str df = false -> filter_data df f = None.
Proof.
  intros Hk Hs. apply filter_data_raises. unfold accepts.
  rewrite Hk, Hs. apply andb_false_r.
Qed.

Lemma has_str_intro df r b : In r df -> brand r = Some b -> has_str df = true.
Proof.
  intros Hr Hb. unfold has_str. destruct df as [|r0 df]; [reflexivity|].
  apply List.existsb_exists. exists r. split; [exact Hr|].
  rewrite Hb. now apply bool_decide_eq_true_2.
Qed.

Lemma has_str_spec df :
  has_str df = true <-> df = [] \/ exists r b, In r df /\ brand r = Some b.
Proof.
  split.
  - unfold has_str. destruct df as [|r0 df]; [now left|]. intros H. right.
    apply List.existsb_exists in H as (r & Hr & Hb).
    apply bool_decide_eq_true_1 in Hb as [b Hb]. eauto.
  - intros [->|(r & b & Hr & Hb)]; [reflexivity|].
    now apply (has_str_intro df r b).
Qed.

Lemma exact_bounds_at f k :
  exact_bounds f = true -> In k numeric_keys ->
  f !! k = None \/ exists n, f !! k = Some (VInt n) /\ (Z.abs n <= 2 ^ 53)%Z.
Proof.
  unfold exact_bounds. rewrite !andb_true_iff, List.forallb_forall.
  intros [[Hall H] _] Hk. specialize (H k Hk).
  apply bool_decide_eq_true_1 in Hall.
  destruct (f !! k) as [[n|b|s]|] eqn:E; try discriminate; [right|now left].
  exists n. split; [reflexivity|].
  specialize (Hall k (VInt n) E). now apply Z.leb_le.
Qed.

Lemma exact_bounds_brand f :
  exact_bounds f = true ->
  f !! "brand" = None
  \/ exists b, f !! "brand" = Some (VStr b) /\ plain_text b = true.
Proof.
  unfold exact_bounds. rewrite !andb_true_iff. intros [_ H].
  destruct (f !! "brand") as [[n|b|s]|]; try discriminate; [right|now left].
  now exists s.
Qed.

Lemma exact_bounds_well_typed f : exact_bounds f = true -> well_typed f = true.
Proof.
  intros H. unfold well_typed. apply List.forallb_forall. intros k Hk.
  unfold typed_at. destruct Hk as [<-|Hk].
  - destruct (exact_bounds_brand f H) as [->|(b & -> & _)]; reflexivity.
  - destruct (exact_bounds_at f k H Hk) as [->|(n & -> & _)]; [reflexivity|].
    unfold typed_entry.
    replace (existsb (String.eqb k) numeric_keys) with true; [reflexivity|].
    symmetry. apply List.existsb_exists. exists k.
    split; [exact Hk|apply String.eqb_refl].
Qed.

Lemma exact_bounds_accepts df f :
  exact_bounds f = true -> (has_key f "brand" = true -> has_str df = true) ->
  accepts df f = true.
Proof.
  intros H Hs. apply accepts_spec. split; [now apply exact_bounds_well_typed|exact Hs].
Qed.

Lemma bound_le_meets f k (x : Q) :
  (f !! k = None \/ exists n, f !! k = Some (VInt n) /\ (Z.abs n <= 2 ^ 53)%Z) ->
  bound f k (fun n => Qle_bool x n) = true
  <-> (forall n, f !! k = Some (VInt n) -> (x <= inject_Z n)%Q).
Proof.
  unfold bound. intros [->|(n & -> & _)]; simpl.
  - split; [intros _ n Hn; discriminate|reflexivity].
  - rewrite Qle_bool_iff. split; [intros H n' Hn'; congruence|intros H; now apply H].
Qed.

Lemma bound_ge_meets f k (x : Q) :
  (f !! k = None \/ exists n, f !! k = Some (VInt n) /\ (Z.abs n <= 2 ^ 53)%Z) ->
  bound f k (fun n => Qle_bool n x) = true
  <-> (forall n, f !! k = Some (VInt n) -> (inject_Z n <= x)%Q).
Proof.
  unfold bound. intros [->|(n & -> & _)]; simpl.
  - split; [intros _ n Hn; discriminate|reflexivity].
  - rewrite Qle_bool_iff. split; [intros H n' Hn'; congruence|intros H; now apply H].
Qed.

Lemma brand_ok_meets f r :
  exact_bounds f = true ->
  brand_ok f r = true
  <-> (forall b, f !! "brand" = Some (VStr b) ->
                 exists x, brand r = Some x /\ equal_ignoring_case x b = true).
Proof.
  intros H. unfold brand_ok.
  destruct (exact_bounds_brand f H) as [->|(b & -> & _)].
  - split; [intros _ b Hb; discriminate|reflexivity].
  - split.
    + intros Hr b' Hb'. injection Hb' as <-.
      destruct (brand r) as [x|]; [|discriminate]. now exists x.
    + intros Hr. destruct (Hr b eq_refl) as (x & -> & Hx). exact Hx.
Qed.

(** On integers and a text, [numeric_ok] is the six constraints. *)
Lemma numeric_ok_meets f r :
  exact_bounds f = true -> numeric_ok f r = true <-> meets f r.
Proof.
  intros H. unfold numeric_ok, meets. rewrite !andb_true_iff.
  rewrite (bound_le_meets f "price_max") by (apply exact_bounds_at; simpl; auto).
  rewrite !bound_ge_meets by (apply exact_bounds_at; simpl; auto 10).
  rewrite (brand_ok_meets f r H). tauto.
Qed.

(** C1 as stated fails on a catalog whose brand column holds no text: no row
    satisfies the constraint on the brand, and [filter_data] does not return
    the empty selection, it raises. *)
Lemma filter_data_needs_text_brands :
  well_typed {["brand" := VStr "Samsung"]} = true
  /\ List.filter (satisfies {["brand" := VStr "Samsung"]}) [unbranded] = []
  /\ filter_data [unbranded] {["brand" := VStr "Samsung"]} = None.
Proof. vm_compute. repeat split. Qed.

(** C1, amended.  Take a constraint set whose numeric keys hold integers,
    whose integers are at most 2^53 in size and whose brand is plain text,
    and a catalog of plain text which, when a brand is asked for, has a row
    with a brand or no row at all.  [filter_data] returns exactly the rows
    that satisfy the conjunction of the present constraints ([satisfies]:
    price <= price_max, price >=
    price_min, ram >= ram_min, storage >= storage_min, brand equal ignoring
    case, battery >= battery_capacity_mah, and the feature keywords), in
    catalog order unless [keyword_budget] is on; with [keyword_budget] on
    they are the same rows, sorted by ascending price.  When no flag is on,
    the six value constraints alone decide, and they are the six
    comparisons of [meets]. *)
Theorem filter_data_exact (df : list Row) (f : gmap string value) :
  exact_bounds f = true ->
  plain_catalog df = true ->
  (is_Some (f !! "brand") ->
   df = [] \/ exists r b, In r df /\ brand r = Some b) ->
  exists rows,
    filter_data df f = Some rows
    /\ (flag_on f "keyword_budget" = false ->
        rows = List.filter (satisfies f) df)
    /\ ((forall k, flag_on f k = false) ->
        rows = List.filter (numeric_ok f) df)
    /\ Permutation rows (List.filter (satisfies f) df)
    /\ (flag_on f "keyword_budget" = true -> StronglySorted price_le rows)
    /\ (forall r, numeric_ok f r = true <-> meets f r).
Proof.
  intros Hex _ Hstr.
  assert (accepts df f = true) as Hacc.
  { apply exact_bounds_accepts; [exact Hex|]. intros Hk.
    apply has_str_spec, Hstr. now apply bool_decide_eq_true_1 in Hk. }
  eexists. split; [apply filter_data_normal, Hacc|].
  split; [|split; [|split; [|split]]].
  - intros ->. apply filter_twice_satisfies.
  - intros Hoff. rewrite Hoff, filter_twice_satisfies. apply List.filter_ext.
    intros r. unfold satisfies. now rewrite keyword_ok_no_flags, andb_true_r.
  - rewrite <- filter_twice_satisfies. apply filter_perm.
    destruct (flag_on f "keyword_budget"); [apply sort_values_perm|reflexivity].
  - intros ->. apply filter_strongly_sorted, sort_values_sorted.
  - intros r. now apply numeric_ok_meets.
Qed.

(** ** Keyword thresholds *)

Lemma satisfies_display f r :
  satisfies f r = true -> flag_on f "keyword_display" = true ->
  (6 <= screen_size_inches r)%Q.
Proof.
  unfold satisfies, keyword_ok. intros H Hf. rewrite Hf in H.
  rewrite !andb_true_iff in H. simpl in H. apply Qle_bool_iff. tauto.
Qed.

Lemma satisfies_compact f r :
  satisfies f r = true -> flag_on f "keyword_compact" = true ->
  (screen_size_inches r <= 6)%Q.
Proof.
  unfold satisfies, keyword_ok. intros H Hf. rewrite Hf in H.
  rewrite !andb_true_iff in H. simpl in H. apply Qle_bool_iff. tauto.
Qed.

Lemma satisfies_camera f r :
  satisfies f r = true -> flag_on f "keyword_camera" = true ->
  (48 <= back_camera_mp r)%Q.
Proof.
  unfold satisfies, keyword_ok. intros H Hf. rewrite Hf in H.
  rewrite !andb_true_iff in H. simpl in H. apply Qle_bool_iff. tauto.
Qed.

Lemma satisfies_battery f r n :
  satisfies f r = true -> f !! "battery_capacity_mah" ≫= as_number = Some n ->
  (n <= battery_capacity_mah r)%Q.
Proof.
  unfold satisfies, numeric_ok. intros H Hf.
  rewrite !andb_true_iff in H. destruct H as [[_ H] _].
  unfold bound in H. rewrite Hf in H. apply Qle_bool_iff, H.
Qed.

(** C8. [keyword_display] keeps rows with screen size >= 6.0 and
    [keyword_compact] rows with screen size <= 6.0; when both flags are on,
    every row [filter_data] returns has screen size exactly 6.0.  Alone, each
    flag selects exactly the rows on its side of 6.0. *)
Theorem display_compact_boundary (df : list Row) (f : gmap string value)
    (rows : list Row) :
  filter_data df f = Some rows ->
  (flag_on f "keyword_display" = true ->
   forall r, In r rows -> (6 <= screen_size_inches r)%Q)
  /\ (flag_on f "keyword_compact" = true ->
      forall r, In r rows -> (screen_size_inches r <= 6)%Q)
  /\ (flag_on f "keyword_display" = true -> flag_on f "keyword_compact" = true ->
      forall r, In r rows -> (screen_size_inches r == 6)%Q)
  /\ filter_data df {["keyword_display" := VBool true]}
     = Some (List.filter (fun r => Qle_bool 6 (screen_size_inches r)) df)
  /\ filter_data df {["keyword_compact" := VBool true]}
     = Some (List.filter (fun r => Qle_bool (screen_size_inches r) 6) df).
Proof.
  intros Hrun.
  assert (forall r, In r rows -> satisfies f r = true) as Hsat.
  { intros r Hr. apply (filter_data_In _ _ _ r Hrun) in Hr. tauto. }
  split; [|split; [|split; [|split]]].
  - intros Hd r Hr. eapply satisfies_display; eauto.
  - intros Hc r Hr. eapply satisfies_compact; eauto.
  - intros Hd Hc r Hr. apply Qle_antisym.
    + eapply satisfies_compact; eauto.
    + eapply satisfies_display; eauto.
  - rewrite (filter_data_unsorted df {["keyword_display" := VBool true]})
      by (vm_compute; reflexivity). f_equal. apply List.filter_ext.
    intros r. unfold satisfies, numeric_ok, keyword_ok, bound, brand_ok, flag_on, has_key.
    rewrite ?lookup_singleton_eq, ?lookup_singleton_ne by done.
    destruct (Qle_bool _ (screen_size_inches r)); reflexivity.
  - rewrite (filter_data_unsorted df {["keyword_compact" := VBool true]})
      by (vm_compute; reflexivity). f_equal. apply List.filter_ext.
    intros r. unfold satisfies, numeric_ok, keyword_ok, bound, brand_ok, flag_on, has_key.
    rewrite ?lookup_singleton_eq, ?lookup_singleton_ne by done.
    destruct (Qle_bool (screen_size_inches r) _); reflexivity.
Qed.

(** ** Battery keyword and numeric battery constraint *)

Lemma well_typed_delete_flag f :
  well_typed (delete "keyword_battery" f) = well_typed f.
Proof.
  unfold well_typed, typed_at. simpl.
  rewrite !lookup_delete_ne by done. reflexivity.
Qed.

Lemma accepts_delete_flag df f :
  accepts df (delete "keyword_battery" f) = accepts df f.
Proof.
  unfold accepts, has_key. rewrite well_typed_delete_flag.
  rewrite lookup_delete_ne by done. reflexivity.
Qed.

Lemma before_budget_delete_flag f r :
  before_budget (delete "keyword_battery" f) r = before_budget f r.
Proof.
  unfold before_budget, numeric_ok, bound, brand_ok, flag_on.
  rewrite !lookup_delete_ne by done. reflexivity.
Qed.

Lemma from_budget_delete_flag f r :
  is_Some (f !! "battery_capacity_mah") ->
  from_budget (delete "keyword_battery" f) r = from_budget f r.
Proof.
  intros Hb. unfold from_budget, budget_cap, battery_floor, flag_on, has_key.
  rewrite lookup_delete_eq. rewrite !lookup_delete_ne by done.
  rewrite (bool_decide_true _ Hb). simpl.
  rewrite andb_false_r. reflexivity.
Qed.

(** With the numeric battery key present, [filter_data] ignores the
    [keyword_battery] flag. *)
Lemma filter_data_delete_flag df f :
  is_Some (f !! "battery_capacity_mah") ->
  filter_data df f = filter_data df (delete "keyword_battery" f).
Proof.
  intros Hb. destruct (accepts df f) eqn:Hwt.
  - rewrite !filter_data_normal by (rewrite ?accepts_delete_flag; exact Hwt).
    f_equal.
    assert (flag_on (delete "keyword_battery" f) "keyword_budget"
            = flag_on f "keyword_budget") as ->
      by (unfold flag_on; now rewrite lookup_delete_ne).
    rewrite (List.filter_ext (before_budget (delete "keyword_battery" f))
               (before_budget f)) by apply before_budget_delete_flag.
    apply List.filter_ext. intros r. symmetry. now apply from_budget_delete_flag.
  - transitivity (@None (list Row)); [|symmetry];
      apply filter_data_raises; rewrite ?accepts_delete_flag; exact Hwt.
Qed.

(** C7. When the numeric [battery_capacity_mah] constraint is present, the
    [keyword_battery] flag adds nothing: [filter_data] returns what it
    returns without the flag, every returned row has battery >= V, and with
    just these two keys the result is exactly the rows with battery >= V
    (not the 4500 default). *)
Theorem numeric_battery_wins (df : list Row) (f : gmap string value) (V : Z) :
  f !! "keyword_battery" = Some (VBool true) ->
  f !! "battery_capacity_mah" = Some (VInt V) ->
  filter_data df f = filter_data df (delete "keyword_battery" f)
  /\ (forall rows r, filter_data df f = Some rows -> In r rows ->
      (inject_Z V <= battery_capacity_mah r)%Q)
  /\ filter_data df {["keyword_battery" := VBool true;
                      "battery_capacity_mah" := VInt V]}
     = Some (List.filter (fun r => Qle_bool (inject_Z V) (battery_capacity_mah r)) df).
Proof.
  intros Hk Hb. split; [|split].
  - apply filter_data_delete_flag. rewrite Hb. eauto.
  - intros rows r Hrun Hr. apply (filter_data_In _ _ _ r Hrun) in Hr.
    destruct Hr as [_ Hr]. eapply satisfies_battery; [exact Hr|].
    now rewrite Hb.
  - rewrite (filter_data_unsorted df {["keyword_battery" := VBool true;
                                     "battery_capacity_mah" := VInt V]})
      by (vm_compute; reflexivity). f_equal. apply List.filter_ext.
    intros r. unfold satisfies, numeric_ok, keyword_ok, bound, brand_ok, flag_on, has_key.
    rewrite ?lookup_insert_eq, ?lookup_insert_ne by done.
    rewrite ?lookup_singleton_eq, ?lookup_singleton_ne by done.
    simpl (_ ≫= as_number).
    destruct (Qle_bool (inject_Z V) (battery_capacity_mah r)); reflexivity.
Qed.

Lemma numeric_battery_wins_witness :
  filter_data sample_catalog {["keyword_battery" := VBool true;
                               "battery_capacity_mah" := VInt 4000]}
  = Some (List.filter (fun r => Qle_bool 4000 (battery_capacity_mah r))
            sample_catalog).
Proof.
  apply (numeric_battery_wins sample_catalog
           {["keyword_battery" := VBool true;
             "battery_capacity_mah" := VInt 4000]} 4000); reflexivity.
Defined.

Lemma filter_data_exact_witness :
  exists rows,
    filter_data sample_catalog
      {["price_max" := VInt 15000; "ram_min" := VInt 6;
        "brand" := VStr "SAMSUNG"]} = Some rows
    /\ List.map model rows = ["Galaxy A15"; "Galaxy S5"].
Proof.
  destruct (filter_data_exact sample_catalog
              {["price_max" := VInt 15000; "ram_min" := VInt 6;
                "brand" := VStr "SAMSUNG"]})
    as (rows & Hrun & Heq & _); [reflexivity|reflexivity| |].
  - intros _. right. exists redmi_12, "Xiaomi". split; [simpl; tauto|reflexivity].
  - exists rows. split; [exact Hrun|].
    rewrite Heq by reflexivity. reflexivity.
Defined.

Lemma display_compact_boundary_witness :
  filter_data sample_catalog
    {["keyword_display" := VBool true; "keyword_compact" := VBool true]}
  = Some [redmi_12]
  /\ (screen_size_inches redmi_12 == 6)%Q.
Proof.
  split; [reflexivity|].
  apply (display_compact_boundary sample_catalog
           {["keyword_display" := VBool true; "keyword_compact" := VBool true]}
           [redmi_12]); [reflexivity|reflexivity|reflexivity|].
  simpl. tauto.
Defined.

(** ** [filter_data] on the store: no frame is written *)

Section FrameRules.
Implicit Types (σ : Frames.Store) (l : Frames.ref) (rows : list Row).

Lemma alloc_agrees σ0 σ rows :
  σ0 ⊆ σ -> Frames.agrees σ0 (Frames.alloc rows σ) (Some rows).
Proof.
  intros Hsub. unfold Frames.agrees, Frames.alloc. split; [apply lookup_insert_eq|].
  etransitivity; [exact Hsub|].
  apply insert_subseteq, not_elem_of_dom, is_fresh.
Qed.

Lemma select_agrees σ0 σ p l rows :
  σ0 ⊆ σ -> σ !! l = Some rows ->
  Frames.agrees σ0 (Frames.select p l σ) (Some (List.filter p rows)).
Proof.
  intros Hsub Hl. unfold Frames.select, Frames.bind, Frames.read. rewrite Hl.
  now apply alloc_agrees.
Qed.

Lemma sorted_agrees σ0 σ l rows :
  σ0 ⊆ σ -> σ !! l = Some rows ->
  Frames.agrees σ0 (Frames.sorted l σ) (Some (sort_values rows)).
Proof.
  intros Hsub Hl. unfold Frames.sorted, Frames.bind, Frames.read. rewrite Hl.
  now apply alloc_agrees.
Qed.

Lemma ret_agrees σ0 σ l rows :
  σ0 ⊆ σ -> σ !! l = Some rows -> Frames.agrees σ0 (Frames.ret l σ) (Some rows).
Proof. intros Hsub Hl. unfold Frames.agrees, Frames.ret. auto. Qed.

(** Sequencing. *)
Lemma bind_agrees σ0 (m : Frames.M Frames.ref) (k : Frames.ref -> Frames.M Frames.ref) σ o g :
  Frames.agrees σ0 (m σ) o ->
  (forall l' σ' rows', σ0 ⊆ σ' -> σ' !! l' = Some rows' ->
                       Frames.agrees σ0 (k l' σ') (g rows')) ->
  Frames.agrees σ0 (Frames.bind m k σ) (o ≫= g).
Proof.
  unfold Frames.bind. intros Hm Hk.
  destruct (m σ) as [[l' σ']|], o as [rows'|]; simpl in *; try tauto.
  destruct Hm as [Hl' Hsub]. apply Hk; assumption.
Qed.

Lemma bind_agrees_pure σ0 (m : Frames.M Frames.ref) (k : Frames.ref -> Frames.M Frames.ref) σ rows' o :
  Frames.agrees σ0 (m σ) (Some rows') ->
  (forall l' σ', σ0 ⊆ σ' -> σ' !! l' = Some rows' -> Frames.agrees σ0 (k l' σ') o) ->
  Frames.agrees σ0 (Frames.bind m k σ) o.
Proof.
  unfold Frames.bind. intros Hm Hk.
  destruct (m σ) as [[l' σ']|]; simpl in Hm; [|contradiction].
  destruct Hm as [Hl' Hsub]. apply Hk; assumption.
Qed.

Lemma keep_le_agrees σ0 σ col v l rows :
  σ0 ⊆ σ -> σ !! l = Some rows ->
  Frames.agrees σ0 (Frames.keep_le col v l σ) (keep_le col v rows).
Proof.
  intros Hsub Hl. unfold Frames.keep_le, keep_le.
  destruct (as_number v); simpl; [now apply select_agrees|exact I].
Qed.

Lemma keep_ge_agrees σ0 σ col v l rows :
  σ0 ⊆ σ -> σ !! l = Some rows ->
  Frames.agrees σ0 (Frames.keep_ge col v l σ) (keep_ge col v rows).
Proof.
  intros Hsub Hl. unfold Frames.keep_ge, keep_ge.
  destruct (as_number v); simpl; [now apply select_agrees|exact I].
Qed.

Lemma keep_brand_agrees σ0 σ text v l rows :
  σ0 ⊆ σ -> σ !! l = Some rows ->
  Frames.agrees σ0 (Frames.keep_brand text v l σ) (keep_brand text v rows).
Proof.
  intros Hsub Hl. unfold Frames.keep_brand, keep_brand.
  destruct text; [|exact I].
  destruct v; simpl; try exact I. now apply select_agrees.
Qed.

Lemma read_bind σ l rows {B} (k : list Row -> Frames.M B) :
  σ !! l = Some rows -> Frames.bind (Frames.read l) k σ = k rows σ.
Proof. intros H. unfold Frames.bind, Frames.read. now rewrite H. Qed.

Lemma when_present_agrees σ0 σ f key step pstep l rows :
  σ0 ⊆ σ -> σ !! l = Some rows ->
  (forall v, Frames.agrees σ0 (step v l σ) (pstep v rows)) ->
  Frames.agrees σ0 (Frames.when_present f key step l σ) (when_present f key pstep rows).
Proof.
  intros Hsub Hl Hstep. unfold Frames.when_present, when_present.
  destruct (f !! key); [apply Hstep|now apply ret_agrees].
Qed.

Lemma when_flag_agrees σ0 σ f key step pstep l rows :
  σ0 ⊆ σ -> σ !! l = Some rows ->
  Frames.agrees σ0 (step l σ) (Some (pstep rows)) ->
  Frames.agrees σ0 (Frames.when_flag f key step l σ) (Some (when_flag f key pstep rows)).
Proof.
  intros Hsub Hl Hstep. unfold Frames.when_flag, when_flag.
  destruct (f !! key) as [v|]; [destruct (truthy v)|];
    first [exact Hstep|now apply ret_agrees].
Qed.

Lemma budget_step_agrees σ0 σ f l rows :
  σ0 ⊆ σ -> σ !! l = Some rows ->
  Frames.agrees σ0 (Frames.budget_step f l σ) (Some (budget_step f rows)).
Proof.
  intros Hsub Hl. unfold Frames.budget_step, budget_step.
  eapply bind_agrees_pure; [apply sorted_agrees; eassumption|].
  intros l' σ' Hsub' Hl'. simpl.
  destruct (negb (has_key f "price_max") && negb (has_key f "price_min"));
    [now apply select_agrees|now apply ret_agrees].
Qed.

Lemma battery_step_agrees σ0 σ f l rows :
  σ0 ⊆ σ -> σ !! l = Some rows ->
  Frames.agrees σ0 (Frames.battery_step f l σ) (Some (battery_step f rows)).
Proof.
  intros Hsub Hl. unfold Frames.battery_step, battery_step.
  destruct (negb (has_key f "battery_capacity_mah"));
    [now apply select_agrees|now apply ret_agrees].
Qed.

Create HintDb frames.
#[local] Hint Resolve select_agrees sorted_agrees ret_agrees keep_le_agrees
  keep_ge_agrees keep_brand_agrees budget_step_agrees battery_step_agrees : frames.

(** One [if key in filters: ...] statement on a value, and one on a flag. *)
Ltac present_step :=
  apply bind_agrees;
  [apply when_present_agrees; auto with frames|intros ? ? ? ? ?].

Ltac flag_step :=
  eapply bind_agrees_pure;
  [apply when_flag_agrees; eauto with frames|intros ? ? ? ?].

(** The store version computes the rows of [filter_data] in a new frame. *)
Lemma filter_data_agrees σ df f rows :
  σ !! df = Some rows ->
  Frames.agrees σ (Frames.filter_data df f σ) (filter_data rows f).
Proof.
  intros Hdf. unfold Frames.filter_data.
  rewrite (read_bind _ _ rows) by exact Hdf. unfold filter_data.
  eapply bind_agrees_pure.
  { unfold Frames.copy, Frames.bind, Frames.read. rewrite Hdf.
    now apply alloc_agrees. }
  intros l0 σ0 Hs0 Hl0.
  do 6 present_step. do 7 flag_step.
  now apply ret_agrees.
Qed.
End FrameRules.

(** C10. [filter_data] is pure: run on a store where the catalog [df] holds
    [rows], it returns a frame holding the rows the function [filter_data]
    gives for [rows] and the filters, and leaves the catalog and every
    other frame of the store as they were; run again with the same filters
    on the same catalog it returns the same rows.  (It raises exactly when
    the function does, whatever the store.) *)
Theorem filter_data_pure (σ : Frames.Store) (df : Frames.ref)
    (f : gmap string value) (rows : list Row) :
  σ !! df = Some rows ->
  match Frames.filter_data df f σ with
  | Some (l1, σ1) =>
      σ1 !! df = Some rows /\ σ ⊆ σ1 /\ σ1 !! l1 = filter_data rows f
      /\ exists l2 σ2,
           Frames.filter_data df f σ1 = Some (l2, σ2)
           /\ σ2 !! l2 = σ1 !! l1 /\ σ2 !! df = Some rows /\ σ1 ⊆ σ2
  | None => filter_data rows f = None
  end.
Proof.
  intros Hdf. pose proof (filter_data_agrees σ df f rows Hdf) as H1.
  unfold Frames.agrees in H1.
  destruct (Frames.filter_data df f σ) as [[l1 σ1]|];
    destruct (filter_data rows f) as [rows'|] eqn:Hpure; try tauto.
  destruct H1 as [Hl1 Hsub1].
  assert (σ1 !! df = Some rows) as Hdf1 by (eapply lookup_weaken; eassumption).
  repeat split; try assumption.
  pose proof (filter_data_agrees σ1 df f rows Hdf1) as H2.
  unfold Frames.agrees in H2. rewrite Hpure in H2.
  destruct (Frames.filter_data df f σ1) as [[l2 σ2]|]; [|tauto].
  destruct H2 as [Hl2 Hsub2]. exists l2, σ2.
  repeat split; try assumption; [congruence|].
  eapply lookup_weaken; eassumption.
Qed.

Lemma filter_data_pure_witness :
  match Frames.filter_data 0 {["price_max" := VInt 15000; "ram_min" := VInt 6]}
          {[0%nat := sample_catalog]} with
  | Some (l1, σ1) =>
      σ1 !! 0%nat = Some sample_catalog
      /\ σ1 !! l1 = filter_data sample_catalog
                      {["price_max" := VInt 15000; "ram_min" := VInt 6]}
  | None => False
  end.
Proof.
  pose proof (filter_data_pure {[0%nat := sample_catalog]} 0%nat
                {["price_max" := VInt 15000; "ram_min" := VInt 6]}
                sample_catalog eq_refl) as H.
  destruct (Frames.filter_data 0 {["price_max" := VInt 15000; "ram_min" := VInt 6]}
              {[0%nat := sample_catalog]}) as [[l1 σ1]|].
  - split; apply H.
  - discriminate H.
Defined.

(** ** Merging *)

Lemma dict_update_union (d new : gmap string value) : dict_update d new = new ∪ d.
Proof.
  unfold dict_update.
  apply (map_fold_weak_ind (fun r (m : gmap string value) => r = m ∪ d)).
  - now rewrite (left_id_L ∅ (∪)).
  - intros k v m r _ ->. now rewrite insert_union_l.
Qed.

Lemma merge_step_union (current new : gmap string value) :
  merge_step current new = new ∪ current.
Proof.
  unfold merge_step, nonempty. case_bool_decide as Hnew; simpl.
  - subst new. now rewrite (left_id_L ∅ (∪)).
  - apply dict_update_union.
Qed.

Lemma merge_step_lookup (current new : gmap string value) (k : string) :
  merge_step current new !! k
  = match new !! k with
    | Some v => Some v
    | None => current !! k
    end.
Proof.
  rewrite merge_step_union, lookup_union.
  destruct (new !! k), (current !! k); reflexivity.
Qed.

Lemma confirmation_step_filters u st :
  current_filters (snd (confirmation_step u st)) = current_filters st.
Proof.
  unfold confirmation_step.
  destruct (awaiting_confirmation st), (any_in affirmative u), (any_in negative u);
    reflexivity.
Qed.

Lemma dialogue_step_filters u response st :
  current_filters (snd (dialogue_step u response st)) = current_filters st.
Proof.
  unfold dialogue_step.
  destruct (nonblank response); [reflexivity|].
  destruct (any_in greetings u); [reflexivity|].
  destruct (_ || _); [reflexivity|].
  destruct (_ || _); [reflexivity|].
  destruct (negb _); [reflexivity|].
  destruct (next_question (current_filters st)) as [question [|]]; reflexivity.
Qed.

Lemma get_chatbot_response_filters df user_message st :
  snd (fst (fst (get_chatbot_response df user_message st)))
  = merge_step (current_filters st) (extract_filters df user_message)
  /\ current_filters (snd (get_chatbot_response df user_message st))
     = merge_step (current_filters st) (extract_filters df user_message).
Proof.
  unfold get_chatbot_response.
  pose proof (confirmation_step_filters (lower user_message) st) as Hc.
  destruct (confirmation_step (lower user_message) st) as [[response trigger] st1].
  simpl in Hc. rewrite Hc.
  set (st2 := set_filters _ st1).
  destruct (negb trigger && any_in search_commands (lower user_message)).
  - destruct (nonempty (current_filters st2)); split; reflexivity.
  - destruct trigger; [split; reflexivity|].
    pose proof (dialogue_step_filters (lower user_message) response st2) as Hd.
    destruct (dialogue_step (lower user_message) response st2) as [response' st3].
    simpl in *. rewrite Hd. split; reflexivity.
Qed.

(** C2. Merging is a shallow right-biased union: in the merged set a key of
    the new set has the new value and any other key keeps the value of the
    existing set; [get_chatbot_response] returns, and leaves in the session,
    the accumulated set merged with what it extracted from the message. *)
Theorem merge_right_biased (existing new : gmap string value) (k : string)
    (df : list Row) (user_message : string) (st : Session) :
  merge_step existing new !! k
  = match new !! k with
    | Some v => Some v
    | None => existing !! k
    end
  /\ snd (fst (fst (get_chatbot_response df user_message st)))
     = merge_step (current_filters st) (extract_filters df user_message)
  /\ current_filters (snd (get_chatbot_response df user_message st))
     = merge_step (current_filters st) (extract_filters df user_message).
Proof.
  split; [apply merge_step_lookup|apply get_chatbot_response_filters].
Qed.

Example merge_adds_key :
  merge_step {["price_max" := VInt 20000]} {["ram_min" := VInt 8]}
  = {["price_max" := VInt 20000; "ram_min" := VInt 8]}.
Proof. vm_compute. reflexivity. Qed.

Example merge_overwrites_key :
  merge_step {["price_max" := VInt 20000]} {["price_max" := VInt 10000]}
  = {["price_max" := VInt 10000]}.
Proof. vm_compute. reflexivity. Qed.

(** ** Substrings *)

Lemma append_nil (t : string) : "" +:+ t = t.
Proof. reflexivity. Qed.

Lemma append_cons (c : ascii) (s t : string) :
  String c s +:+ t = String c (s +:+ t).
Proof. reflexivity. Qed.

Lemma starts_with_app p s : starts_with p s = true <-> exists t, s = p +:+ t.
Proof.
  revert s. induction p as [|a p IH]; intros s.
  - simpl. split; [intros _; now exists s|reflexivity].
  - destruct s as [|b s]; simpl.
    + split; [discriminate|intros [t Ht]; discriminate].
    + rewrite andb_true_iff, IH. split.
      * intros [Hab [t ->]]. apply Ascii.eqb_eq in Hab as ->. now exists t.
      * intros [t Ht]. rewrite append_cons in Ht. injection Ht as -> ->.
        split; [apply Ascii.eqb_refl|now exists t].
Qed.

Lemma contains_app sub s :
  contains sub s = true <-> exists pre post, s = pre +:+ sub +:+ post.
Proof.
  induction s as [|c s IH]; simpl.
  - rewrite orb_false_r, starts_with_app. split.
    + intros [t Ht]. now exists "", t.
    + intros (pre & post & H). destruct pre; [now exists post|discriminate].
  - rewrite orb_true_iff, starts_with_app, IH. split.
    + intros [[t Ht]|(pre & post & ->)].
      * now exists "", t.
      * now exists (String c pre), post.
    + intros (pre & post & H). destruct pre as [|c' pre].
      * left. now exists post.
      * right. rewrite append_cons in H. injection H as -> ->. now exists pre, post.
Qed.

Lemma string_app_assoc (a b c : string) : (a +:+ b) +:+ c = a +:+ (b +:+ c).
Proof.
  induction a as [|x a IH]; [reflexivity|].
  rewrite !append_cons. f_equal. exact IH.
Qed.

(** Containment is transitive: a text that contains [b] contains every
    substring of [b]. *)
Lemma contains_trans a b c :
  contains a b = true -> contains b c = true -> contains a c = true.
Proof.
  rewrite !contains_app. intros (p1 & q1 & ->) (p2 & q2 & ->).
  exists (p2 +:+ p1), (q1 +:+ q2). now rewrite !string_app_assoc.
Qed.

Lemma any_in_intro k ks s : In k ks -> contains k s = true -> any_in ks s = true.
Proof. intros Hk Hs. unfold any_in. apply List.existsb_exists. eauto. Qed.

(** ** What [extract_filters] leaves in the dictionary *)

Lemma typed_map_well_typed f : typed_map f -> well_typed f = true.
Proof.
  intros H. unfold well_typed. apply List.forallb_forall. intros k _.
  unfold typed_at. destruct (f !! k) eqn:E; [|reflexivity]. exact (H k _ E).
Qed.

Lemma typed_map_insert k v f :
  typed_entry k v = true -> typed_map f -> typed_map (<[k := v]> f).
Proof. intros Hv Hf. now apply map_Forall_insert_2. Qed.

Lemma extract_price_typed q f : typed_map f -> typed_map (extract_price q f).
Proof.
  intros Hf. unfold extract_price, set_int.
  repeat case_match; repeat (apply typed_map_insert; [reflexivity|]); exact Hf.
Qed.

Lemma extract_ram_typed q f : typed_map f -> typed_map (extract_ram q f).
Proof.
  intros Hf. unfold extract_ram, set_int.
  repeat case_match; repeat (apply typed_map_insert; [reflexivity|]); exact Hf.
Qed.

Lemma extract_storage_typed q f : typed_map f -> typed_map (extract_storage q f).
Proof.
  intros Hf. unfold extract_storage, set_int.
  repeat case_match; repeat (apply typed_map_insert; [reflexivity|]); exact Hf.
Qed.

Lemma extract_battery_typed q f : typed_map f -> typed_map (extract_battery q f).
Proof.
  intros Hf. unfold extract_battery, set_int.
  repeat case_match; repeat (apply typed_map_insert; [reflexivity|]); exact Hf.
Qed.

Lemma set_keyword_typed key ks q f :
  typed_entry key (VBool true) = true -> typed_map f ->
  typed_map (set_keyword key ks q f).
Proof.
  intros Hk Hf. unfold set_keyword.
  destruct (any_in ks q); [now apply typed_map_insert|exact Hf].
Qed.

Lemma extract_keywords_typed q f : typed_map f -> typed_map (extract_keywords q f).
Proof.
  intros Hf. unfold extract_keywords.
  repeat (apply set_keyword_typed; [reflexivity|]). exact Hf.
Qed.

Lemma extract_brand_typed bs q f : typed_map f -> typed_map (extract_brand bs q f).
Proof.
  intros Hf. induction bs as [|b bs IH]; simpl; [exact Hf|].
  destruct (brand_matches b q); [|exact IH].
  now apply typed_map_insert.
Qed.

(** Every dictionary [extract_filters] builds is well typed. *)
Lemma extract_filters_well_typed df query :
  well_typed (extract_filters df query) = true.
Proof.
  apply typed_map_well_typed. unfold extract_filters.
  apply extract_brand_typed, extract_keywords_typed, extract_battery_typed,
    extract_storage_typed, extract_ram_typed, extract_price_typed.
  apply map_Forall_empty.
Qed.

Lemma set_keyword_lookup_ne key ks q f k :
  key <> k -> set_keyword key ks q f !! k = f !! k.
Proof.
  intros Hne. unfold set_keyword.
  destruct (any_in ks q); [now rewrite lookup_insert_ne|reflexivity].
Qed.

Lemma set_keyword_lookup_on key ks q f :
  any_in ks q = true -> set_keyword key ks q f !! key = Some (VBool true).
Proof. intros H. unfold set_keyword. rewrite H. apply lookup_insert_eq. Qed.

Lemma extract_brand_lookup_ne bs q f k :
  k <> "brand" -> extract_brand bs q f !! k = f !! k.
Proof.
  intros Hne. induction bs as [|b bs IH]; simpl; [reflexivity|].
  destruct (brand_matches b q); [|exact IH].
  now rewrite lookup_insert_ne.
Qed.

Lemma extract_price_lookup_ne q f k :
  k <> "price_max" -> k <> "price_min" -> extract_price q f !! k = f !! k.
Proof.
  intros H1 H2. unfold extract_price, set_int.
  repeat case_match; rewrite ?lookup_insert_ne by done; reflexivity.
Qed.

Lemma extract_ram_lookup_ne q f k :
  k <> "ram_min" -> extract_ram q f !! k = f !! k.
Proof.
  intros H. unfold extract_ram, set_int.
  repeat case_match; rewrite ?lookup_insert_ne by done; reflexivity.
Qed.

Lemma extract_storage_lookup_ne q f k :
  k <> "storage_min" -> extract_storage q f !! k = f !! k.
Proof.
  intros H. unfold extract_storage, set_int.
  repeat case_match; rewrite ?lookup_insert_ne by done; reflexivity.
Qed.

Lemma extract_battery_lookup_ne q f k :
  k <> "battery_capacity_mah" -> extract_battery q f !! k = f !! k.
Proof.
  intros H. unfold extract_battery, set_int.
  repeat case_match; rewrite ?lookup_insert_ne by done; reflexivity.
Qed.

Lemma In_unique x l : In x (unique l) <-> In x l.
Proof.
  induction l as [|y l IH]; [reflexivity|]. simpl.
  rewrite List.filter_In, IH. split.
  - intros [H|[H _]]; auto.
  - intros [H|H]; [now left|].
    destruct (String.eqb_spec y x) as [E|E]; [now left|right].
    split; [exact H|reflexivity].
Qed.

Lemma In_unique_brands_lower b df :
  In b (unique_brands_lower df) ->
  exists r b0, In r df /\ brand r = Some b0 /\ b = lower b0.
Proof.
  unfold unique_brands_lower. intros H.
  apply List.in_map_iff in H as (b0 & <- & H).
  apply (proj1 (In_unique _ _)) in H.
  apply list_elem_of_In, list_elem_of_omap in H as (r & Hr & Hb).
  apply list_elem_of_In in Hr. eauto.
Qed.

Lemma extract_brand_found bs q f v :
  f !! "brand" = None -> extract_brand bs q f !! "brand" = Some v ->
  exists b, In b bs /\ brand_matches b q = true /\ v = VStr (capitalize b).
Proof.
  intros Hf. induction bs as [|b bs IH]; simpl; [congruence|].
  destruct (brand_matches b q) eqn:E.
  - rewrite lookup_insert_eq. intros H. injection H as <-. eauto.
  - intros H. destruct (IH H) as (b' & Hb' & Hm & Hv). eauto.
Qed.

Lemma before_brand_no_brand q :
  extract_keywords q
    (extract_battery q (extract_storage q (extract_ram q (extract_price q ∅))))
  !! "brand" = None.
Proof.
  unfold extract_keywords. rewrite !set_keyword_lookup_ne by done.
  rewrite extract_battery_lookup_ne, extract_storage_lookup_ne,
    extract_ram_lookup_ne, extract_price_lookup_ne by done.
  apply lookup_empty.
Qed.

(** A brand is extracted only from a catalog that has one. *)
Lemma extract_filters_brand_known df query :
  has_key (extract_filters df query) "brand" = true -> has_str df = true.
Proof.
  unfold has_key. intros H. apply bool_decide_eq_true_1 in H as [v Hv].
  unfold extract_filters in Hv.
  apply extract_brand_found in Hv as (b & Hb & _); [|apply before_brand_no_brand].
  apply In_unique_brands_lower in Hb as (r & b0 & Hr & Hb0 & _).
  now apply (has_str_intro df r b0).
Qed.

(** [filter_data] takes every dictionary [extract_filters] builds from the
    catalog. *)
Lemma extract_filters_accepts df query :
  accepts df (extract_filters df query) = true.
Proof.
  apply accepts_spec. split;
    [apply extract_filters_well_typed|apply extract_filters_brand_known].
Qed.

Lemma extract_filters_camera df query :
  any_in ["camera"; "photo"; "photography"; "photos"; "megapixel"; "mp"]
    (lower query) = true ->
  extract_filters df query !! "keyword_camera" = Some (VBool true).
Proof.
  intros H. unfold extract_filters, extract_keywords.
  rewrite extract_brand_lookup_ne by done.
  rewrite !set_keyword_lookup_ne by done.
  now apply set_keyword_lookup_on.
Qed.

Lemma extract_filters_compact df query :
  any_in ["compact"; "small"] (lower query) = true ->
  extract_filters df query !! "keyword_compact" = Some (VBool true).
Proof.
  intros H. unfold extract_filters, extract_keywords.
  rewrite extract_brand_lookup_ne by done.
  rewrite !set_keyword_lookup_ne by done.
  now apply set_keyword_lookup_on.
Qed.

(** C9. Keywords are found by substring search and "mp" is a camera
    keyword: a query whose lower-cased text contains "compact" gets
    [keyword_camera] with [keyword_compact], and the rows [filter_data]
    returns for the extracted filters all have a back camera >= 48 MP (and a
    screen <= 6.0). *)
Theorem compact_sets_camera (df : list Row) (query : string) :
  contains "compact" (lower query) = true ->
  extract_filters df query !! "keyword_camera" = Some (VBool true)
  /\ extract_filters df query !! "keyword_compact" = Some (VBool true)
  /\ exists rows,
       filter_data df (extract_filters df query) = Some rows
       /\ forall r, In r rows ->
            (48 <= back_camera_mp r)%Q /\ (screen_size_inches r <= 6)%Q.
Proof.
  intros Hc.
  assert (extract_filters df query !! "keyword_camera" = Some (VBool true)) as Hcam.
  { apply extract_filters_camera. apply (any_in_intro "mp"); [simpl; tauto|].
    apply (contains_trans _ "compact"); [reflexivity|exact Hc]. }
  assert (extract_filters df query !! "keyword_compact" = Some (VBool true)) as Hcom.
  { apply extract_filters_compact. apply (any_in_intro "compact"); [simpl; tauto|].
    exact Hc. }
  split; [exact Hcam|split; [exact Hcom|]].
  destruct (filter_data df (extract_filters df query)) as [rows|] eqn:Hrun.
  - exists rows. split; [reflexivity|]. intros r Hr.
    apply (filter_data_In _ _ _ r Hrun) in Hr. destruct Hr as [_ Hr]. split.
    + apply (satisfies_camera _ _ Hr). unfold flag_on. now rewrite Hcam.
    + apply (satisfies_compact _ _ Hr). unfold flag_on. now rewrite Hcom.
  - apply filter_data_raises in Hrun.
    rewrite extract_filters_accepts in Hrun. discriminate.
Qed.

Lemma compact_sets_camera_witness :
  extract_filters sample_catalog "a Compact phone" !! "keyword_camera"
  = Some (VBool true).
Proof.
  apply (compact_sets_camera sample_catalog "a Compact phone"). reflexivity.
Defined.

(** ** The dialogue *)

Lemma nonempty_spec (d : gmap string value) : nonempty d = false <-> d = ∅.
Proof.
  unfold nonempty. case_bool_decide; simpl; split; congruence.
Qed.

Lemma union_empty_r (m1 m2 : gmap string value) : m1 ∪ m2 = ∅ -> m2 = ∅.
Proof.
  intros E. apply map_empty. intros i.
  assert ((m1 ∪ m2) !! i = None) as H by now rewrite E.
  apply lookup_union_None in H. tauto.
Qed.

Lemma nonempty_merge_r current new :
  nonempty current = true -> nonempty (merge_step current new) = true.
Proof.
  intros H. destruct (nonempty (merge_step current new)) eqn:E; [reflexivity|].
  apply nonempty_spec in E. rewrite merge_step_union in E.
  apply union_empty_r in E. apply nonempty_spec in E. congruence.
Qed.

Lemma merge_step_empty current new :
  merge_step current new = ∅ -> current = ∅ /\ new = ∅.
Proof.
  rewrite merge_step_union. intros E. split.
  - now apply union_empty_r in E.
  - now apply map_positive_l in E.
Qed.

Lemma typed_map_merge current new :
  typed_map current -> typed_map new -> typed_map (merge_step current new).
Proof.
  intros Hc Hn k v. rewrite merge_step_lookup.
  destruct (new !! k) eqn:E; intros Hk.
  - injection Hk as <-. exact (Hn k _ E).
  - exact (Hc k _ Hk).
Qed.

Lemma extract_filters_typed df query : typed_map (extract_filters df query).
Proof.
  unfold extract_filters.
  apply extract_brand_typed, extract_keywords_typed, extract_battery_typed,
    extract_storage_typed, extract_ram_typed, extract_price_typed.
  apply map_Forall_empty.
Qed.

(** The search flag [get_chatbot_response] returns. *)
Lemma confirmation_step_trigger u st :
  snd (fst (confirmation_step u st))
  = awaiting_confirmation st && any_in affirmative u.
Proof.
  unfold confirmation_step.
  destruct (awaiting_confirmation st), (any_in affirmative u), (any_in negative u);
    reflexivity.
Qed.

Lemma get_chatbot_response_trigger df user_message st :
  snd (fst (get_chatbot_response df user_message st))
  = (awaiting_confirmation st && any_in affirmative (lower user_message))
    || (any_in search_commands (lower user_message)
        && nonempty (merge_step (current_filters st)
                       (extract_filters df user_message))).
Proof.
  unfold get_chatbot_response.
  pose proof (confirmation_step_filters (lower user_message) st) as Hc.
  pose proof (confirmation_step_trigger (lower user_message) st) as Ht.
  destruct (confirmation_step (lower user_message) st) as [[response trigger] st1].
  cbn [fst snd] in Hc, Ht. rewrite Hc, <- Ht. clear Hc Ht.
  set (st2 := set_filters _ st1).
  change (current_filters st2)
    with (merge_step (current_filters st) (extract_filters df user_message)).
  destruct trigger, (any_in search_commands (lower user_message)); simpl;
    try reflexivity.
  - destruct (nonempty _); reflexivity.
  - destruct (dialogue_step _ _ _); reflexivity.
Qed.

Lemma confirmation_step_awaiting u st :
  awaiting_confirmation (snd (confirmation_step u st))
  = awaiting_confirmation st && negb (any_in affirmative u)
    && negb (any_in negative u).
Proof.
  unfold confirmation_step.
  destruct (awaiting_confirmation st) eqn:E, (any_in affirmative u),
    (any_in negative u); simpl; try reflexivity; exact E.
Qed.

Lemma dialogue_step_awaiting u response st :
  awaiting_confirmation (snd (dialogue_step u response st)) = true ->
  awaiting_confirmation st = true \/ nonempty (current_filters st) = true.
Proof.
  unfold dialogue_step.
  destruct (nonblank response); [simpl; auto|].
  destruct (any_in greetings u); [simpl; auto|].
  destruct (_ || _); [simpl; auto|].
  destruct (_ || _); [simpl; auto|].
  destruct (nonempty (current_filters st)); [auto|]. simpl. auto.
Qed.

(** The confirmation flag is off after a triggered search; it is on only
    with a non-empty accumulated set, or left on from before. *)
Lemma get_chatbot_response_awaiting df user_message st :
  (snd (fst (get_chatbot_response df user_message st)) = true ->
   awaiting_confirmation (snd (get_chatbot_response df user_message st)) = false)
  /\ (awaiting_confirmation (snd (get_chatbot_response df user_message st)) = true ->
      awaiting_confirmation st = true
      \/ nonempty (merge_step (current_filters st)
                     (extract_filters df user_message)) = true).
Proof.
  unfold get_chatbot_response.
  pose proof (confirmation_step_filters (lower user_message) st) as Hc.
  pose proof (confirmation_step_trigger (lower user_message) st) as Ht.
  pose proof (confirmation_step_awaiting (lower user_message) st) as Ha.
  destruct (confirmation_step (lower user_message) st) as [[response trigger] st1].
  cbn [fst snd] in Hc, Ht, Ha. rewrite Hc.
  set (merged := merge_step _ _).
  set (st2 := set_filters merged st1).
  assert (awaiting_confirmation st2 = true -> awaiting_confirmation st = true) as H2.
  { unfold st2. simpl. rewrite Ha. intros H.
    apply andb_true_iff in H as [H _]. apply andb_true_iff in H as [H _]. exact H. }
  assert (trigger = true -> awaiting_confirmation st2 = false) as H3.
  { unfold st2. simpl. rewrite Ha, Ht. intros H.
    apply andb_true_iff in H as [-> ->]. reflexivity. }
  change (current_filters st2) with merged.
  destruct trigger, (any_in search_commands (lower user_message)); simpl.
  - split; auto.
  - split; auto.
  - destruct (nonempty merged); simpl; split; auto; discriminate.
  - pose proof (dialogue_step_awaiting (lower user_message) response st2) as Hd.
    destruct (dialogue_step (lower user_message) response st2) as [response' st3].
    cbn [fst snd] in *. split; [discriminate|].
    intros H. destruct (Hd H) as [H'|H']; [left; auto|right; exact H'].
Qed.

Lemma confirmation_step_results u st :
  filtered_df (snd (confirmation_step u st)) = filtered_df st.
Proof.
  unfold confirmation_step.
  destruct (awaiting_confirmation st), (any_in affirmative u), (any_in negative u);
    reflexivity.
Qed.

Lemma dialogue_step_results u response st :
  filtered_df (snd (dialogue_step u response st)) = filtered_df st.
Proof.
  unfold dialogue_step.
  destruct (nonblank response); [reflexivity|].
  destruct (any_in greetings u); [reflexivity|].
  destruct (_ || _); [reflexivity|].
  destruct (_ || _); [reflexivity|].
  destruct (negb _); [reflexivity|].
  destruct (next_question (current_filters st)) as [question [|]]; reflexivity.
Qed.

Lemma get_chatbot_response_results df user_message st :
  filtered_df (snd (get_chatbot_response df user_message st)) = filtered_df st.
Proof.
  unfold get_chatbot_response.
  pose proof (confirmation_step_results (lower user_message) st) as Hc.
  destruct (confirmation_step (lower user_message) st) as [[response trigger] st1].
  cbn [fst snd] in Hc.
  set (st2 := set_filters _ st1).
  change (filtered_df st) with (filtered_df st) in *.
  assert (filtered_df st2 = filtered_df st) as H2 by exact Hc.
  destruct (negb trigger && any_in search_commands (lower user_message)).
  - destruct (nonempty (current_filters st2)); exact H2.
  - destruct trigger; [exact H2|].
    pose proof (dialogue_step_results (lower user_message) response st2) as Hd.
    destruct (dialogue_step (lower user_message) response st2) as [response' st3].
    cbn [fst snd] in *. congruence.
Qed.

(** What one chat turn does to the session. *)
Lemma chat_turn_spec df prompt st :
  let out := get_chatbot_response df prompt (say (user_says prompt) st) in
  let merged := merge_step (current_filters st) (extract_filters df prompt) in
  if snd (fst out) then
    match filter_data df merged with
    | Some rows =>
        exists st', chat_turn df prompt st = Some st'
                    /\ filtered_df st' = rows
                    /\ current_filters st' = ∅
                    /\ awaiting_confirmation st' = false
    | None => chat_turn df prompt st = None
    end
  else
    exists st', chat_turn df prompt st = Some st'
                /\ filtered_df st' = filtered_df st
                /\ current_filters st' = merged
                /\ awaiting_confirmation st'
                   = awaiting_confirmation (snd out).
Proof.
  intros out merged. unfold chat_turn.
  pose proof (get_chatbot_response_filters df prompt (say (user_says prompt) st))
    as [Hf1 Hf2].
  pose proof (get_chatbot_response_results df prompt (say (user_says prompt) st))
    as Hr.
  pose proof (get_chatbot_response_awaiting df prompt (say (user_says prompt) st))
    as [Ha _].
  fold out in Hf1, Hf2, Hr, Ha |- *.
  change (current_filters (say (user_says prompt) st)) with (current_filters st)
    in Hf1, Hf2.
  fold merged in Hf1, Hf2.
  destruct out as [[[response updated] trigger] st1]. cbn [fst snd] in *.
  subst updated.
  destruct trigger.
  - specialize (Ha eq_refl).
    destruct (negb (contains "Understood! Searching for" response)); simpl;
      (destruct (filter_data df merged) as [[|r rows]|]; simpl;
       [eexists; repeat split; simpl; auto ..|reflexivity]).
  - destruct (negb (contains "Understood! Searching for" response)); simpl;
      eexists; repeat split; simpl; auto.
Qed.

Lemma session_ok_initial : session_ok initial_session.
Proof. split; [apply map_Forall_empty|discriminate]. Qed.

Lemma session_ok_cleared st :
  current_filters st = ∅ -> awaiting_confirmation st = false -> session_ok st.
Proof.
  intros Hf Ha. split; [rewrite Hf; apply map_Forall_empty|].
  rewrite Ha. discriminate.
Qed.

Lemma session_ok_show st : session_ok st -> session_ok (display_results st).
Proof.
  intros Hok. unfold display_results.
  destruct (filtered_df st); [|now apply session_ok_cleared].
  destruct (existsb _ _); exact Hok.
Qed.

Lemma session_ok_turn df prompt st st' :
  session_ok st -> chat_turn df prompt st = Some st' -> session_ok st'.
Proof.
  intros [Htyped Hpending] Hturn.
  pose proof (chat_turn_spec df prompt st) as Hspec. cbn zeta in Hspec.
  pose proof (get_chatbot_response_awaiting df prompt (say (user_says prompt) st))
    as [_ Ha].
  change (current_filters (say (user_says prompt) st)) with (current_filters st) in Ha.
  change (awaiting_confirmation (say (user_says prompt) st))
    with (awaiting_confirmation st) in Ha.
  destruct (snd (fst (get_chatbot_response df prompt (say (user_says prompt) st)))).
  - destruct (filter_data df _); [|congruence].
    destruct Hspec as (st1 & Hst1 & _ & Hf & Haw).
    assert (st' = st1) as -> by congruence. now apply session_ok_cleared.
  - destruct Hspec as (st1 & Hst1 & _ & Hf & Haw).
    assert (st' = st1) as -> by congruence. split.
    + rewrite Hf. apply typed_map_merge; [exact Htyped|apply extract_filters_typed].
    + rewrite Hf, Haw. intros H. destruct (Ha H) as [H'|H']; [|exact H'].
      apply nonempty_merge_r, Hpending, H'.
Qed.

Lemma reachable_ok df st : reachable df st -> session_ok st.
Proof.
  induction 1 as [|st m _ IH|st query rows _ IH _|st _ IH|st prompt st' _ IH Hturn|st _ _].
  - apply session_ok_initial.
  - exact IH.
  - exact IH.
  - now apply session_ok_show.
  - eapply session_ok_turn; eassumption.
  - apply session_ok_initial.
Qed.

Lemma has_key_empty k : has_key ∅ k = false.
Proof.
  unfold has_key. apply bool_decide_eq_false_2. rewrite lookup_empty.
  intros [v Hv]. discriminate.
Qed.

Lemma has_key_merge_step current new k :
  has_key (merge_step current new) k = has_key new k || has_key current k.
Proof.
  unfold has_key. rewrite merge_step_lookup.
  destruct (new !! k) as [v|], (current !! k) as [w|]; simpl;
    repeat case_bool_decide; simpl; try reflexivity;
    match goal with
    | H : ¬ is_Some (Some _) |- _ => destruct H; eauto
    | H : is_Some None |- _ => destruct H; discriminate
    end.
Qed.

(** The accumulated filters ask for a brand only when the catalog has one:
    the brand comes from [extract_filters]. *)
Lemma brand_known_turn df prompt st st' :
  (has_key (current_filters st) "brand" = true -> has_str df = true) ->
  chat_turn df prompt st = Some st' ->
  has_key (current_filters st') "brand" = true -> has_str df = true.
Proof.
  intros Hst Hturn.
  pose proof (chat_turn_spec df prompt st) as Hspec. cbn zeta in Hspec.
  destruct (snd (fst (get_chatbot_response df prompt (say (user_says prompt) st)))).
  - destruct (filter_data df _); [|congruence].
    destruct Hspec as (st1 & Hst1 & _ & Hf & _).
    assert (st' = st1) as -> by congruence.
    rewrite Hf, has_key_empty. discriminate.
  - destruct Hspec as (st1 & Hst1 & _ & Hf & _).
    assert (st' = st1) as -> by congruence.
    rewrite Hf, has_key_merge_step. intros H.
    apply orb_true_iff in H as [H|H];
      [now apply (extract_filters_brand_known df prompt)|now apply Hst].
Qed.

Lemma reachable_brand_known df st :
  reachable df st ->
  has_key (current_filters st) "brand" = true -> has_str df = true.
Proof.
  induction 1 as [|st m _ IH|st query rows _ IH _|st _ IH|st prompt st' _ IH Hturn|st _ _].
  - simpl. rewrite has_key_empty. discriminate.
  - exact IH.
  - exact IH.
  - unfold display_results. destruct (filtered_df st).
    + destruct (existsb _ _); exact IH.
    + simpl. rewrite has_key_empty. discriminate.
  - eapply brand_known_turn; eassumption.
  - simpl. rewrite has_key_empty. discriminate.
Qed.

(** In a session that can occur, the filters of a chat turn are filters
    [filter_data] accepts. *)
Lemma reachable_accepts df prompt st :
  reachable df st ->
  accepts df (merge_step (current_filters st) (extract_filters df prompt)) = true.
Proof.
  intros Hreach. apply accepts_spec. split.
  - apply reachable_ok in Hreach as [Htyped _].
    apply typed_map_well_typed, typed_map_merge;
      [exact Htyped|apply extract_filters_typed].
  - rewrite has_key_merge_step. intros H.
    apply orb_true_iff in H as [H|H];
      [now apply (extract_filters_brand_known df prompt)
      |now apply (reachable_brand_known df st)].
Qed.

(** In a session that can occur, a chat turn never raises. *)
Lemma chat_turn_total df prompt st :
  reachable df st -> exists st', chat_turn df prompt st = Some st'.
Proof.
  intros Hreach. pose proof (reachable_accepts df prompt st Hreach) as Hacc.
  pose proof (chat_turn_spec df prompt st) as Hspec. cbn zeta in Hspec.
  destruct (snd (fst _)).
  - destruct (filter_data df _) eqn:Hrun.
    + destruct Hspec as (st' & H & _). eauto.
    + apply filter_data_raises in Hrun. congruence.
  - destruct Hspec as (st' & H & _). eauto.
Qed.

(** C3. While a confirmation is pending, a reply containing an affirmative
    keyword triggers a search: [get_chatbot_response] returns
    [trigger_search = True], the chat turn runs [filter_data] on the
    accumulated filters (merged with those of the reply) and stores its
    rows, and after it the accumulated set is empty and the confirmation
    flag false.  (Were [filter_data] to raise, the turn would raise; in a
    session that can occur it does not.) *)
Theorem confirmed_search_resets (df : list Row) (prompt : string) (st : Session) :
  awaiting_confirmation st = true ->
  any_in affirmative (lower prompt) = true ->
  snd (fst (get_chatbot_response df prompt (say (user_says prompt) st))) = true
  /\ match filter_data df (merge_step (current_filters st)
                             (extract_filters df prompt)) with
     | Some rows =>
         exists st', chat_turn df prompt st = Some st'
                     /\ filtered_df st' = rows
                     /\ current_filters st' = ∅
                     /\ awaiting_confirmation st' = false
                     /\ current_filters (display_results st') = ∅
                     /\ awaiting_confirmation (display_results st') = false
     | None => chat_turn df prompt st = None /\ ~ reachable df st
     end.
Proof.
  intros Haw Haff.
  assert (snd (fst (get_chatbot_response df prompt (say (user_says prompt) st)))
          = true) as Htrig.
  { rewrite get_chatbot_response_trigger. simpl awaiting_confirmation.
    now rewrite Haw, Haff. }
  split; [exact Htrig|].
  pose proof (chat_turn_spec df prompt st) as Hspec. cbn zeta in Hspec.
  rewrite Htrig in Hspec.
  destruct (filter_data df _) as [rows|] eqn:Hrun.
  - destruct Hspec as (st' & Hturn & Hrows & Hf & Ha).
    exists st'. repeat split; try assumption.
    + unfold display_results. destruct (filtered_df st'); [|reflexivity].
      destruct (existsb _ _); exact Hf.
    + unfold display_results. destruct (filtered_df st'); [|reflexivity].
      destruct (existsb _ _); exact Ha.
  - split; [exact Hspec|]. intros Hreach.
    destruct (chat_turn_total df prompt st Hreach) as [st' Hst']. congruence.
Qed.

Lemma confirmed_search_resets_witness :
  exists st',
    chat_turn sample_catalog "yes" sample_pending = Some st'
    /\ current_filters st' = ∅ /\ awaiting_confirmation st' = false.
Proof.
  destruct (confirmed_search_resets sample_catalog "yes" sample_pending
              eq_refl eq_refl) as [_ H].
  destruct (filter_data sample_catalog
              (merge_step (current_filters sample_pending)
                 (extract_filters sample_catalog "yes"))) as [rows|] eqn:E.
  - destruct H as (st' & H1 & _ & H2 & H3 & _). exists st'. auto.
  - exfalso. vm_compute in E. discriminate E.
Defined.

(** C5. In every session that can occur, for a message containing an
    explicit search command, [get_chatbot_response] triggers a search
    exactly when the accumulated filters, merged with those of the message,
    are not the empty dictionary.  When they are empty the response is the
    request for criteria, no search is triggered, the filters are returned
    as they were (empty), the session is unchanged, and the chat turn leaves
    the result buffer alone. *)
Theorem search_command_needs_criteria (df : list Row) (msg : string) (st : Session) :
  reachable df st ->
  any_in search_commands (lower msg) = true ->
  (snd (fst (get_chatbot_response df msg st)) = true
   <-> merge_step (current_filters st) (extract_filters df msg) <> ∅)
  /\ snd (fst (fst (get_chatbot_response df msg st)))
     = merge_step (current_filters st) (extract_filters df msg)
  /\ (merge_step (current_filters st) (extract_filters df msg) = ∅ ->
      get_chatbot_response df msg st = ((need_criteria_text, ∅, false), st)
      /\ current_filters st = ∅
      /\ exists st', chat_turn df msg st = Some st'
                     /\ filtered_df st' = filtered_df st
                     /\ current_filters st' = ∅
                     /\ awaiting_confirmation st' = false).
Proof.
  intros Hreach Hcmd.
  destruct (reachable_ok df st Hreach) as [_ Hpending].
  set (merged := merge_step (current_filters st) (extract_filters df msg)).
  assert (awaiting_confirmation st = true -> nonempty merged = true) as Hp
    by (intros H; apply nonempty_merge_r, Hpending, H).
  split; [|split].
  - assert (snd (fst (get_chatbot_response df msg st)) = nonempty merged) as ->.
    { rewrite get_chatbot_response_trigger, Hcmd. fold merged.
      destruct (awaiting_confirmation st); [rewrite Hp by reflexivity|];
        destruct (any_in affirmative (lower msg)), (nonempty merged); reflexivity. }
    pose proof (nonempty_spec merged) as Hspec.
    destruct (nonempty merged); split; try discriminate; try reflexivity.
    + intros _ H. apply Hspec in H. discriminate.
    + intros H. destruct H. now apply Hspec.
  - apply get_chatbot_response_filters.
  - intros Hempty.
    assert (nonempty merged = false) as Hne by now apply nonempty_spec.
    assert (awaiting_confirmation st = false) as Haw.
    { destruct (awaiting_confirmation st); [|reflexivity].
      rewrite Hp in Hne by reflexivity. discriminate. }
    destruct (merge_step_empty _ _ Hempty) as [Hcur Hnew].
    assert (get_chatbot_response df msg st = (need_criteria_text, ∅, false, st)) as Hout.
    { unfold get_chatbot_response, confirmation_step. rewrite Haw, Hcmd.
      fold merged. simpl. fold merged. rewrite Hne, Hempty.
      destruct st as [aw msgs cf rows]. simpl in Hcur. subst cf. reflexivity. }
    split; [exact Hout|split; [exact Hcur|]].
    pose proof (chat_turn_spec df msg st) as Hspec. cbn zeta in Hspec.
    rewrite get_chatbot_response_trigger in Hspec.
    change (current_filters (say (user_says msg) st)) with (current_filters st) in Hspec.
    change (awaiting_confirmation (say (user_says msg) st))
      with (awaiting_confirmation st) in Hspec.
    fold merged in Hspec. rewrite Haw, Hne, andb_false_r in Hspec.
    cbn [andb orb] in Hspec.
    destruct Hspec as (st' & Hturn & Hrows & Hf & Ha).
    exists st'. repeat split; try assumption; [congruence|].
    rewrite Ha.
    pose proof (get_chatbot_response_awaiting df msg (say (user_says msg) st))
      as [_ Hb].
    change (current_filters (say (user_says msg) st)) with (current_filters st) in Hb.
    change (awaiting_confirmation (say (user_says msg) st))
      with (awaiting_confirmation st) in Hb.
    fold merged in Hb.
    destruct (awaiting_confirmation (snd _)); [|reflexivity].
    destruct (Hb eq_refl); congruence.
Qed.

Lemma search_command_needs_criteria_witness :
  snd (fst (get_chatbot_response sample_catalog "show me phones under 9000"
              initial_session)) = true
  /\ get_chatbot_response sample_catalog "search" initial_session
     = ((need_criteria_text, ∅, false), initial_session).
Proof.
  split.
  - apply (search_command_needs_criteria sample_catalog
             "show me phones under 9000" initial_session
             (reach_initial sample_catalog) eq_refl).
    intros H. apply (f_equal (fun d => d !! "price_max")) in H.
    vm_compute in H. discriminate H.
  - apply (search_command_needs_criteria sample_catalog "search" initial_session
             (reach_initial sample_catalog) eq_refl).
    vm_compute. reflexivity.
Defined.

(** ** Which stage of [extract_filters] decides which key *)

Lemma extract_keywords_lookup_numeric q f k :
  In k numeric_keys -> extract_keywords q f !! k = f !! k.
Proof.
  intros Hk. unfold extract_keywords.
  simpl in Hk.
  destruct Hk as [<-|[<-|[<-|[<-|[<-|[]]]]]];
    rewrite !set_keyword_lookup_ne by done; reflexivity.
Qed.

Lemma extract_filters_price df query k :
  k = "price_max" \/ k = "price_min" ->
  extract_filters df query !! k = extract_price (lower query) ∅ !! k.
Proof.
  intros Hk. unfold extract_filters.
  rewrite extract_brand_lookup_ne by (destruct Hk; subst; done).
  rewrite extract_keywords_lookup_numeric by (simpl; destruct Hk; subst; tauto).
  rewrite extract_battery_lookup_ne by (destruct Hk; subst; done).
  rewrite extract_storage_lookup_ne by (destruct Hk; subst; done).
  rewrite extract_ram_lookup_ne by (destruct Hk; subst; done).
  reflexivity.
Qed.

Lemma extract_filters_ram df query :
  extract_filters df query !! "ram_min"
  = extract_ram (lower query) (extract_price (lower query) ∅) !! "ram_min".
Proof.
  unfold extract_filters.
  rewrite extract_brand_lookup_ne by done.
  rewrite extract_keywords_lookup_numeric by (simpl; tauto).
  rewrite extract_battery_lookup_ne by done.
  rewrite extract_storage_lookup_ne by done.
  reflexivity.
Qed.

Lemma extract_filters_storage df query :
  extract_filters df query !! "storage_min"
  = extract_storage (lower query)
      (extract_ram (lower query) (extract_price (lower query) ∅)) !! "storage_min".
Proof.
  unfold extract_filters.
  rewrite extract_brand_lookup_ne by done.
  rewrite extract_keywords_lookup_numeric by (simpl; tauto).
  rewrite extract_battery_lookup_ne by done.
  reflexivity.
Qed.

(** C6 as stated fails: an utterance with "under ₹5000" and an "over" phrase
    gets a [price_min]; one with "under ₹20000" and a range gets the upper
    end of the range as [price_max]. *)
Lemma under_price_not_alone :
  contains "under ₹5000" (lower "under ₹5000 and over ₹1000") = true
  /\ extract_filters sample_catalog "under ₹5000 and over ₹1000" !! "price_min"
     = Some (VInt 1000)
  /\ contains "under ₹20000" (lower "under ₹20000, say ₹5000 to ₹8000") = true
  /\ extract_filters sample_catalog "under ₹20000, say ₹5000 to ₹8000" !! "price_max"
     = Some (VInt 8000).
Proof. vm_compute. repeat split. Qed.

(** With only the "under" pattern matching, the price stage leaves
    [price_max] and nothing else. *)
Lemma extract_price_max_only (df : list Row) (query : string) (m : caps) :
  search price_max_re (lower query) = Some m ->
  search price_range_re (lower query) = None ->
  search price_min_re (lower query) = None ->
  search around_price_re (lower query) = None ->
  extract_filters df query !! "price_max" = Some (VInt (int (group m 1)))
  /\ extract_filters df query !! "price_min" = None.
Proof.
  intros Hmax Hrange Hmin Haround.
  rewrite !extract_filters_price by auto.
  unfold extract_price, set_int. rewrite Hmax, Hrange, Hmin, Haround.
  split; [apply lookup_insert_eq|].
  now rewrite lookup_insert_ne.
Qed.

(** ** The matcher: equations and the two "N gb" patterns *)

Lemma run_Cat r1 r2 s g :
  run (Cat r1 r2) s g = flat_map (fun x => run r2 (fst x) (snd x)) (run r1 s g).
Proof. reflexivity. Qed.

Lemma run_Or r1 r2 s g : run (Or r1 r2) s g = run r1 s g ++ run r2 s g.
Proof. reflexivity. Qed.

Lemma run_NotAhead r s g :
  run (NotAhead r) s g = match run r s g with [] => [(s, g)] | _ :: _ => [] end.
Proof. reflexivity. Qed.

Lemma flat_map_app_nil {A B} (f1 f2 : A -> list B) (l : list A) :
  flat_map (fun x => f1 x ++ f2 x) l = []
  <-> flat_map f1 l = [] /\ flat_map f2 l = [].
Proof.
  induction l as [|x l IH]; simpl; [tauto|].
  split.
  - intros H. apply app_eq_nil in H as [H1 H2]. apply app_eq_nil in H1 as [-> ->].
    apply IH in H2 as [-> ->]. auto.
  - intros [H1 H2]. apply app_eq_nil in H1 as [-> H1]. apply app_eq_nil in H2 as [-> H2].
    simpl. apply IH. auto.
Qed.

(** Where "N gb" is not followed by "storage" or "rom", the look-ahead of
    the ambiguous RAM pattern lets every match of [(\d+)\s*gb] through. *)
Lemma run_ram_ambiguous s g :
  run storage_explicit_re s g = [] -> run ram_ambiguous_re s g = run gb_re s g.
Proof.
  unfold storage_explicit_re, ram_ambiguous_re. rewrite !run_Cat.
  generalize (run gb_re s g). intros L.
  induction L as [|x L IH]; [reflexivity|].
  cbn [flat_map]. intros H. apply app_eq_nil in H as [Hx HL].
  rewrite (IH HL). rewrite run_NotAhead.
  assert (run (Cat spaces (Or (Str "storage") (Str "rom"))) (fst x) (snd x) = [])
    as ->.
  { rewrite run_Cat.
    rewrite (List.flat_map_ext _
               (fun y => run (Str "storage") (fst y) (snd y)
                         ++ run (Str "rom") (fst y) (snd y)))
      by (intros y; apply run_Or).
    apply flat_map_app_nil. rewrite run_Or, !run_Cat in Hx.
    apply app_eq_nil in Hx. exact Hx. }
  destruct x; reflexivity.
Qed.

Lemma match_at_ram_ambiguous s :
  match_at storage_explicit_re s = None ->
  match_at ram_ambiguous_re s = match_at gb_re s.
Proof.
  unfold match_at. intros H.
  rewrite run_ram_ambiguous; [reflexivity|].
  destruct (run storage_explicit_re s []); [reflexivity|discriminate].
Qed.

Lemma search_ram_ambiguous s :
  search storage_explicit_re s = None ->
  search ram_ambiguous_re s = search gb_re s.
Proof.
  induction s as [|c s IH]; cbn [search]; intros H.
  - destruct (match_at storage_explicit_re "") eqn:E; [discriminate|].
    now rewrite match_at_ram_ambiguous.
  - destruct (match_at storage_explicit_re (String c s)) eqn:E; [discriminate|].
    rewrite match_at_ram_ambiguous by exact E.
    destruct (match_at gb_re (String c s)); [reflexivity|]. apply IH, H.
Qed.

(** The extractions listed among the testable properties. *)
Example extract_6gb :
  extract_filters sample_catalog "6gb" = {["ram_min" := VInt 6]}.
Proof. vm_compute. reflexivity. Qed.

Example extract_8gb_ram :
  extract_filters sample_catalog "8gb ram" = {["ram_min" := VInt 8]}.
Proof. vm_compute. reflexivity. Qed.

Example extract_128gb_storage :
  extract_filters sample_catalog "128gb storage" = {["storage_min" := VInt 128]}.
Proof. vm_compute. reflexivity. Qed.

Example extract_ram_and_storage :
  extract_filters sample_catalog "8gb ram and 128gb storage"
  = {["ram_min" := VInt 8; "storage_min" := VInt 128]}.
Proof. vm_compute. reflexivity. Qed.

Example extract_range :
  extract_filters sample_catalog "₹10000 to ₹20000"
  = {["price_min" := VInt 10000; "price_max" := VInt 20000]}.
Proof. vm_compute. reflexivity. Qed.

Example extract_around :
  extract_filters sample_catalog "Around 15000"
  = {["price_min" := VInt 13000; "price_max" := VInt 17000]}.
Proof. vm_compute. reflexivity. Qed.

Example extract_everything :
  extract_filters sample_catalog
    "Samsung gaming phone under ₹30000 with 8GB RAM, 128 GB storage and 5000mAh"
  = {["price_max" := VInt 30000; "ram_min" := VInt 8; "storage_min" := VInt 128;
      "battery_capacity_mah" := VInt 5000; "keyword_gaming" := VBool true;
      "brand" := VStr "Samsung"]}.
Proof. vm_compute. reflexivity. Qed.

(** ** The matcher on text: repetition, literals, digits *)

(** The bound on the rounds of a repetition is immaterial once it exceeds
    the length of the text. *)
Lemma many_fuel step n m s g :
  (String.length s < n)%nat -> (String.length s < m)%nat ->
  many step n s g = many step m s g.
Proof.
  revert m s g. induction n as [|n IH]; intros m s g Hn Hm; [lia|].
  destruct m as [|m]; [lia|]. simpl. f_equal.
  apply List.flat_map_ext. intros x.
  destruct (Nat.ltb_spec (String.length (fst x)) (String.length s));
    [apply IH; lia|reflexivity].
Qed.

Lemma many_S step n s g :
  many step (S n) s g
  = flat_map (fun x => if (String.length (fst x) <? String.length s)%nat
                       then many step n (fst x) (snd x) else [])
      (step s g)
    ++ [(s, g)].
Proof. reflexivity. Qed.

Lemma run_Many r s g : run (Many r) s g = many (run r) (S (String.length s)) s g.
Proof. reflexivity. Qed.

Lemma run_many_class_stop p s g :
  head_is p s = false -> run (Many (Class p)) s g = [(s, g)].
Proof.
  intros H. rewrite run_Many, many_S.
  destruct s as [|c s]; [reflexivity|].
  simpl in H. cbn [run]. now rewrite H.
Qed.

Lemma run_many_class_cons p c s g :
  p c = true ->
  run (Many (Class p)) (String c s) g
  = run (Many (Class p)) s g ++ [(String c s, g)].
Proof.
  intros H. rewrite (run_Many _ (String c s)), many_S.
  cbn [run]. rewrite H. cbn [flat_map fst snd].
  rewrite (proj2 (Nat.ltb_lt _ _)) by (simpl; lia).
  rewrite app_nil_r. reflexivity.
Qed.

(** Greedy repetition of a class over a run of its characters: the first
    way takes the whole run. *)
Lemma run_many_class_run p ds rest g :
  all_chars p ds = true -> head_is p rest = false ->
  exists tl, run (Many (Class p)) (ds +:+ rest) g = (rest, g) :: tl.
Proof.
  intros Hds Hrest. induction ds as [|c ds IH].
  - exists []. rewrite append_nil. now apply run_many_class_stop.
  - simpl in Hds. apply andb_true_iff in Hds as [Hc Hds].
    destruct (IH Hds) as [tl Htl].
    rewrite append_cons, run_many_class_cons, Htl by exact Hc.
    eexists. reflexivity.
Qed.

(** Every way a repetition of a class matches leaves a rest of the text
    that the class does not start, or everything. *)
Lemma run_many_class_rests p ds g x :
  all_chars p ds = true -> In x (run (Many (Class p)) ds g) ->
  all_chars p (fst x) = true /\ snd x = g.
Proof.
  revert x. induction ds as [|c ds IH]; intros x Hds Hx.
  - rewrite run_many_class_stop in Hx by reflexivity.
    destruct Hx as [<-|[]]. auto.
  - pose proof Hds as Hds'. simpl in Hds'. apply andb_true_iff in Hds' as [Hc Hds'].
    rewrite run_many_class_cons in Hx by exact Hc.
    apply in_app_or in Hx as [Hx|[<-|[]]]; [now apply IH|auto].
Qed.

Lemma substring_prefix a b : substring 0 (String.length a) (a +:+ b) = a.
Proof.
  induction a as [|c a IH]; [destruct b; reflexivity|].
  rewrite append_cons. simpl. now rewrite IH.
Qed.

Lemma length_append a b :
  String.length (a +:+ b) = (String.length a + String.length b)%nat.
Proof.
  induction a as [|c a IH]; [reflexivity|].
  rewrite append_cons. simpl. now rewrite IH.
Qed.

Lemma consumed_app a b : consumed (a +:+ b) b = a.
Proof.
  unfold consumed. rewrite length_append.
  replace (String.length a + String.length b - String.length b)%nat
    with (String.length a) by lia.
  apply substring_prefix.
Qed.

(** A literal matches its own text and nothing that does not start with it. *)
Lemma run_Str_app p s g : run (Str p) (p +:+ s) g = [(s, g)].
Proof.
  revert g. induction p as [|c p IH]; intros g; [reflexivity|].
  rewrite append_cons. cbn [Str]. rewrite run_Cat. cbn [run].
  rewrite Ascii.eqb_refl. cbn [flat_map fst snd]. rewrite IH. reflexivity.
Qed.

Lemma run_Str_none p s g : starts_with p s = false -> run (Str p) s g = [].
Proof.
  revert s g. induction p as [|c p IH]; intros s g H; [discriminate|].
  cbn [Str]. rewrite run_Cat. cbn [run].
  destruct s as [|c' s]; [reflexivity|]. simpl in H.
  destruct (Ascii.eqb c c'); [|reflexivity].
  cbn [flat_map fst snd]. rewrite IH by exact H. reflexivity.
Qed.

Lemma run_Group i r s g :
  run (Group i r) s g
  = List.map (fun x => (fst x, (i, consumed s (fst x)) :: snd x)) (run r s g).
Proof. reflexivity. Qed.

Lemma leads_Cat r1 r2 s g x y :
  leads r1 s g x -> leads r2 (fst x) (snd x) y -> leads (Cat r1 r2) s g y.
Proof.
  intros [tl1 H1] [tl2 H2]. unfold leads. rewrite run_Cat, H1.
  cbn [flat_map]. rewrite H2. eexists. reflexivity.
Qed.

Lemma leads_Or_l r1 r2 s g x : leads r1 s g x -> leads (Or r1 r2) s g x.
Proof.
  intros [tl H]. unfold leads. rewrite run_Or, H. eexists. reflexivity.
Qed.

Lemma leads_Str p s g : leads (Str p) (p +:+ s) g (s, g).
Proof. exists []. apply run_Str_app. Qed.

Lemma leads_Empty s g : leads Empty s g (s, g).
Proof. exists []. reflexivity. Qed.

Lemma leads_many_class p ds rest g :
  all_chars p ds = true -> head_is p rest = false ->
  leads (Many (Class p)) (ds +:+ rest) g (rest, g).
Proof. apply run_many_class_run. Qed.

Lemma leads_match_at r s x : leads r s [] x -> match_at r s = Some (snd x).
Proof. intros [tl H]. unfold match_at. now rewrite H. Qed.

Lemma search_here r s m : match_at r s = Some m -> search r s = Some m.
Proof. intros H. destruct s; cbn [search]; now rewrite H. Qed.

Lemma digit_not_space c : is_digit c = true -> is_space c = false.
Proof.
  destruct c as [[|] [|] [|] [|] [|] [|] [|] [|]]; try reflexivity; discriminate.
Qed.

(** [(\d+)] first takes all the digits in front of it. *)
Lemma leads_group_digits i c ds rest g :
  is_digit c = true -> all_chars is_digit ds = true ->
  head_is is_digit rest = false ->
  leads (Group i digits) (String c ds +:+ rest) g (rest, (i, String c ds) :: g).
Proof.
  intros Hc Hds Hrest.
  destruct (run_many_class_run is_digit ds rest g Hds Hrest) as [tl Htl].
  unfold leads. rewrite run_Group. unfold digits, Some1.
  rewrite run_Cat, append_cons.
  change (run (Class is_digit) (String c (ds +:+ rest)) g)
    with (if is_digit c then [(ds +:+ rest, g)] else []).
  rewrite Hc. cbn [flat_map fst snd].
  rewrite Htl. cbn [List.map app fst snd].
  rewrite <- append_cons, consumed_app. eexists. reflexivity.
Qed.

(** The text "under ₹" followed by a number, and then no digit, is matched
    by the price-maximum pattern from its start, the digits captured. *)
Lemma search_under_rupee c ds rest :
  is_digit c = true -> all_chars is_digit ds = true ->
  head_is is_digit rest = false ->
  search price_max_re ("under ₹" +:+ String c ds +:+ rest)
  = Some [(1%nat, String c ds)].
Proof.
  intros Hc Hds Hrest. apply search_here.
  apply (leads_match_at _ _ (rest, [(1%nat, String c ds)])).
  unfold price_max_re.
  eapply leads_Cat; [eapply leads_Cat; [eapply leads_Cat; [eapply leads_Cat|]|]|].
  - do 2 apply leads_Or_l.
    apply (leads_Str "under" (" ₹" +:+ String c ds +:+ rest)).
  - apply (leads_many_class is_space " " ("₹" +:+ String c ds +:+ rest));
      reflexivity.
  - apply leads_Or_l. apply (leads_Str rupee).
  - cbn [fst snd]. apply (leads_many_class is_space "" (String c ds +:+ rest));
      [reflexivity|]. rewrite append_cons. simpl. now apply digit_not_space.
  - cbn [fst snd]. now apply leads_group_digits.
Qed.

(** ** Utterances the other price patterns do not match *)

Lemma run_Cat_nil r1 r2 s g : run r1 s g = [] -> run (Cat r1 r2) s g = [].
Proof. intros H. now rewrite run_Cat, H. Qed.

Lemma flat_map_nil_all {A B} (f : A -> list B) (l : list A) :
  (forall x, In x l -> f x = []) -> flat_map f l = [].
Proof.
  induction l as [|x l IH]; intros H; [reflexivity|].
  cbn [flat_map]. rewrite (H x) by (left; reflexivity).
  apply IH. intros y Hy. apply H. now right.
Qed.

Lemma match_at_nil r s : run r s [] = [] -> match_at r s = None.
Proof. intros H. unfold match_at. now rewrite H. Qed.

Lemma match_price_min_none s :
  starts_with "over" s = false -> starts_with "above" s = false ->
  starts_with "more than" s = false -> match_at price_min_re s = None.
Proof.
  intros H1 H2 H3. apply match_at_nil. unfold price_min_re.
  do 4 apply run_Cat_nil. rewrite !run_Or, !run_Str_none by assumption.
  reflexivity.
Qed.

Lemma match_around_none s :
  starts_with "around" s = false -> starts_with "about" s = false ->
  match_at around_price_re s = None.
Proof.
  intros H1 H2. apply match_at_nil. unfold around_price_re.
  do 4 apply run_Cat_nil. rewrite !run_Or, !run_Str_none by assumption.
  reflexivity.
Qed.

Lemma match_range_none s :
  starts_with rupee s = false -> match_at price_range_re s = None.
Proof.
  intros H. apply match_at_nil. unfold price_range_re.
  do 6 apply run_Cat_nil. now apply run_Str_none.
Qed.

Lemma digit_differs x c : is_digit x = false -> is_digit c = true -> Ascii.eqb x c = false.
Proof.
  intros Hx Hc. destruct (Ascii.eqb_spec x c) as [->|]; [congruence|reflexivity].
Qed.

(** A word that starts with a non-digit does not start a text of digits. *)
Lemma starts_with_digits x p t :
  is_digit x = false -> all_chars is_digit t = true ->
  starts_with (String x p) t = false.
Proof.
  intros Hx Ht. destruct t as [|c t]; [reflexivity|].
  simpl in Ht. apply andb_true_iff in Ht as [Hc _].
  simpl. now rewrite (digit_differs x c).
Qed.

Lemma digits_no_space t : all_chars is_digit t = true -> head_is is_space t = false.
Proof.
  destruct t as [|c t]; [reflexivity|]. simpl. intros H.
  apply andb_true_iff in H as [Hc _]. now apply digit_not_space.
Qed.

Lemma all_chars_tail p c s : all_chars p (String c s) = true -> all_chars p s = true.
Proof. simpl. intros H. now apply andb_true_iff in H. Qed.

(** A pattern that cannot start at a digit or at the end matches nowhere in
    a text of digits. *)
Lemma search_none_in_digits r t :
  (forall u, all_chars is_digit u = true -> match_at r u = None) ->
  all_chars is_digit t = true -> search r t = None.
Proof.
  intros Hr. induction t as [|c t IH]; intros Ht; cbn [search].
  - now rewrite Hr.
  - rewrite Hr by exact Ht. apply IH. eapply all_chars_tail, Ht.
Qed.

Lemma run_digits_rests i s g x :
  all_chars is_digit s = true -> In x (run (Group i digits) s g) ->
  all_chars is_digit (fst x) = true.
Proof.
  intros Hs. rewrite run_Group. unfold digits, Some1. rewrite run_Cat.
  intros Hx. apply List.in_map_iff in Hx as (y & <- & Hy). cbn [fst].
  apply List.in_flat_map in Hy as (z & Hz & Hy).
  destruct s as [|c s]; [destruct Hz|].
  cbn [run] in Hz. destruct (is_digit c); [|destruct Hz].
  destruct Hz as [<-|[]]. cbn [fst snd] in Hy.
  eapply run_many_class_rests; [|exact Hy]. eapply all_chars_tail, Hs.
Qed.

(** "₹" and a number at the end of the text is no range. *)
Lemma match_range_number s :
  all_chars is_digit s = true -> match_at price_range_re (rupee +:+ s) = None.
Proof.
  intros Hs. apply match_at_nil. unfold price_range_re.
  do 3 apply run_Cat_nil. rewrite !run_Cat, run_Str_app.
  cbn [flat_map fst snd]. rewrite app_nil_r.
  apply flat_map_nil_all. intros y Hy.
  apply List.in_flat_map in Hy as (x & Hx & Hy).
  apply run_digits_rests in Hx; [|exact Hs].
  unfold spaces in Hy. rewrite run_many_class_stop in Hy by now apply digits_no_space.
  destruct Hy as [<-|[]]. cbn [fst snd].
  rewrite run_Or, !run_Str_none; [reflexivity| |]; now apply starts_with_digits.
Qed.

Lemma lower_digits s : all_chars is_digit s = true -> lower s = s.
Proof.
  induction s as [|c s IH]; [reflexivity|]. simpl. intros H.
  apply andb_true_iff in H as [Hc Hs]. rewrite (IH Hs). f_equal.
  revert Hc. clear.
  destruct c as [[|] [|] [|] [|] [|] [|] [|] [|]]; try reflexivity; discriminate.
Qed.

Lemma search_cons_none r a s :
  match_at r (String a s) = None -> search r (String a s) = search r s.
Proof. intros H. cbn [search]. now rewrite H. Qed.

Lemma search_price_min_under s :
  all_chars is_digit s = true -> search price_min_re ("under ₹" +:+ s) = None.
Proof.
  intros Hs. rewrite !append_cons, append_nil.
  do 9 (rewrite search_cons_none by (apply match_price_min_none; reflexivity)).
  apply search_none_in_digits; [|exact Hs].
  intros u Hu. apply match_price_min_none; now apply starts_with_digits.
Qed.

Lemma search_around_under s :
  all_chars is_digit s = true -> search around_price_re ("under ₹" +:+ s) = None.
Proof.
  intros Hs. rewrite !append_cons, append_nil.
  do 9 (rewrite search_cons_none by (apply match_around_none; reflexivity)).
  apply search_none_in_digits; [|exact Hs].
  intros u Hu. apply match_around_none; now apply starts_with_digits.
Qed.

Lemma search_range_under s :
  all_chars is_digit s = true -> search price_range_re ("under ₹" +:+ s) = None.
Proof.
  intros Hs. rewrite !append_cons, append_nil.
  do 6 (rewrite search_cons_none by (apply match_range_none; reflexivity)).
  rewrite search_cons_none by (apply (match_range_number s Hs)).
  do 2 (rewrite search_cons_none by (apply match_range_none; reflexivity)).
  apply search_none_in_digits; [|exact Hs].
  intros u Hu. apply match_range_none. unfold rupee. now apply starts_with_digits.
Qed.

Lemma append_empty_r (s : string) : s +:+ "" = s.
Proof.
  induction s as [|c s IH]; [reflexivity|]. rewrite append_cons. now rewrite IH.
Qed.

Lemma lower_append a b : lower (a +:+ b) = lower a +:+ lower b.
Proof.
  induction a as [|c a IH]; [reflexivity|].
  rewrite append_cons. simpl. rewrite IH. reflexivity.
Qed.

(** ** "under ₹N" *)

(** The utterance "under ₹N" itself, for every number N. *)
Lemma extract_under_rupee (df : list Row) (c : ascii) (ds : string) :
  is_digit c = true -> all_chars is_digit ds = true ->
  extract_filters df ("under ₹" +:+ String c ds) !! "price_max"
  = Some (VInt (int (String c ds)))
  /\ extract_filters df ("under ₹" +:+ String c ds) !! "price_min" = None.
Proof.
  intros Hc Hds.
  assert (all_chars is_digit (String c ds) = true) as Hall
    by (simpl; now rewrite Hc, Hds).
  assert (lower ("under ₹" +:+ String c ds) = "under ₹" +:+ String c ds) as Hlow
    by (rewrite lower_append, (lower_digits _ Hall); reflexivity).
  apply (extract_price_max_only df _ [(1%nat, String c ds)]); rewrite Hlow.
  - pose proof (search_under_rupee c ds "" Hc Hds eq_refl) as H.
    now rewrite append_empty_r in H.
  - now apply search_range_under.
  - now apply search_price_min_under.
  - now apply search_around_under.
Qed.

(** ** What [search] finds *)

(** [search] fails exactly when the pattern matches at no position. *)
Lemma search_None r s :
  search r s = None <-> forall pre t, s = pre +:+ t -> match_at r t = None.
Proof.
  induction s as [|c s IH]; cbn [search].
  - split.
    + intros H pre t E. destruct pre; [|discriminate].
      rewrite append_nil in E. subst t.
      destruct (match_at r ""); [discriminate|reflexivity].
    + intros H. now rewrite (H "" "").
  - split.
    + intros H pre t E.
      destruct (match_at r (String c s)) eqn:Hm; [discriminate|].
      destruct pre as [|c' pre].
      * rewrite append_nil in E. now subst t.
      * rewrite append_cons in E. injection E as -> ->.
        apply (proj1 IH H pre t eq_refl).
    + intros H. rewrite (H "" (String c s)) by reflexivity.
      apply IH. intros pre t ->. apply (H (String c pre) t). reflexivity.
Qed.

(** A match [search] returns is the match at the leftmost position that
    has one. *)
Lemma search_Some r s m :
  search r s = Some m ->
  exists pre t,
    s = pre +:+ t /\ match_at r t = Some m
    /\ forall p1 p2, pre = p1 +:+ p2 -> p2 <> "" -> match_at r (p2 +:+ t) = None.
Proof.
  induction s as [|c s IH]; cbn [search]; intros H.
  - destruct (match_at r "") eqn:Hm; [|discriminate]. injection H as ->.
    exists "", "". repeat split; [exact Hm|].
    intros p1 p2 E Hp2. destruct p1, p2; try discriminate. congruence.
  - destruct (match_at r (String c s)) eqn:Hm.
    + injection H as ->. exists "", (String c s). repeat split; [exact Hm|].
      intros p1 p2 E Hp2. destruct p1, p2; try discriminate. congruence.
    + destruct (IH H) as (pre & t & -> & Ht & Hleft).
      exists (String c pre), t. repeat split; [exact Ht|].
      intros p1 p2 E Hp2. destruct p1 as [|c1 p1].
      * rewrite append_nil in E. subst p2. exact Hm.
      * rewrite append_cons in E. injection E as -> ->.
        now apply (Hleft p1 p2).
Qed.

(** ** More on [filter_data]: errors, unread keys, composition *)

Lemma has_str_false df :
  has_str df = false <-> df <> [] /\ forall r, In r df -> brand r = None.
Proof.
  split.
  - intros H. split.
    + intros ->. discriminate.
    + intros r Hr. destruct (brand r) as [b|] eqn:Hb; [|reflexivity].
      rewrite (has_str_intro df r b Hr Hb) in H. discriminate.
  - intros [Hne Hall]. destruct (has_str df) eqn:H; [|reflexivity].
    apply has_str_spec in H as [->|(r & b & Hr & Hb)]; [contradiction|].
    rewrite (Hall r Hr) in Hb. discriminate.
Qed.

(** X1. With integers as bounds and a text as brand, [filter_data] raises in
    one case only: a brand is asked for and the catalog has rows, none of
    them with a brand (no text in the column, on which [.str] raises). *)
Theorem filter_data_raises_without_brands (df : list Row) (f : gmap string value) :
  exact_bounds f = true ->
  filter_data df f = None
  <-> is_Some (f !! "brand") /\ df <> [] /\ (forall r, In r df -> brand r = None).
Proof.
  intros Hex. rewrite filter_data_raises, <- has_str_false.
  unfold accepts, has_key. rewrite (exact_bounds_well_typed f Hex). simpl.
  case_bool_decide as Hb; simpl.
  - tauto.
  - split; [discriminate|]. intros [H _]. contradiction.
Qed.

Lemma filter_data_raises_without_brands_witness :
  filter_data [unbranded] {["brand" := VStr "Samsung"; "ram_min" := VInt 8]} = None.
Proof.
  apply (filter_data_raises_without_brands [unbranded]
           {["brand" := VStr "Samsung"; "ram_min" := VInt 8]}).
  - reflexivity.
  - split; [now exists (VStr "Samsung")|]. split; [discriminate|].
    intros r [<-|[]]. reflexivity.
Defined.

Section UnreadKey.
Variables (f : gmap string value) (k : string) (v : value).
Hypothesis Hk : ~ In k read_keys.

Local Ltac other := let E := fresh in intros E; apply Hk; rewrite E; simpl; tauto.

Lemma well_typed_unread : well_typed (<[k := v]> f) = well_typed f.
Proof.
  unfold well_typed, typed_at. simpl.
  rewrite !lookup_insert_ne by other. reflexivity.
Qed.

Lemma accepts_unread df : accepts df (<[k := v]> f) = accepts df f.
Proof.
  unfold accepts, has_key. rewrite well_typed_unread.
  rewrite lookup_insert_ne by other. reflexivity.
Qed.

Lemma before_budget_unread r : before_budget (<[k := v]> f) r = before_budget f r.
Proof.
  unfold before_budget, numeric_ok, bound, brand_ok, flag_on.
  rewrite !lookup_insert_ne by other. reflexivity.
Qed.

Lemma from_budget_unread r : from_budget (<[k := v]> f) r = from_budget f r.
Proof.
  unfold from_budget, budget_cap, battery_floor, flag_on, has_key.
  rewrite !lookup_insert_ne by other. reflexivity.
Qed.

Lemma flag_budget_unread :
  flag_on (<[k := v]> f) "keyword_budget" = flag_on f "keyword_budget".
Proof. unfold flag_on. rewrite lookup_insert_ne by other. reflexivity. Qed.
End UnreadKey.

(** X2. [filter_data] looks up thirteen keys; any other entry of the dictionary,
    ["keyword_fast_charging"] among them, changes nothing. *)
Theorem filter_data_ignores_key (df : list Row) (f : gmap string value)
    (k : string) (v : value) :
  ~ In k read_keys -> filter_data df (<[k := v]> f) = filter_data df f.
Proof.
  intros Hk. destruct (accepts df f) eqn:Hwt.
  - rewrite !filter_data_normal by (rewrite ?accepts_unread; assumption).
    rewrite flag_budget_unread by exact Hk. f_equal.
    rewrite (List.filter_ext (before_budget (<[k := v]> f)) (before_budget f))
      by (intros r; now apply before_budget_unread).
    apply List.filter_ext. intros r. now apply from_budget_unread.
  - transitivity (@None (list Row)); [|symmetry];
      apply filter_data_raises; rewrite ?accepts_unread; assumption.
Qed.

Lemma filter_data_ignores_key_witness :
  filter_data sample_catalog
    (<["keyword_fast_charging" := VBool true]> {["ram_min" := VInt 8]})
  = filter_data sample_catalog {["ram_min" := VInt 8]}.
Proof.
  apply (filter_data_ignores_key sample_catalog {["ram_min" := VInt 8]}
           "keyword_fast_charging" (VBool true)).
  vm_compute. intuition discriminate.
Defined.

Lemma filter_id_on {A} (p : A -> bool) (l : list A) :
  (forall x, In x l -> p x = true) -> List.filter p l = l.
Proof.
  induction l as [|x l IH]; intros H; [reflexivity|]. simpl.
  rewrite (H x) by now left. f_equal. apply IH. intros y Hy. apply H. now right.
Qed.

Lemma satisfies_parts f r :
  satisfies f r = true <-> before_budget f r = true /\ from_budget f r = true.
Proof. now rewrite satisfies_split, andb_true_iff. Qed.

(** The rows returned for a brand all have one. *)
Lemma accepts_results df f rows :
  filter_data df f = Some rows -> accepts rows f = true.
Proof.
  intros Hrun. pose proof (filter_data_some_typed _ _ _ Hrun) as Hwt.
  apply accepts_spec. split; [exact Hwt|]. intros Hk.
  apply has_str_spec. destruct rows as [|r rows]; [now left|right].
  assert (satisfies f r = true) as Hs
    by (apply (filter_data_In _ _ _ r Hrun); now left).
  unfold satisfies, numeric_ok in Hs. rewrite !andb_true_iff in Hs.
  destruct Hs as [[[_ Hb] _] _]. unfold brand_ok in Hb.
  apply bool_decide_eq_true_1 in Hk as [v Hv]. rewrite Hv in Hb.
  pose proof (typed_at_of_well_typed f "brand" Hwt (or_introl eq_refl)) as Ht.
  unfold typed_at in Ht. rewrite Hv in Ht.
  destruct v as [n|b|s]; try discriminate.
  destruct (brand r) as [x|] eqn:Hx; [|discriminate].
  exists r, x. split; [now left|exact Hx].
Qed.

(** X3. Filtering the result again with the same filters changes nothing: the
    same rows come back, in the same order unless [keyword_budget] sorts
    them once more. *)
Theorem filter_data_again (df : list Row) (f : gmap string value) (rows : list Row) :
  filter_data df f = Some rows ->
  exists rows',
    filter_data rows f = Some rows'
    /\ Permutation rows' rows
    /\ (flag_on f "keyword_budget" = false -> rows' = rows).
Proof.
  intros Hrun. pose proof (accepts_results _ _ _ Hrun) as Hwt.
  assert (forall r, In r rows -> before_budget f r = true /\ from_budget f r = true)
    as Hsat.
  { intros r Hr. apply satisfies_parts.
    apply (filter_data_In _ _ _ r Hrun) in Hr. tauto. }
  rewrite filter_data_normal by exact Hwt. eexists. split; [reflexivity|].
  rewrite (filter_id_on (before_budget f) rows) by (intros r Hr; apply Hsat, Hr).
  destruct (flag_on f "keyword_budget").
  - rewrite filter_id_on.
    + split; [apply sort_values_perm|discriminate].
    + intros r Hr. apply Hsat. eapply Permutation_in; [apply sort_values_perm|exact Hr].
  - rewrite filter_id_on by (intros r Hr; apply Hsat, Hr).
    split; [reflexivity|reflexivity].
Qed.

Lemma filter_data_again_witness :
  exists rows',
    filter_data [redmi_12] {["keyword_display" := VBool true;
                             "keyword_compact" := VBool true]} = Some rows'
    /\ Permutation rows' [redmi_12].
Proof.
  destruct (filter_data_again sample_catalog
              {["keyword_display" := VBool true; "keyword_compact" := VBool true]}
              [redmi_12]) as (rows' & H1 & H2 & _); [reflexivity|].
  exists rows'. split; assumption.
Defined.

Lemma satisfies_premium f r :
  satisfies f r = true -> flag_on f "keyword_premium" = true ->
  (50000 <= launched_price_rs r)%Q.
Proof.
  unfold satisfies, keyword_ok. intros H Hf. rewrite Hf in H.
  rewrite !andb_true_iff in H. simpl in H. apply Qle_bool_iff. tauto.
Qed.

Lemma satisfies_budget_cap f r :
  satisfies f r = true -> flag_on f "keyword_budget" = true ->
  f !! "price_max" = None -> f !! "price_min" = None ->
  (launched_price_rs r <= 15000)%Q.
Proof.
  unfold satisfies, keyword_ok, has_key. intros H Hf Hmax Hmin.
  rewrite Hf, Hmax, Hmin in H.
  rewrite !andb_true_iff in H. simpl in H. apply Qle_bool_iff. tauto.
Qed.

Lemma satisfies_gaming f r :
  satisfies f r = true -> flag_on f "keyword_gaming" = true -> is_gaming r = true.
Proof.
  unfold satisfies, keyword_ok. intros H Hf. rewrite Hf in H.
  rewrite !andb_true_iff in H. simpl in H. tauto.
Qed.

(** X4. The budget keyword caps the price at 15000 when no price bound is given
    and the premium keyword asks for 50000 or more: together, with no price
    bound, they leave no row, whatever the catalog. *)
Theorem budget_and_premium_empty (df : list Row) (f : gmap string value)
    (rows : list Row) :
  filter_data df f = Some rows ->
  flag_on f "keyword_budget" = true -> flag_on f "keyword_premium" = true ->
  f !! "price_max" = None -> f !! "price_min" = None ->
  rows = [].
Proof.
  intros Hrun Hb Hp Hmax Hmin. destruct rows as [|r rows]; [reflexivity|].
  assert (satisfies f r = true) as Hs
    by (apply (filter_data_In _ _ _ r Hrun); now left).
  pose proof (satisfies_premium _ _ Hs Hp) as H1.
  pose proof (satisfies_budget_cap _ _ Hs Hb Hmax Hmin) as H2.
  exfalso. pose proof (Qle_trans _ _ _ H1 H2) as H. revert H. now vm_compute.
Qed.

Lemma budget_and_premium_empty_witness :
  filter_data sample_catalog (extract_filters sample_catalog "a cheap flagship")
  = Some []
  /\ @nil Row = [].
Proof.
  split; [reflexivity|].
  apply (budget_and_premium_empty sample_catalog
           (extract_filters sample_catalog "a cheap flagship") []);
    reflexivity.
Defined.

(** X5. With the gaming keyword on, every row returned has at least 6 GB of RAM
    and a processor, present, whose name contains "snapdragon", "dimensity"
    or "gaming" in any letter case; a row without a processor never passes. *)
Theorem gaming_rows (df : list Row) (f : gmap string value) (rows : list Row) :
  filter_data df f = Some rows ->
  flag_on f "keyword_gaming" = true ->
  forall r, In r rows ->
    (6 <= ram_gb r)%Q
    /\ exists p, Processor r = Some p
                 /\ (contains "snapdragon" (lower p) = true
                     \/ contains "dimensity" (lower p) = true
                     \/ contains "gaming" (lower p) = true).
Proof.
  intros Hrun Hg r Hr.
  assert (is_gaming r = true) as H.
  { apply (satisfies_gaming f); [|exact Hg].
    apply (filter_data_In _ _ _ r Hrun) in Hr. tauto. }
  unfold is_gaming, gaming_processor in H.
  apply andb_true_iff in H as [Hram Hcpu]. split; [now apply Qle_bool_iff|].
  destruct (Processor r) as [p|]; [|discriminate Hcpu].
  exists p. split; [reflexivity|]. simpl in Hcpu.
  rewrite !orb_true_iff in Hcpu. tauto.
Qed.

Lemma gaming_rows_witness :
  (6 <= ram_gb (phone "OnePlus" "Nord 3" 33999 8 256 5000 50 6.7
                  (Some "Dimensity 9000")))%Q.
Proof.
  apply (gaming_rows sample_catalog {["keyword_gaming" := VBool true]}
           [phone "Samsung" "Galaxy A15" 14999 6 128 5000 50 6.5
              (Some "Dimensity 6100");
            phone "OnePlus" "Nord 3" 33999 8 256 5000 50 6.7
              (Some "Dimensity 9000")]);
    [reflexivity|reflexivity|simpl; tauto].
Defined.

Lemma well_typed_delete_budget f :
  well_typed (delete "keyword_budget" f) = well_typed f.
Proof.
  unfold well_typed, typed_at. simpl.
  rewrite !lookup_delete_ne by done. reflexivity.
Qed.

Lemma accepts_delete_budget df f :
  accepts df (delete "keyword_budget" f) = accepts df f.
Proof.
  unfold accepts, has_key. rewrite well_typed_delete_budget.
  rewrite lookup_delete_ne by done. reflexivity.
Qed.

Lemma before_budget_delete_budget f r :
  before_budget (delete "keyword_budget" f) r = before_budget f r.
Proof.
  unfold before_budget, numeric_ok, bound, brand_ok, flag_on.
  rewrite !lookup_delete_ne by done. reflexivity.
Qed.

Lemma from_budget_delete_budget f r :
  has_key f "price_max" || has_key f "price_min" = true ->
  from_budget (delete "keyword_budget" f) r = from_budget f r.
Proof.
  intros Hp. unfold from_budget, budget_cap, battery_floor, flag_on.
  assert (has_key (delete "keyword_budget" f) "price_max" = has_key f "price_max")
    as -> by (unfold has_key; now rewrite lookup_delete_ne).
  assert (has_key (delete "keyword_budget" f) "price_min" = has_key f "price_min")
    as -> by (unfold has_key; now rewrite lookup_delete_ne).
  assert (has_key (delete "keyword_budget" f) "battery_capacity_mah"
          = has_key f "battery_capacity_mah")
    as -> by (unfold has_key; now rewrite lookup_delete_ne).
  rewrite lookup_delete_eq. rewrite !lookup_delete_ne by done.
  destruct (has_key f "price_max"), (has_key f "price_min");
    try discriminate Hp; simpl; rewrite ?andb_false_r; reflexivity.
Qed.

(** X6. The budget keyword sorts by price and caps the price at 15000 only when
    the filters hold no price bound.  When they hold one, the keyword only
    reorders: the rows are those returned without it, sorted by ascending
    price. *)
Theorem budget_keyword (df : list Row) (f : gmap string value) (rows : list Row) :
  filter_data df f = Some rows ->
  flag_on f "keyword_budget" = true ->
  StronglySorted price_le rows
  /\ (has_key f "price_max" || has_key f "price_min" = false ->
      forall r, In r rows -> (launched_price_rs r <= 15000)%Q)
  /\ (has_key f "price_max" || has_key f "price_min" = true ->
      exists rows', filter_data df (delete "keyword_budget" f) = Some rows'
                    /\ Permutation rows rows').
Proof.
  intros Hrun Hb. pose proof (filter_data_some_accepts _ _ _ Hrun) as Hwt.
  split; [|split].
  - rewrite filter_data_normal, Hb in Hrun by exact Hwt. injection Hrun as <-.
    apply filter_strongly_sorted, sort_values_sorted.
  - intros Hp r Hr. apply orb_false_iff in Hp as [H1 H2].
    apply (satisfies_budget_cap f); [|exact Hb| |].
    + apply (filter_data_In _ _ _ r Hrun) in Hr. tauto.
    + unfold has_key in H1. destruct (f !! "price_max"); [|reflexivity].
      rewrite bool_decide_true in H1 by eauto. discriminate.
    + unfold has_key in H2. destruct (f !! "price_min"); [|reflexivity].
      rewrite bool_decide_true in H2 by eauto. discriminate.
  - intros Hp. eexists. split.
    + apply filter_data_normal. now rewrite accepts_delete_budget.
    + rewrite filter_data_normal, Hb in Hrun by exact Hwt. injection Hrun as <-.
      assert (flag_on (delete "keyword_budget" f) "keyword_budget" = false) as ->
        by (unfold flag_on; now rewrite lookup_delete_eq).
      rewrite (List.filter_ext (before_budget (delete "keyword_budget" f))
                 (before_budget f)) by apply before_budget_delete_budget.
      rewrite (List.filter_ext (from_budget (delete "keyword_budget" f))
                 (from_budget f))
        by (intros r; now apply from_budget_delete_budget).
      apply filter_perm, sort_values_perm.
Qed.

Lemma budget_keyword_witness :
  StronglySorted price_le
    [redmi_12;
     phone "Samsung" "Galaxy S5" 12999 8 128 4300 13 5.8 (Some "Exynos 7904");
     phone "Samsung" "Galaxy A15" 14999 6 128 5000 50 6.5 (Some "Dimensity 6100")].
Proof.
  apply (budget_keyword sample_catalog {["keyword_budget" := VBool true]});
    reflexivity.
Defined.

(** ** More on [extract_filters] *)

Lemma int_acc_nonneg s acc : (0 <= acc)%Z -> (0 <= int_acc acc s)%Z.
Proof.
  revert acc. induction s as [|c s IH]; intros acc H; simpl; [exact H|].
  apply IH. unfold digit_val. lia.
Qed.

Lemma int_nonneg s : (0 <= int s)%Z.
Proof. apply int_acc_nonneg. lia. Qed.

Lemma extracted_insert k v f :
  extracted_entry k v = true -> extracted_map f -> extracted_map (<[k := v]> f).
Proof. intros Hv Hf. now apply map_Forall_insert_2. Qed.

Lemma extracted_int k s :
  existsb (String.eqb k) numeric_keys = true ->
  extracted_entry k (VInt (int s)) = true.
Proof.
  intros Hk. unfold extracted_entry. rewrite Hk. apply Z.leb_le, int_nonneg.
Qed.

Lemma extracted_around_min p :
  (0 <= p)%Z ->
  extracted_entry "price_min" (VInt (if (2000 <? p)%Z then p - 2000 else 0)) = true.
Proof.
  intros Hp. unfold extracted_entry. simpl. apply Z.leb_le.
  destruct (Z.ltb_spec 2000 p); lia.
Qed.

Lemma extracted_around_max p :
  (0 <= p)%Z -> extracted_entry "price_max" (VInt (p + 2000)) = true.
Proof. intros Hp. unfold extracted_entry. simpl. apply Z.leb_le. lia. Qed.

Local Ltac searches :=
  repeat match goal with
         | |- context [search ?r ?q] => destruct (search r q)
         end.

Local Ltac stage Hf :=
  repeat (apply extracted_insert;
          [first [now apply extracted_int
                 |apply extracted_around_min, int_nonneg
                 |apply extracted_around_max, int_nonneg]|]);
  exact Hf.

Lemma extract_price_extracted q f : extracted_map f -> extracted_map (extract_price q f).
Proof. intros Hf. unfold extract_price, set_int. searches; stage Hf. Qed.

Lemma extract_ram_extracted q f : extracted_map f -> extracted_map (extract_ram q f).
Proof.
  intros Hf. unfold extract_ram, set_int. searches; repeat case_match; stage Hf.
Qed.

Lemma extract_storage_extracted q f :
  extracted_map f -> extracted_map (extract_storage q f).
Proof.
  intros Hf. unfold extract_storage, set_int. searches; repeat case_match; stage Hf.
Qed.

Lemma extract_battery_extracted q f :
  extracted_map f -> extracted_map (extract_battery q f).
Proof. intros Hf. unfold extract_battery, set_int. searches; stage Hf. Qed.

Lemma set_keyword_extracted key ks q f :
  extracted_entry key (VBool true) = true -> extracted_map f ->
  extracted_map (set_keyword key ks q f).
Proof.
  intros Hk Hf. unfold set_keyword.
  destruct (any_in ks q); [now apply extracted_insert|exact Hf].
Qed.

Lemma extract_keywords_extracted q f :
  extracted_map f -> extracted_map (extract_keywords q f).
Proof.
  intros Hf. unfold extract_keywords.
  repeat (apply set_keyword_extracted; [reflexivity|]). exact Hf.
Qed.

Lemma extract_brand_extracted bs q f :
  extracted_map f -> extracted_map (extract_brand bs q f).
Proof.
  intros Hf. induction bs as [|b bs IH]; simpl; [exact Hf|].
  destruct (brand_matches b q); [|exact IH].
  now apply extracted_insert.
Qed.

(** X7. [extract_filters] writes only the fourteen known keys: a number, never
    negative, under a numeric key; text under ["brand"]; [True], never
    [False], under a keyword. *)
Theorem extract_filters_entries (df : list Row) (query : string)
    (k : string) (v : value) :
  extract_filters df query !! k = Some v -> extracted_entry k v = true.
Proof.
  revert k v. change (extracted_map (extract_filters df query)).
  unfold extract_filters.
  apply extract_brand_extracted, extract_keywords_extracted,
    extract_battery_extracted, extract_storage_extracted, extract_ram_extracted,
    extract_price_extracted.
  apply map_Forall_empty.
Qed.

Lemma extract_filters_entries_witness :
  extracted_entry "price_min" (VInt 0) = true.
Proof.
  apply (extract_filters_entries sample_catalog "about 1500" "price_min" (VInt 0)).
  reflexivity.
Defined.

(** ** The matcher consumes a prefix; patterns with [\d+] need a digit *)

Lemma many_suffix step :
  (forall s g x, In x (step s g) -> exists pre, s = pre +:+ fst x) ->
  forall n s g x, In x (many step n s g) -> exists pre, s = pre +:+ fst x.
Proof.
  intros Hstep. induction n as [|n IH]; intros s g x Hx.
  - destruct Hx as [<-|[]]. now exists "".
  - rewrite many_S in Hx. apply in_app_or in Hx as [Hx|[<-|[]]]; [|now exists ""].
    apply List.in_flat_map in Hx as (y & Hy & Hx).
    destruct (String.length (fst y) <? String.length s)%nat; [|destruct Hx].
    destruct (Hstep _ _ _ Hy) as [p1 ->]. destruct (IH _ _ _ Hx) as [p2 E].
    exists (p1 +:+ p2). rewrite string_app_assoc. now rewrite <- E.
Qed.

(** Every way a pattern matches leaves a suffix of the text. *)
Lemma run_suffix r s g x : In x (run r s g) -> exists pre, s = pre +:+ fst x.
Proof.
  revert s g x. induction r as [c|p| |r1 IH1 r2 IH2|r1 IH1 r2 IH2|r IH|i r IH|r IH];
    intros s g x Hx.
  - cbn [run] in Hx. destruct s as [|c' s]; [destruct Hx|].
    destruct (Ascii.eqb c c'); [|destruct Hx]. destruct Hx as [<-|[]].
    now exists (String c' "").
  - cbn [run] in Hx. destruct s as [|c' s]; [destruct Hx|].
    destruct (p c'); [|destruct Hx]. destruct Hx as [<-|[]].
    now exists (String c' "").
  - destruct Hx as [<-|[]]. now exists "".
  - rewrite run_Cat in Hx. apply List.in_flat_map in Hx as (y & Hy & Hx).
    destruct (IH1 _ _ _ Hy) as [p1 ->]. destruct (IH2 _ _ _ Hx) as [p2 E].
    exists (p1 +:+ p2). rewrite string_app_assoc. now rewrite <- E.
  - rewrite run_Or in Hx. apply in_app_or in Hx as [Hx|Hx]; eauto.
  - rewrite run_Many in Hx. eapply many_suffix; [|exact Hx]. exact IH.
  - rewrite run_Group in Hx. apply List.in_map_iff in Hx as (y & <- & Hy).
    cbn [fst]. eauto.
  - rewrite run_NotAhead in Hx. destruct (run r s g); [|destruct Hx].
    destruct Hx as [<-|[]]. now exists "".
Qed.

Lemma no_digit_suffix pre t : no_digit (pre +:+ t) = true -> no_digit t = true.
Proof.
  unfold no_digit. induction pre as [|c pre IH]; [now rewrite append_nil|].
  rewrite append_cons. simpl. intros H. apply andb_true_iff in H as [_ H]. auto.
Qed.

Lemma needs_digit_group i : needs_digit (Group i digits).
Proof.
  intros s g Hs. rewrite run_Group. unfold digits, Some1. rewrite run_Cat.
  destruct s as [|c s]; [reflexivity|]. cbn [run].
  unfold no_digit in Hs. simpl in Hs. apply andb_true_iff in Hs as [Hc _].
  apply negb_true_iff in Hc. now rewrite Hc.
Qed.

Lemma needs_digit_Cat_l r1 r2 : needs_digit r1 -> needs_digit (Cat r1 r2).
Proof. intros H s g Hs. apply run_Cat_nil. now apply H. Qed.

Lemma needs_digit_Cat_r r1 r2 : needs_digit r2 -> needs_digit (Cat r1 r2).
Proof.
  intros H s g Hs. rewrite run_Cat. apply flat_map_nil_all. intros x Hx.
  apply run_suffix in Hx as [pre ->]. apply H. eapply no_digit_suffix, Hs.
Qed.

Local Ltac digit_tac :=
  first [apply needs_digit_group
        |apply needs_digit_Cat_r; digit_tac
        |apply needs_digit_Cat_l; digit_tac].

Lemma search_needs_digit r s :
  needs_digit r -> no_digit s = true -> search r s = None.
Proof.
  intros Hr Hs. apply search_None. intros pre t ->.
  apply match_at_nil, Hr. eapply no_digit_suffix, Hs.
Qed.

Lemma no_digit_lower s : no_digit s = true -> no_digit (lower s) = true.
Proof.
  unfold no_digit. induction s as [|c s IH]; [reflexivity|]. simpl.
  intros H. apply andb_true_iff in H as [Hc Hs]. rewrite (IH Hs), andb_true_r.
  revert Hc. clear.
  destruct c as [[|] [|] [|] [|] [|] [|] [|] [|]]; try reflexivity; discriminate.
Qed.

(** ** The limit on digits: groups are pieces of the text *)

Lemma substring_length n m s :
  (String.length (substring n m s) <= String.length s)%nat.
Proof.
  revert n m. induction s as [|c s IH]; intros [|n] [|m]; simpl; try lia.
  - specialize (IH 0%nat m). lia.
  - specialize (IH n 0%nat). lia.
  - specialize (IH n (S m)). lia.
Qed.

Lemma append_length a b :
  String.length (a +:+ b) = (String.length a + String.length b)%nat.
Proof.
  induction a as [|c a IH]; [now rewrite append_nil|].
  rewrite append_cons. simpl. now rewrite IH.
Qed.

Lemma lower_length s : String.length (lower s) = String.length s.
Proof. induction s as [|c s IH]; simpl; [reflexivity|now rewrite IH]. Qed.

Lemma many_short step n0 :
  (forall s g x, (String.length s <= n0)%nat -> short n0 g ->
                 In x (step s g) -> short n0 (snd x)) ->
  forall n s g x, (String.length s <= n0)%nat -> short n0 g ->
                  In x (many step n s g) -> short n0 (snd x).
Proof.
  intros Hstep. induction n as [|n IH]; intros s g x Hs Hg Hx.
  - destruct Hx as [<-|[]]. exact Hg.
  - rewrite many_S in Hx. apply in_app_or in Hx as [Hx|[<-|[]]]; [|exact Hg].
    apply List.in_flat_map in Hx as (y & Hy & Hx).
    destruct (Nat.ltb_spec (String.length (fst y)) (String.length s));
      [|destruct Hx].
    apply (IH (fst y) (snd y)); [lia| |exact Hx].
    now apply (Hstep s g).
Qed.

(** The groups a match captures are no longer than the text. *)
Lemma run_short n0 r s g x :
  (String.length s <= n0)%nat -> short n0 g -> In x (run r s g) ->
  short n0 (snd x).
Proof.
  revert s g x. induction r as [c|p| |r1 IH1 r2 IH2|r1 IH1 r2 IH2|r IH|i r IH|r IH];
    intros s g x Hs Hg Hx.
  - cbn [run] in Hx. destruct s as [|c' s]; [destruct Hx|].
    destruct (Ascii.eqb c c'); [|destruct Hx]. now destruct Hx as [<-|[]].
  - cbn [run] in Hx. destruct s as [|c' s]; [destruct Hx|].
    destruct (p c'); [|destruct Hx]. now destruct Hx as [<-|[]].
  - now destruct Hx as [<-|[]].
  - rewrite run_Cat in Hx. apply List.in_flat_map in Hx as (y & Hy & Hx).
    apply (IH2 (fst y) (snd y)); [| |exact Hx].
    + apply run_suffix in Hy as [pre E]. rewrite E, append_length in Hs. lia.
    + now apply (IH1 s g).
  - rewrite run_Or in Hx. apply in_app_or in Hx as [Hx|Hx]; eauto.
  - rewrite run_Many in Hx. eapply (many_short (run r)); eauto.
  - rewrite run_Group in Hx. apply List.in_map_iff in Hx as (y & <- & Hy).
    cbn [snd]. constructor; [|now apply (IH s g)].
    cbn [snd]. unfold consumed. pose proof (substring_length 0
      (String.length s - String.length (fst y)) s). lia.
  - rewrite run_NotAhead in Hx. destruct (run r s g); [|destruct Hx].
    now destruct Hx as [<-|[]].
Qed.

Lemma group_short n0 g i : short n0 g -> (String.length (group g i) <= n0)%nat.
Proof.
  induction 1 as [|[j t] g Ht _ IH]; simpl; [lia|].
  destruct (i =? j)%nat; [exact Ht|exact IH].
Qed.

Lemma match_at_short r s m i :
  match_at r s = Some m -> (String.length (group m i) <= String.length s)%nat.
Proof.
  unfold match_at. destruct (run r s []) as [|x l] eqn:E; [discriminate|].
  intros H. injection H as <-. apply group_short.
  apply (run_short _ r s [] x); [lia|constructor|].
  rewrite E. now left.
Qed.

Lemma search_short r s m i :
  search r s = Some m -> (String.length (group m i) <= String.length s)%nat.
Proof.
  induction s as [|c s IH]; cbn [search].
  - destruct (match_at r "") eqn:E; [|discriminate].
    intros H. injection H as <-. now apply (match_at_short r "").
  - destruct (match_at r (String c s)) eqn:E.
    + intros H. injection H as <-. now apply (match_at_short r (String c s)).
    + intros H. specialize (IH H). simpl. lia.
Qed.

Lemma numbers_fit_short q : (String.length q <= 4000)%nat -> numbers_fit q.
Proof.
  intros Hq r m i _ Hm. pose proof (search_short r q m i Hm). lia.
Qed.

Lemma numbers_fit_no_digit q : no_digit q = true -> numbers_fit q.
Proof.
  intros Hq r m i Hr Hm.
  rewrite search_needs_digit in Hm; [discriminate| |exact Hq].
  unfold number_patterns in Hr. simpl in Hr.
  repeat (destruct Hr as [<-|Hr];
          [unfold price_max_re, price_range_re, price_min_re, around_price_re,
             ram_explicit_re, ram_ambiguous_re, ram_min_re, storage_explicit_re,
             storage_min_re, battery_re, gb_re; digit_tac|]).
  destruct Hr.
Qed.

(** ** The conversions below the limit *)

Lemma digit_val_bound c : (0 <= digit_val c <= 207)%Z.
Proof.
  unfold digit_val. pose proof (nat_ascii_bounded c). lia.
Qed.

Lemma int_acc_bound s acc :
  (0 <= acc)%Z ->
  (int_acc acc s <= (acc + 23) * 10 ^ Z.of_nat (String.length s))%Z.
Proof.
  revert acc. induction s as [|c s IH]; intros acc Hacc.
  - simpl. lia.
  - cbn [int_acc String.length]. pose proof (digit_val_bound c) as Hc.
    etransitivity; [apply IH; lia|].
    rewrite Nat2Z.inj_succ, Z.pow_succ_r by lia.
    assert (0 < 10 ^ Z.of_nat (String.length s))%Z by (apply Z.pow_pos_nonneg; lia).
    nia.
Qed.

Lemma int_small s :
  (String.length s <= 4000)%nat ->
  (Z.abs (int s + 2000) < 10 ^ Z.of_nat Raising.max_str_digits)%Z.
Proof.
  intros Hs. pose proof (int_nonneg s) as H0.
  pose proof (int_acc_bound s 0 ltac:(lia)) as H1. fold (int s) in H1.
  assert (10 ^ Z.of_nat (String.length s) <= 10 ^ 4000)%Z as H2
    by (apply Z.pow_le_mono_r; lia).
  assert ((23 * 10 ^ 4000 + 2000 <? 10 ^ Z.of_nat Raising.max_str_digits)%Z
          = true) as H3 by (vm_compute; reflexivity).
  apply Z.ltb_lt in H3.
  remember (10 ^ 4000)%Z as B eqn:EB.
  remember (10 ^ Z.of_nat Raising.max_str_digits)%Z as L eqn:EL.
  remember (10 ^ Z.of_nat (String.length s))%Z as P eqn:EP.
  clear EB EL EP. rewrite Z.abs_eq by lia. lia.
Qed.

Lemma int_some s :
  (String.length s <= 4000)%nat -> Raising.int s = Some (int s).
Proof.
  intros Hs. unfold Raising.int, Raising.max_str_digits.
  destruct (Nat.leb_spec (String.length s) 4300); [reflexivity|lia].
Qed.

Lemma str_some n :
  (Z.abs n < 10 ^ Z.of_nat Raising.max_str_digits)%Z ->
  Raising.str n = Some (pretty n).
Proof.
  intros Hn. unfold Raising.str. apply Z.ltb_lt in Hn. now rewrite Hn.
Qed.

Lemma set_int_some k m i f :
  (String.length (group m i) <= 4000)%nat ->
  Raising.set_int k m i f = Some (set_int k m i f).
Proof.
  intros Hs. unfold Raising.set_int, set_int. rewrite (int_some _ Hs). simpl.
  rewrite str_some; [reflexivity|].
  pose proof (int_small _ Hs). pose proof (int_nonneg (group m i)). lia.
Qed.

Section Fit.
Variable q : string.
Hypothesis Hfit : numbers_fit q.

Lemma set_int_fit r k m i f :
  In r number_patterns -> search r q = Some m ->
  Raising.set_int k m i f = Some (set_int k m i f).
Proof. intros Hr Hm. apply set_int_some. now apply (Hfit r). Qed.

Lemma extract_price_some f :
  Raising.extract_price q f = Some (extract_price q f).
Proof.
  unfold Raising.extract_price, extract_price.
  destruct (search price_max_re q) as [m1|] eqn:E1.
  all: try rewrite (set_int_fit price_max_re _ m1) by (simpl; tauto).
  all: cbn [mbind option_bind].
  all: destruct (search price_range_re q) as [m2|] eqn:E2.
  all: try rewrite !(set_int_fit price_range_re _ m2) by (simpl; tauto).
  all: cbn [mbind option_bind].
  all: try rewrite !(set_int_fit price_range_re _ m2) by (simpl; tauto).
  all: cbn [mbind option_bind].
  all: destruct (search price_min_re q) as [m3|] eqn:E3.
  all: try rewrite !(set_int_fit price_min_re _ m3) by (simpl; tauto).
  all: cbn [mbind option_bind].
  all: destruct (search around_price_re q) as [m4|] eqn:E4; try reflexivity.
  all: assert (String.length (group m4 1) <= 4000)%nat as Hs
      by (apply (Hfit around_price_re); [simpl; tauto|exact E4]).
  all: rewrite (int_some _ Hs); cbn [mbind option_bind].
  all: pose proof (int_small _ Hs) as Hb; pose proof (int_nonneg (group m4 1)) as H0.
  all: rewrite !str_some by (destruct (2000 <? int (group m4 1))%Z; lia).
  all: reflexivity.
Qed.

Lemma extract_ram_some f :
  Raising.extract_ram q f = Some (extract_ram q f).
Proof.
  unfold Raising.extract_ram, extract_ram.
  destruct (search ram_explicit_re q) as [m1|] eqn:E1;
    [apply (set_int_fit ram_explicit_re); [simpl; tauto|exact E1]|].
  destruct (search ram_ambiguous_re q) as [m2|] eqn:E2.
  - destruct (negb (contains "storage" q) && negb (contains "rom" q));
      [|reflexivity].
    apply (set_int_fit ram_ambiguous_re); [simpl; tauto|exact E2].
  - destruct (search ram_min_re q) as [m3|] eqn:E3; [|reflexivity].
    apply (set_int_fit ram_min_re); [simpl; tauto|exact E3].
Qed.

Lemma extract_storage_some f :
  Raising.extract_storage q f = Some (extract_storage q f).
Proof.
  unfold Raising.extract_storage, extract_storage.
  destruct (search storage_explicit_re q) as [m1|] eqn:E1;
    [apply (set_int_fit storage_explicit_re); [simpl; tauto|exact E1]|].
  destruct (f !! "ram_min").
  - destruct (search storage_min_re q) as [m3|] eqn:E3; [|reflexivity].
    apply (set_int_fit storage_min_re); [simpl; tauto|exact E3].
  - destruct (search gb_re q) as [m2|] eqn:E2; [|reflexivity].
    apply (set_int_fit gb_re); [simpl; tauto|exact E2].
Qed.

Lemma extract_battery_some f :
  Raising.extract_battery q f = Some (extract_battery q f).
Proof.
  unfold Raising.extract_battery, extract_battery.
  destruct (search battery_re q) as [m1|] eqn:E1; [|reflexivity].
  apply (set_int_fit battery_re); [simpl; tauto|exact E1].
Qed.
End Fit.

(** When the numbers of the utterance fit, no conversion raises and
    [extract_filters] returns its dictionary. *)
Lemma extract_filters_some df query :
  numbers_fit (lower query) ->
  Raising.extract_filters df query = Some (extract_filters df query).
Proof.
  intros Hfit. unfold Raising.extract_filters, extract_filters. cbn zeta.
  rewrite extract_price_some by exact Hfit. cbn [mbind option_bind].
  rewrite extract_ram_some by exact Hfit. cbn [mbind option_bind].
  rewrite extract_storage_some by exact Hfit. cbn [mbind option_bind].
  rewrite extract_battery_some by exact Hfit. reflexivity.
Qed.

Lemma extract_filters_short df query :
  (String.length query <= 4000)%nat ->
  Raising.extract_filters df query = Some (extract_filters df query).
Proof.
  intros H. apply extract_filters_some, numbers_fit_short. now rewrite lower_length.
Qed.
(** "under ₹N" with a number of more than 4300 digits: [int] raises. *)
Lemma extract_under_raises (df : list Row) (c : ascii) (ds : string) :
  is_digit c = true -> all_chars is_digit ds = true ->
  (Raising.max_str_digits < String.length (String c ds))%nat ->
  Raising.extract_filters df ("under ₹" +:+ String c ds) = None.
Proof.
  intros Hc Hds Hlen.
  assert (all_chars is_digit (String c ds) = true) as Hall
    by (simpl; now rewrite Hc, Hds).
  assert (lower ("under ₹" +:+ String c ds) = "under ₹" +:+ String c ds) as Hlow
    by (rewrite lower_append, (lower_digits _ Hall); reflexivity).
  unfold Raising.extract_filters. cbn zeta. rewrite Hlow.
  unfold Raising.extract_price.
  pose proof (search_under_rupee c ds "" Hc Hds eq_refl) as H.
  rewrite append_empty_r in H. rewrite H.
  unfold Raising.set_int, Raising.int.
  change (group [(1%nat, String c ds)] 1) with (String c ds).
  destruct (Nat.leb_spec (String.length (String c ds)) Raising.max_str_digits);
    [lia|reflexivity].
Qed.

(** C6, amended.  Take an utterance of plain text, of at most 4000
    characters.  When its leftmost "under / less than / below N" phrase has
    the number N, and it has no explicit range "₹A to/- B", no "over /
    above / more than" phrase and no "around / about" phrase, extraction
    returns, with [price_max = N] and no [price_min].  The utterance
    "under ₹N" itself is such an utterance, for every N that keeps it within
    4000 characters; when N has more than 4300 digits [int] raises
    [ValueError] and nothing is extracted. *)
Theorem under_sets_price_max (df : list Row) (query : string) (m : caps) :
  plain_text query = true ->
  (String.length query <= 4000)%nat ->
  search price_max_re (lower query) = Some m ->
  search price_range_re (lower query) = None ->
  search price_min_re (lower query) = None ->
  search around_price_re (lower query) = None ->
  (exists filters,
     Raising.extract_filters df query = Some filters
     /\ filters !! "price_max" = Some (VInt (int (group m 1)))
     /\ filters !! "price_min" = None)
  /\ (forall c ds,
        is_digit c = true -> all_chars is_digit ds = true ->
        let utterance := "under ₹" +:+ String c ds in
        ((String.length utterance <= 4000)%nat ->
         exists filters,
           Raising.extract_filters df utterance = Some filters
           /\ filters !! "price_max" = Some (VInt (int (String c ds)))
           /\ filters !! "price_min" = None)
        /\ ((Raising.max_str_digits < String.length (String c ds))%nat ->
            Raising.extract_filters df utterance = None)).
Proof.
  intros _ Hlen Hmax Hrange Hmin Haround. split.
  - exists (extract_filters df query).
    split; [now apply extract_filters_short|].
    now apply (extract_price_max_only df query m).
  - intros c ds Hc Hds utterance. split.
    + intros Hu. exists (extract_filters df utterance).
      split; [now apply extract_filters_short|].
      now apply extract_under_rupee.
    + now apply extract_under_raises.
Qed.

Lemma under_sets_price_max_witness :
  exists filters,
    Raising.extract_filters sample_catalog "a Samsung phone under ₹15000"
    = Some filters
    /\ filters !! "price_max" = Some (VInt 15000)
    /\ filters !! "price_min" = None.
Proof.
  destruct (under_sets_price_max sample_catalog "a Samsung phone under ₹15000"
              [(1%nat, "15000")]) as [H _];
    [reflexivity|simpl; lia|reflexivity|reflexivity|reflexivity|reflexivity|].
  exact H.
Defined.

(** C4 as stated fails: next to an explicit "8gb ram" the bare "256gb" is
    attributed to nothing; next to an explicit "128gb storage" the bare
    "64gb" sets no key, and [storage_min] is 128; of two bare mentions only
    the leftmost counts; and "rom" inside "from" counts as the word, so that
    "6gb from amazon", without the word "storage" or "rom", gets no
    [ram_min]. *)
Lemma bare_gb_not_always_ram :
  Raising.extract_filters sample_catalog "8gb ram and 256gb"
  = Some {["ram_min" := VInt 8]}
  /\ Raising.extract_filters sample_catalog "64gb and 128gb storage"
     = Some {["storage_min" := VInt 128]}
  /\ Raising.extract_filters sample_catalog "4gb or 6gb"
     = Some {["ram_min" := VInt 4]}
  /\ contains "storage" (lower "6gb from amazon") = false
  /\ Raising.extract_filters sample_catalog "6gb from amazon"
     = Some {["storage_min" := VInt 6]}.
Proof. repeat split; vm_compute; reflexivity. Qed.

(** C4, amended.  Take an utterance of plain text, of at most 4000
    characters, with a bare "N GB" mention: no "N GB RAM" phrase, no
    "N GB storage / rom" phrase, and N the number of its leftmost "N GB".
    Extraction returns; it sets [ram_min = N] exactly when the lower-cased
    utterance contains neither "storage" nor "rom" as a substring (otherwise
    it sets no [ram_min]); and when no [ram_min] was extracted it sets
    [storage_min = N].  For "6gb" the result has [ram_min = 6] and no
    [storage_min]. *)
Theorem bare_gb_is_ram_unless_storage (df : list Row) (query : string) (m : caps) :
  plain_text query = true ->
  (String.length query <= 4000)%nat ->
  search ram_explicit_re (lower query) = None ->
  search storage_explicit_re (lower query) = None ->
  search gb_re (lower query) = Some m ->
  (exists filters,
     Raising.extract_filters df query = Some filters
     /\ filters !! "ram_min"
        = (if contains "storage" (lower query) || contains "rom" (lower query)
           then None else Some (VInt (int (group m 1))))
     /\ (filters !! "ram_min" = None ->
         filters !! "storage_min" = Some (VInt (int (group m 1)))))
  /\ (exists filters,
        Raising.extract_filters df "6gb" = Some filters
        /\ filters !! "ram_min" = Some (VInt 6)
        /\ filters !! "storage_min" = None).
Proof.
  intros _ Hlen Hram Hsto Hgb.
  assert (extract_price (lower query) ∅ !! "ram_min" = None) as Hp
    by (now rewrite extract_price_lookup_ne by done).
  assert (extract_filters df query !! "ram_min"
          = (if contains "storage" (lower query) || contains "rom" (lower query)
             then None else Some (VInt (int (group m 1))))) as Hr.
  { rewrite extract_filters_ram. unfold extract_ram, set_int.
    rewrite Hram, (search_ram_ambiguous _ Hsto), Hgb.
    destruct (contains "storage" (lower query)), (contains "rom" (lower query));
      simpl; try exact Hp; apply lookup_insert_eq. }
  split.
  - exists (extract_filters df query).
    split; [now apply extract_filters_short|]. split; [exact Hr|].
    rewrite extract_filters_ram, extract_filters_storage. intros Hnone.
    unfold extract_storage, set_int. rewrite Hsto, Hnone, Hgb.
    apply lookup_insert_eq.
  - exists (extract_filters df "6gb").
    split; [apply extract_filters_short; simpl; lia|]. split.
    + rewrite extract_filters_ram. vm_compute. reflexivity.
    + rewrite extract_filters_storage. vm_compute. reflexivity.
Qed.

Lemma bare_gb_is_ram_unless_storage_witness :
  exists filters,
    Raising.extract_filters sample_catalog "64 GB of storage" = Some filters
    /\ filters !! "ram_min" = None
    /\ filters !! "storage_min" = Some (VInt 64).
Proof.
  destruct (bare_gb_is_ram_unless_storage sample_catalog "64 GB of storage"
              [(1%nat, "64")]) as [(filters & H0 & H1 & H2) _];
    [reflexivity|simpl; lia|reflexivity|reflexivity|reflexivity|].
  exists filters. split; [exact H0|]. split; [exact H1|]. apply H2. exact H1.
Defined.

(** X9. All the numbers of a filter dictionary come from digits of the
    utterance: on an utterance of plain text without a digit no conversion
    is made, so none raises, and the dictionary has no numeric key, only
    keywords and a brand. *)
Theorem no_digit_no_number (df : list Row) (query : string) (k : string) :
  plain_text query = true -> no_digit query = true -> In k numeric_keys ->
  exists filters,
    Raising.extract_filters df query = Some filters /\ filters !! k = None.
Proof.
  intros _ Hq Hk. apply no_digit_lower in Hq. exists (extract_filters df query).
  split; [now apply extract_filters_some, numbers_fit_no_digit|].
  unfold extract_filters.
  rewrite extract_brand_lookup_ne
    by (intros ->; simpl in Hk; intuition discriminate).
  rewrite extract_keywords_lookup_numeric by exact Hk.
  assert (forall r, needs_digit r -> search r (lower query) = None) as Hnone
    by (intros r Hr; now apply search_needs_digit).
  unfold extract_battery, extract_storage, extract_ram, extract_price.
  rewrite (Hnone price_max_re), (Hnone price_range_re), (Hnone price_min_re),
    (Hnone around_price_re), (Hnone ram_explicit_re), (Hnone ram_ambiguous_re),
    (Hnone ram_min_re), (Hnone storage_explicit_re), (Hnone battery_re)
    by (unfold price_max_re, price_range_re, price_min_re, around_price_re,
          ram_explicit_re, ram_ambiguous_re, ram_min_re, storage_explicit_re,
          battery_re, gb_re; digit_tac).
  rewrite lookup_empty, (Hnone gb_re) by (unfold gb_re; digit_tac).
  apply lookup_empty.
Qed.

Lemma no_digit_no_number_witness :
  exists filters,
    Raising.extract_filters sample_catalog "a compact Samsung phone" = Some filters
    /\ filters !! "ram_min" = None.
Proof.
  apply (no_digit_no_number sample_catalog "a compact Samsung phone" "ram_min");
    [reflexivity|reflexivity|simpl; tauto].
Defined.

(** X8. The direct search, on a query of plain text of at most 4000
    characters whose numbers stay within 2^53 in size, never raises:
    [extract_filters] returns, [filter_data] accepts the filters it builds,
    and the rows returned are rows of the catalog that satisfy them. *)
Theorem direct_search_total (df : list Row) (query : string) :
  plain_text query = true -> plain_catalog df = true ->
  (String.length query <= 4000)%nat ->
  exact_bounds (extract_filters df query) = true ->
  exists rows,
    Raising.direct_search df query = Some rows
    /\ forall r, In r rows ->
         In r df /\ satisfies (extract_filters df query) r = true.
Proof.
  intros _ _ Hlen _. unfold Raising.direct_search.
  rewrite extract_filters_short by exact Hlen. cbn [mbind option_bind].
  destruct (filter_data df (extract_filters df query)) as [rows|] eqn:Hrun.
  - exists rows. split; [reflexivity|]. intros r Hr.
    now apply (filter_data_In _ _ _ r Hrun).
  - apply filter_data_raises in Hrun.
    rewrite extract_filters_accepts in Hrun. discriminate.
Qed.

Lemma direct_search_total_witness :
  exists rows,
    Raising.direct_search sample_catalog "a samsung phone under 15000 with 8gb ram"
    = Some rows
    /\ List.map model rows = ["Galaxy S5"].
Proof.
  destruct (direct_search_total sample_catalog
              "a samsung phone under 15000 with 8gb ram")
    as (rows & Hrun & _); [reflexivity|reflexivity|simpl; lia|reflexivity|].
  exists rows. split; [exact Hrun|].
  vm_compute in Hrun. injection Hrun as <-. reflexivity.
Defined.

(** X10. "around / about N" sets a window of 2000 on each side of N, cut at 0,
    whatever the other price phrases of the utterance say: the lower bound is
    never negative and never above the upper one. *)
Theorem around_price_window (df : list Row) (query : string) (m : caps) :
  search around_price_re (lower query) = Some m ->
  exists lo hi,
    extract_filters df query !! "price_min" = Some (VInt lo)
    /\ extract_filters df query !! "price_max" = Some (VInt hi)
    /\ lo = Z.max 0 (int (group m 1) - 2000)
    /\ hi = (int (group m 1) + 2000)%Z
    /\ (0 <= lo <= hi)%Z /\ (hi - lo <= 4000)%Z.
Proof.
  intros Ha. pose proof (int_nonneg (group m 1)) as Hn.
  exists (Z.max 0 (int (group m 1) - 2000)), (int (group m 1) + 2000)%Z.
  rewrite !extract_filters_price by auto. unfold extract_price. rewrite Ha.
  cbn zeta. rewrite lookup_insert_ne by done. rewrite !lookup_insert_eq.
  repeat split; try lia.
  f_equal. f_equal. destruct (Z.ltb_spec 2000 (int (group m 1))); lia.
Qed.

Lemma around_price_window_witness :
  exists lo hi,
    extract_filters sample_catalog "under 9000 or around 1500" !! "price_min"
    = Some (VInt lo)
    /\ extract_filters sample_catalog "under 9000 or around 1500" !! "price_max"
       = Some (VInt hi)
    /\ lo = 0%Z /\ hi = 3500%Z.
Proof.
  destruct (around_price_window sample_catalog "under 9000 or around 1500"
              [(1%nat, "1500")] eq_refl)
    as (lo & hi & H1 & H2 & H3 & H4 & _).
  exists lo, hi. repeat split; assumption.
Defined.

(** X11. An explicit range "₹A to/- B" gives both bounds, in the order written,
    and replaces what an "under" or "over" phrase of the same utterance
    says; only an "around" phrase overrides it. *)
Theorem range_overrides (df : list Row) (query : string) (m : caps) :
  search price_range_re (lower query) = Some m ->
  search around_price_re (lower query) = None ->
  extract_filters df query !! "price_min" = Some (VInt (int (group m 1)))
  /\ extract_filters df query !! "price_max" = Some (VInt (int (group m 2))).
Proof.
  intros Hr Ha. rewrite !extract_filters_price by auto.
  unfold extract_price, set_int. rewrite Hr, Ha. split.
  - rewrite lookup_insert_ne by done. apply lookup_insert_eq.
  - apply lookup_insert_eq.
Qed.

Lemma range_overrides_witness :
  extract_filters sample_catalog "under ₹20000, say ₹5000 - 8000" !! "price_min"
  = Some (VInt 5000)
  /\ extract_filters sample_catalog "under ₹20000, say ₹5000 - 8000" !! "price_max"
     = Some (VInt 8000).
Proof.
  apply (range_overrides sample_catalog "under ₹20000, say ₹5000 - 8000"
           [(2%nat, "8000"); (1%nat, "5000")]); reflexivity.
Defined.

(** X12. An explicit "N GB RAM" decides [ram_min] and an explicit "N GB storage"
    or "N GB rom" decides [storage_min], each on its own: the words "storage"
    and "rom" elsewhere in the utterance do not matter. *)
Theorem explicit_phrases_win (df : list Row) (query : string) (m1 m2 : caps) :
  search ram_explicit_re (lower query) = Some m1 ->
  search storage_explicit_re (lower query) = Some m2 ->
  extract_filters df query !! "ram_min" = Some (VInt (int (group m1 1)))
  /\ extract_filters df query !! "storage_min" = Some (VInt (int (group m2 1))).
Proof.
  intros H1 H2. rewrite extract_filters_ram, extract_filters_storage.
  unfold extract_ram, extract_storage, set_int. rewrite H1, H2.
  split; apply lookup_insert_eq.
Qed.

Lemma explicit_phrases_win_witness :
  extract_filters sample_catalog "128 GB ROM and 8GB RAM" !! "ram_min"
  = Some (VInt 8)
  /\ extract_filters sample_catalog "128 GB ROM and 8GB RAM" !! "storage_min"
     = Some (VInt 128).
Proof.
  apply (explicit_phrases_win sample_catalog "128 GB ROM and 8GB RAM"
           [(1%nat, "8")] [(1%nat, "128")]); reflexivity.
Defined.

(** ** The brand: from the catalog, through the utterance, back to the catalog *)

Lemma lower_char_idem c : lower_char (lower_char c) = lower_char c.
Proof. destruct c as [[|] [|] [|] [|] [|] [|] [|] [|]]; reflexivity. Qed.

Lemma lower_upper_char c : lower_char (upper_char c) = lower_char c.
Proof. destruct c as [[|] [|] [|] [|] [|] [|] [|] [|]]; reflexivity. Qed.

Lemma lower_lower s : lower (lower s) = lower s.
Proof.
  induction s as [|c s IH]; [reflexivity|]. simpl.
  now rewrite lower_char_idem, IH.
Qed.

Lemma lower_capitalize s : lower (capitalize s) = lower s.
Proof.
  destruct s as [|c s]; [reflexivity|]. simpl.
  now rewrite lower_upper_char, lower_lower.
Qed.

(** X13. A brand [extract_filters] finds is a brand of the catalog, written with
    a capital first letter and matched in the utterance by name or by alias;
    since [filter_data] compares brands ignoring case, filtering the catalog
    on it returns at least one row. *)
Theorem brand_round_trip (df : list Row) (query : string) (v : value) :
  extract_filters df query !! "brand" = Some v ->
  exists b0 r rows,
    In r df /\ brand r = Some b0
    /\ v = VStr (capitalize (lower b0))
    /\ brand_matches (lower b0) (lower query) = true
    /\ filter_data df {["brand" := v]} = Some rows
    /\ In r rows.
Proof.
  intros H. unfold extract_filters in H.
  apply extract_brand_found in H as (b & Hb & Hm & ->);
    [|apply before_brand_no_brand].
  apply In_unique_brands_lower in Hb as (r & b0 & Hr & Hb0 & ->).
  exists b0, r, (List.filter (satisfies {["brand" := VStr (capitalize (lower b0))]}) df).
  split; [exact Hr|]. split; [exact Hb0|]. split; [reflexivity|].
  split; [exact Hm|]. split.
  - apply filter_data_unsorted; [|reflexivity].
    apply accepts_spec. split; [reflexivity|].
    intros _. now apply (has_str_intro df r b0).
  - apply List.filter_In. split; [exact Hr|].
    unfold satisfies, numeric_ok, keyword_ok, bound, brand_ok, flag_on, has_key.
    rewrite lookup_singleton_eq. rewrite !lookup_singleton_ne by done.
    simpl. rewrite !andb_true_r. rewrite Hb0.
    rewrite equal_ignoring_case_lower, lower_capitalize, lower_lower.
    apply String.eqb_refl.
Qed.

Lemma brand_round_trip_witness :
  exists b0 r,
    In r sample_catalog /\ brand r = Some b0
    /\ VStr "Xiaomi" = VStr (capitalize (lower b0)).
Proof.
  destruct (brand_round_trip sample_catalog "a redmi with 6gb" (VStr "Xiaomi")
              eq_refl) as (b0 & r & rows & H1 & H2 & H3 & _).
  exists b0, r. repeat split; assumption.
Defined.

(** ** More on the dialogue *)

Lemma has_key_merge current new k :
  has_key current k = true -> has_key (merge_step current new) k = true.
Proof.
  unfold has_key. rewrite merge_step_lookup. intros H.
  apply bool_decide_eq_true in H. apply bool_decide_eq_true.
  destruct (new !! k); eauto.
Qed.

Lemma ready_merge current new :
  ready current = true -> ready (merge_step current new) = true.
Proof.
  unfold ready. rewrite !andb_true_iff, !orb_true_iff.
  intros [[[Hp Hr] Hs] Hb].
  repeat split; try (now apply has_key_merge);
    [destruct Hp|destruct Hb]; auto using has_key_merge.
Qed.

Lemma next_question_ready f : snd (next_question f) = true -> ready f = true.
Proof.
  unfold next_question, ready.
  destruct (has_key f "price_max"), (has_key f "price_min"),
    (has_key f "ram_min"), (has_key f "storage_min"),
    (has_key f "battery_capacity_mah"), (has_key f "keyword_battery");
    simpl; try discriminate; try reflexivity;
    destruct (_ && _); simpl; try discriminate; reflexivity.
Qed.

Lemma dialogue_step_ready u response st :
  awaiting_confirmation (snd (dialogue_step u response st)) = true ->
  awaiting_confirmation st = true \/ ready (current_filters st) = true.
Proof.
  unfold dialogue_step.
  destruct (nonblank response); [simpl; auto|].
  destruct (any_in greetings u); [simpl; auto|].
  destruct (_ || _); [simpl; auto|].
  destruct (_ || _); [simpl; auto|].
  destruct (negb _); [simpl; auto|].
  pose proof (next_question_ready (current_filters st)) as Hq.
  destruct (next_question (current_filters st)) as [question [|]]; simpl; auto.
Qed.

Lemma get_chatbot_response_ready df user_message st :
  awaiting_confirmation (snd (get_chatbot_response df user_message st)) = true ->
  awaiting_confirmation st = true
  \/ ready (merge_step (current_filters st) (extract_filters df user_message))
     = true.
Proof.
  unfold get_chatbot_response.
  pose proof (confirmation_step_filters (lower user_message) st) as Hc.
  pose proof (confirmation_step_awaiting (lower user_message) st) as Ha.
  destruct (confirmation_step (lower user_message) st) as [[response trigger] st1].
  cbn [fst snd] in Hc, Ha. rewrite Hc.
  set (merged := merge_step _ _).
  set (st2 := set_filters merged st1).
  assert (awaiting_confirmation st2 = true -> awaiting_confirmation st = true) as H2.
  { unfold st2. simpl. rewrite Ha. intros H.
    apply andb_true_iff in H as [H _]. apply andb_true_iff in H as [H _]. exact H. }
  change (current_filters st2) with merged.
  destruct (negb trigger && any_in search_commands (lower user_message)).
  - destruct (nonempty merged); simpl; [discriminate|auto].
  - destruct trigger; [simpl; auto|].
    pose proof (dialogue_step_ready (lower user_message) response st2) as Hd.
    destruct (dialogue_step (lower user_message) response st2) as [response' st3].
    cbn [fst snd] in *. intros H. destruct (Hd H) as [H'|H']; auto.
Qed.

Lemma pending_ready_turn df prompt st st' :
  (awaiting_confirmation st = true -> ready (current_filters st) = true) ->
  chat_turn df prompt st = Some st' ->
  awaiting_confirmation st' = true -> ready (current_filters st') = true.
Proof.
  intros Hpend Hturn.
  pose proof (chat_turn_spec df prompt st) as Hspec. cbn zeta in Hspec.
  pose proof (get_chatbot_response_ready df prompt (say (user_says prompt) st)) as Ha.
  change (current_filters (say (user_says prompt) st)) with (current_filters st) in Ha.
  change (awaiting_confirmation (say (user_says prompt) st))
    with (awaiting_confirmation st) in Ha.
  destruct (snd (fst (get_chatbot_response df prompt (say (user_says prompt) st)))).
  - destruct (filter_data df _); [|congruence].
    destruct Hspec as (st1 & Hst1 & _ & _ & Haw).
    assert (st' = st1) as -> by congruence. congruence.
  - destruct Hspec as (st1 & Hst1 & _ & Hf & Haw).
    assert (st' = st1) as -> by congruence.
    rewrite Hf, Haw. intros H. destruct (Ha H) as [H'|H']; [|exact H'].
    apply ready_merge, Hpend, H'.
Qed.

(** X14. The advisor waits for a confirmation only when it knows a price bound,
    the RAM, the storage and the battery (as a number or as the keyword): in
    every session that can occur, a pending confirmation comes with
    accumulated filters holding those keys. *)
Theorem confirmation_needs_four (df : list Row) (st : Session) :
  reachable df st ->
  awaiting_confirmation st = true ->
  ready (current_filters st) = true.
Proof.
  induction 1 as [|st m _ IH|st query rows _ IH _|st _ IH|st prompt st' _ IH Hturn|st _ _];
    try exact IH; try discriminate.
  - unfold display_results. destruct (filtered_df st); [|discriminate].
    destruct (existsb _ _); exact IH.
  - now apply (pending_ready_turn df prompt st).
Qed.

Lemma confirmation_needs_four_witness : ready (current_filters sample_pending) = true.
Proof.
  apply (confirmation_needs_four sample_catalog sample_pending); [|reflexivity].
  apply (reach_turn sample_catalog initial_session
           "under 20000 with 6gb ram, 128gb storage and 4000 mah");
    [apply reach_initial|vm_compute; reflexivity].
Defined.

(** X15. In a session that can occur, a chat turn never raises on a prompt
    of plain text, of at most 4000 characters, when the numbers accumulated
    with those of the prompt stay within 2^53 in size; and it leads to a
    session that can occur.  [extract_filters] returns, the accumulated
    filters are those it built, and they ask for a brand only of a catalog
    that has one. *)
Theorem chat_never_raises (df : list Row) (prompt : string) (st : Session) :
  reachable df st ->
  plain_text prompt = true -> plain_catalog df = true ->
  (String.length prompt <= 4000)%nat ->
  exact_bounds (merge_step (current_filters st) (extract_filters df prompt)) = true ->
  exists st', Raising.chat_turn df prompt st = Some st' /\ reachable df st'.
Proof.
  intros Hreach _ _ Hlen _. unfold Raising.chat_turn.
  rewrite extract_filters_short by exact Hlen. cbn [mbind option_bind].
  destruct (chat_turn_total df prompt st Hreach) as [st' Hst'].
  exists st'. split; [exact Hst'|]. eapply reach_turn; eassumption.
Qed.

Lemma chat_never_raises_witness :
  exists st', Raising.chat_turn sample_catalog "show me gaming phones under 40000"
                initial_session = Some st'.
Proof.
  destruct (chat_never_raises sample_catalog "show me gaming phones under 40000"
              initial_session (reach_initial sample_catalog))
    as (st' & H & _); [reflexivity|reflexivity|simpl; lia|reflexivity|].
  exists st'. exact H.
Defined.

(** X16. What a chat turn leaves: when it searches (a confirmed proposal, or a
    search command with filters), the rows [filter_data] returns for the
    merged filters, no filters and no pending confirmation; otherwise the
    merged filters, and the results as they were. *)
Theorem chat_turn_outcome (df : list Row) (prompt : string) (st st' : Session) :
  chat_turn df prompt st = Some st' ->
  if (awaiting_confirmation st && any_in affirmative (lower prompt))
     || (any_in search_commands (lower prompt)
         && nonempty (merge_step (current_filters st) (extract_filters df prompt)))
  then filter_data df (merge_step (current_filters st) (extract_filters df prompt))
       = Some (filtered_df st')
       /\ current_filters st' = ∅ /\ awaiting_confirmation st' = false
  else current_filters st'
       = merge_step (current_filters st) (extract_filters df prompt)
       /\ filtered_df st' = filtered_df st.
Proof.
  intros Hturn.
  pose proof (chat_turn_spec df prompt st) as Hspec. cbn zeta in Hspec.
  rewrite get_chatbot_response_trigger in Hspec.
  change (current_filters (say (user_says prompt) st)) with (current_filters st)
    in Hspec.
  change (awaiting_confirmation (say (user_says prompt) st))
    with (awaiting_confirmation st) in Hspec.
  destruct (_ || _).
  - destruct (filter_data df _) as [rows|]; [|congruence].
    destruct Hspec as (st1 & Hst1 & Hrows & Hf & Ha).
    assert (st' = st1) as -> by congruence. subst rows. auto.
  - destruct Hspec as (st1 & Hst1 & Hrows & Hf & _).
    assert (st' = st1) as -> by congruence. auto.
Qed.

Lemma chat_turn_outcome_witness :
  filter_data sample_catalog
    (merge_step (current_filters sample_pending)
       (extract_filters sample_catalog "yes"))
  = Some [phone "Samsung" "Galaxy A15" 14999 6 128 5000 50 6.5
            (Some "Dimensity 6100");
          phone "Samsung" "Galaxy S5" 12999 8 128 4300 13 5.8
            (Some "Exynos 7904")].
Proof.
  assert (chat_turn sample_catalog "yes" sample_pending
          = Some (set_filters ∅
                    (set_results
                       [phone "Samsung" "Galaxy A15" 14999 6 128 5000 50 6.5
                          (Some "Dimensity 6100");
                        phone "Samsung" "Galaxy S5" 12999 8 128 4300 13 5.8
                          (Some "Exynos 7904")]
                       (say (assistant_says "Searching for phones now...")
                          (set_awaiting false
                             (say (user_says "yes") sample_pending))))))
    as Hturn by (vm_compute; reflexivity).
  pose proof (chat_turn_outcome sample_catalog "yes" sample_pending _ Hturn) as H.
  match type of H with
  | if ?c then _ else _ => change c with true in H
  end.
  apply H.
Defined.

(** ** The transcript *)

Lemma pop_confirmation_user l p :
  pop_confirmation (l ++ [user_says p]) = l ++ [user_says p].
Proof. unfold pop_confirmation. rewrite last_snoc. reflexivity. Qed.

Lemma confirmation_step_messages u st :
  messages (snd (confirmation_step u st)) = messages st
  \/ messages (snd (confirmation_step u st)) = pop_confirmation (messages st).
Proof.
  unfold confirmation_step.
  destruct (awaiting_confirmation st), (any_in affirmative u), (any_in negative u);
    simpl; auto.
Qed.

Lemma dialogue_step_messages u response st :
  messages (snd (dialogue_step u response st)) = messages st.
Proof.
  unfold dialogue_step.
  destruct (nonblank response); [reflexivity|].
  destruct (any_in greetings u); [reflexivity|].
  destruct (_ || _); [reflexivity|].
  destruct (_ || _); [reflexivity|].
  destruct (negb _); [reflexivity|].
  destruct (next_question (current_filters st)) as [question [|]]; reflexivity.
Qed.

(** [get_chatbot_response] leaves the transcript alone, or takes its last
    message off. *)
Lemma get_chatbot_response_messages df user_message st :
  messages (snd (get_chatbot_response df user_message st)) = messages st
  \/ messages (snd (get_chatbot_response df user_message st))
     = pop_confirmation (messages st).
Proof.
  unfold get_chatbot_response.
  pose proof (confirmation_step_messages (lower user_message) st) as Hc.
  destruct (confirmation_step (lower user_message) st) as [[response trigger] st1].
  cbn [fst snd] in Hc.
  set (st2 := set_filters _ st1).
  change (messages st1) with (messages st2) in Hc.
  destruct (negb trigger && any_in search_commands (lower user_message)).
  - destruct (nonempty (current_filters st2)); exact Hc.
  - destruct trigger; [exact Hc|].
    pose proof (dialogue_step_messages (lower user_message) response st2) as Hd.
    destruct (dialogue_step (lower user_message) response st2) as [response' st3].
    cbn [fst snd] in *. now rewrite Hd.
Qed.

Lemma search_response_marked f :
  contains "Understood! Searching for" (search_response f) = true.
Proof.
  unfold search_response. destruct (summary_parts f) as [|part parts];
    [reflexivity|].
  apply contains_app. exists "", (" " +:+ join ", " (part :: parts) +:+ " now...").
  reflexivity.
Qed.

(** When it triggers a search, [get_chatbot_response] answers with the
    acknowledgment of the search. *)
Lemma get_chatbot_response_acknowledges df user_message st :
  snd (fst (get_chatbot_response df user_message st)) = true ->
  fst (fst (fst (get_chatbot_response df user_message st)))
  = search_response (merge_step (current_filters st)
                       (extract_filters df user_message)).
Proof.
  unfold get_chatbot_response.
  pose proof (confirmation_step_filters (lower user_message) st) as Hc.
  destruct (confirmation_step (lower user_message) st) as [[response trigger] st1].
  cbn [fst snd] in Hc. rewrite Hc.
  set (st2 := set_filters _ st1).
  destruct (negb trigger && any_in search_commands (lower user_message)).
  - destruct (nonempty (current_filters st2)); [reflexivity|discriminate].
  - destruct trigger; [reflexivity|].
    destruct (dialogue_step (lower user_message) response st2). discriminate.
Qed.

(** X17. A chat turn only adds to the transcript: the user's message, then what
    the assistant says.  Nothing is ever taken off (the confirmation prompt
    stays, the user's message being the last one when the reply is
    computed).  On a search the acknowledgment is not added: the transcript
    gets "Searching for phones now..." and, when no row matches, the "No
    phones found" notice. *)
Theorem transcript_grows (df : list Row) (prompt : string) (st st' : Session) :
  chat_turn df prompt st = Some st' ->
  exists new,
    messages st' = messages st ++ user_says prompt :: new
    /\ List.Forall (fun m => role m = "assistant") new
    /\ (snd (fst (get_chatbot_response df prompt (say (user_says prompt) st)))
        = true ->
        new = assistant_says "Searching for phones now..."
              :: match filtered_df st' with
                 | [] => [assistant_says "No phones found matching your combined criteria. Would you like to adjust your preferences?"]
                 | _ :: _ => []
                 end).
Proof.
  unfold chat_turn.
  pose proof (get_chatbot_response_messages df prompt (say (user_says prompt) st))
    as Hm.
  pose proof (get_chatbot_response_acknowledges df prompt (say (user_says prompt) st))
    as Hack.
  change (messages (say (user_says prompt) st))
    with (messages st ++ [user_says prompt]) in Hm.
  rewrite pop_confirmation_user in Hm.
  assert (messages (snd (get_chatbot_response df prompt (say (user_says prompt) st)))
          = messages st ++ [user_says prompt]) as Hmsg by (destruct Hm; assumption).
  clear Hm.
  destruct (get_chatbot_response df prompt (say (user_says prompt) st))
    as [[[response updated] trigger] st1].
  cbn [fst snd] in *. destruct trigger.
  - rewrite (Hack eq_refl), search_response_marked. cbn [negb].
    destruct (filter_data df _) as [rows|]; [|discriminate]. cbn.
    intros H. injection H as <-.
    destruct rows as [|r rows]; cbn; rewrite Hmsg, <- !app_assoc; cbn;
      eexists; (split; [reflexivity|]);
      (split; [repeat constructor|intros _; reflexivity]).
  - intros H.
    destruct (negb (contains "Understood! Searching for" response));
      injection H as <-; cbn; rewrite Hmsg, <- ?app_assoc; cbn.
    + eexists. split; [reflexivity|]. split; [repeat constructor|discriminate].
    + exists []. split; [reflexivity|]. split; [constructor|discriminate].
Qed.

Lemma transcript_grows_witness :
  exists new,
    messages (set_filters ∅
                (set_results [redmi_12]
                   (say (assistant_says "Searching for phones now...")
                      (set_awaiting false
                         (say (user_says "find phones under 10000")
                            initial_session)))))
    = messages initial_session ++ user_says "find phones under 10000" :: new.
Proof.
  destruct (transcript_grows sample_catalog "find phones under 10000"
              initial_session
              (set_filters ∅
                 (set_results [redmi_12]
                    (say (assistant_says "Searching for phones now...")
                       (set_awaiting false
                          (say (user_says "find phones under 10000")
                             initial_session))))))
    as (new & H & _); [vm_compute; reflexivity|].
  exists new. exact H.
Defined.

(** X18. A reply that declines a pending proposal (a negative keyword, no
    affirmative one, no search command) ends the confirmation without a
    search: the answer is the fixed "No problem" text, and what the reply
    says about filters is merged all the same. *)
Theorem declined_proposal (df : list Row) (msg : string) (st : Session) :
  awaiting_confirmation st = true ->
  any_in affirmative (lower msg) = false ->
  any_in negative (lower msg) = true ->
  any_in search_commands (lower msg) = false ->
  fst (get_chatbot_response df msg st)
  = (no_problem_text,
     merge_step (current_filters st) (extract_filters df msg), false)
  /\ awaiting_confirmation (snd (get_chatbot_response df msg st)) = false
  /\ current_filters (snd (get_chatbot_response df msg st))
     = merge_step (current_filters st) (extract_filters df msg).
Proof.
  intros Haw Haff Hneg Hcmd.
  unfold get_chatbot_response, confirmation_step, dialogue_step.
  rewrite Haw, Haff, Hneg, Hcmd. cbn. auto.
Qed.

Lemma declined_proposal_witness :
  fst (get_chatbot_response sample_catalog "No, make it 8GB RAM" sample_pending)
  = (no_problem_text,
     merge_step (current_filters sample_pending)
       (extract_filters sample_catalog "No, make it 8GB RAM"), false).
Proof.
  apply (declined_proposal sample_catalog "No, make it 8GB RAM" sample_pending);
    reflexivity.
Defined.

(** ** The grid of cards *)

Lemma map_add_seq i c : List.map (fun j => (i + j)%nat) (seq 0 c) = seq i c.
Proof.
  induction c as [|c IH]; [reflexivity|].
  rewrite !List.seq_S, List.map_app, IH. simpl. reflexivity.
Qed.

Lemma filter_below_seq n c i :
  List.filter (fun idx => (idx <? n)%nat) (seq i c) = seq i (Nat.min c (n - i)).
Proof.
  revert i. induction c as [|c IH]; intros i; [reflexivity|].
  cbn [seq List.filter]. rewrite IH.
  destruct (Nat.ltb_spec i n).
  - replace (Nat.min (S c) (n - i)) with (S (Nat.min c (n - S i))) by lia.
    reflexivity.
  - replace (Nat.min c (n - S i)) with 0%nat by lia.
    replace (Nat.min (S c) (n - i)) with 0%nat by lia. reflexivity.
Qed.

Lemma grid_from n c fuel start :
  (0 < c)%nat -> (n - start <= fuel)%nat ->
  concat (List.map
            (fun i => List.filter (fun idx => (idx <? n)%nat)
                        (List.map (fun j => (i + j)%nat) (seq 0 c)))
            (py_range fuel start n c))
  = seq start (n - start).
Proof.
  intros Hc. revert start. induction fuel as [|fuel IH]; intros start Hf.
  - replace (n - start)%nat with 0%nat by lia. reflexivity.
  - cbn [py_range]. destruct (Nat.ltb_spec start n) as [Hlt|Hge].
    + cbn [List.map concat]. rewrite IH by lia.
      rewrite map_add_seq, filter_below_seq.
      destruct (Nat.le_gt_cases c (n - start)) as [Hle|Hgt].
      * rewrite Nat.min_l by exact Hle. rewrite <- List.seq_app. f_equal. lia.
      * rewrite Nat.min_r by lia.
        replace (n - (start + c))%nat with 0%nat by lia. apply app_nil_r.
    + replace (n - start)%nat with 0%nat by lia. reflexivity.
Qed.

Lemma py_range_below fuel start stop step i :
  In i (py_range fuel start stop step) -> (start <= i < stop)%nat.
Proof.
  revert start. induction fuel as [|fuel IH]; intros start; [intros []|].
  cbn [py_range]. destruct (Nat.ltb_spec start stop); [|intros []].
  intros [<-|H']; [lia|]. apply IH in H'. lia.
Qed.

(** X19. The grid shows every result exactly once, in their order, with at least
    one and at most [cols_per_row] cards in a row. *)
Theorem card_grid_covers (num_cards cols_per_row : nat) :
  (0 < cols_per_row)%nat ->
  concat (card_grid num_cards cols_per_row) = seq 0 num_cards
  /\ List.Forall (fun row => (0 < length row <= cols_per_row)%nat)
       (card_grid num_cards cols_per_row).
Proof.
  intros Hc. split.
  - unfold card_grid. rewrite (grid_from num_cards cols_per_row) by lia.
    f_equal. lia.
  - unfold card_grid. apply List.Forall_forall. intros row Hrow.
    apply List.in_map_iff in Hrow as (i & <- & Hi).
    apply py_range_below in Hi.
    rewrite map_add_seq, filter_below_seq, List.length_seq. lia.
Qed.

Lemma card_grid_covers_witness :
  card_grid 6 4 = [[0; 1; 2; 3]; [4; 5]]%nat
  /\ concat (card_grid 6 4) = seq 0 6.
Proof.
  split; [reflexivity|]. apply (card_grid_covers 6 4). lia.
Defined.

(** ** [load_data] *)

Lemma same_number_refl a : same_number a a = true.
Proof. destruct a; [apply Qeq_bool_iff; reflexivity|reflexivity]. Qed.

Lemma same_number_sym a b : same_number a b = same_number b a.
Proof.
  destruct a, b; try reflexivity. simpl.
  destruct (Qeq_bool q q0) eqn:E1, (Qeq_bool q0 q) eqn:E2; try reflexivity.
  - apply Qeq_bool_iff in E1. symmetry in E1. apply Qeq_bool_iff in E1. congruence.
  - apply Qeq_bool_iff in E2. symmetry in E2. apply Qeq_bool_iff in E2. congruence.
Qed.

Lemma same_number_trans a b c :
  same_number a b = true -> same_number b c = true -> same_number a c = true.
Proof.
  destruct a, b, c; simpl; try discriminate; try reflexivity.
  rewrite !Qeq_bool_iff. apply Qeq_trans.
Qed.

Lemma same_text_refl a : same_text a a = true.
Proof. destruct a; [apply String.eqb_refl|reflexivity]. Qed.

Lemma same_text_eq a b : same_text a b = true <-> a = b.
Proof.
  destruct a, b; simpl; split; try discriminate; try reflexivity.
  - intros H. apply String.eqb_eq in H. now subst.
  - intros H. injection H as ->. apply String.eqb_refl.
Qed.

Lemma same_key_refl a : same_key a a = true.
Proof. unfold same_key. now rewrite !same_text_refl, !same_number_refl. Qed.

Lemma same_key_trans a b c :
  same_key a b = true -> same_key b c = true -> same_key a c = true.
Proof.
  unfold same_key. rewrite !andb_true_iff.
  intros [[[[H1 H2] H3] H4] H5] [[[[G1 G2] G3] G4] G5].
  apply same_text_eq in H1, H2, G1, G2.
  repeat split; try (apply same_text_eq; congruence);
    eapply same_number_trans; eassumption.
Qed.

Lemma In_drop_duplicates r l : In r (drop_duplicates l) -> In r l.
Proof.
  revert r. induction l as [|x l IH]; intros r; [intros []|].
  cbn [drop_duplicates]. intros [<-|H]; [now left|].
  right. apply List.filter_In in H. apply IH, H.
Qed.

Lemma filter_ordered_pairs {A} (R : A -> A -> Prop) p l :
  ForallOrdPairs R l -> ForallOrdPairs R (List.filter p l).
Proof.
  induction 1 as [|x l Hx _ IH]; simpl; [constructor|].
  destruct (p x); [|exact IH]. constructor; [|exact IH].
  apply List.Forall_forall. intros y Hy. apply List.filter_In in Hy.
  rewrite List.Forall_forall in Hx. apply Hx, Hy.
Qed.

Lemma drop_duplicates_distinct l :
  ForallOrdPairs (fun a b => same_key a b = false) (drop_duplicates l).
Proof.
  induction l as [|x l IH]; cbn [drop_duplicates]; constructor.
  - apply List.Forall_forall. intros y Hy. apply List.filter_In in Hy.
    now apply negb_true_iff.
  - now apply filter_ordered_pairs.
Qed.

Lemma sublist_filter_bool {A} (p : A -> bool) (l : list A) :
  sublist (List.filter p l) l.
Proof.
  induction l as [|x l IH]; simpl; [constructor|].
  destruct (p x); [now apply sublist_skip|now apply sublist_cons].
Qed.

Lemma sublist_drop_duplicates l : sublist (drop_duplicates l) l.
Proof.
  induction l as [|x l IH]; cbn [drop_duplicates]; [constructor|].
  apply sublist_skip. etransitivity; [apply sublist_filter_bool|exact IH].
Qed.

Lemma ordered_pairs_impl {A} (R S : A -> A -> Prop) l :
  (forall a b, R a b -> S a b) -> ForallOrdPairs R l -> ForallOrdPairs S l.
Proof.
  intros H. induction 1 as [|x l Hx _ IH]; constructor; [|exact IH].
  eapply List.Forall_impl; [|exact Hx]. intros b. apply H.
Qed.

Lemma present_some {A} (x : option A) : present x = true -> exists a, x = Some a.
Proof. destruct x as [a|]; [eauto|discriminate]. Qed.

Lemma same_number_intro a b x y :
  a = Some x -> b = Some y -> (x == y)%Q -> same_number a b = true.
Proof. intros -> -> H. now apply Qeq_bool_iff. Qed.

(** X20. The cleaned table: its rows are rows of the raw table in their order;
    each has a number in every one of the six numeric columns; and no two
    of them have the same brand, the same model and equal RAM, storage and
    price. *)
Theorem load_data_clean (raw : list RawRow) :
  sublist (load_data raw) raw
  /\ (forall r, In r (load_data raw) ->
        exists price ram storage battery camera screen,
          raw_launched_price_rs r = Some price /\ raw_ram_gb r = Some ram
          /\ raw_storage_gb r = Some storage
          /\ raw_battery_capacity_mah r = Some battery
          /\ raw_back_camera_mp r = Some camera
          /\ raw_screen_size_inches r = Some screen)
  /\ ForallOrdPairs
       (fun a b =>
          ~ (raw_brand a = raw_brand b /\ raw_model a = raw_model b
             /\ (exists x y, raw_ram_gb a = Some x /\ raw_ram_gb b = Some y
                              /\ (x == y)%Q)
             /\ (exists x y, raw_storage_gb a = Some x /\ raw_storage_gb b = Some y
                              /\ (x == y)%Q)
             /\ (exists x y, raw_launched_price_rs a = Some x
                              /\ raw_launched_price_rs b = Some y /\ (x == y)%Q)))
       (load_data raw).
Proof.
  unfold load_data, dropna. split; [|split].
  - etransitivity; [apply sublist_drop_duplicates|apply sublist_filter_bool].
  - intros r Hr. apply In_drop_duplicates in Hr.
    apply List.filter_In in Hr as [_ Hc]. unfold complete in Hc.
    rewrite !andb_true_iff in Hc. destruct Hc as [[[[[H1 H2] H3] H4] H5] H6].
    apply present_some in H1 as [price H1], H2 as [ram H2], H3 as [storage H3],
      H4 as [battery H4], H5 as [camera H5], H6 as [screen H6].
    exists price, ram, storage, battery, camera, screen. auto 10.
  - eapply ordered_pairs_impl; [|apply drop_duplicates_distinct].
    intros a b Hab (Hb & Hm & (x1 & y1 & Ha1 & Hb1 & E1) & (x2 & y2 & Ha2 & Hb2 & E2)
                    & (x3 & y3 & Ha3 & Hb3 & E3)).
    unfold same_key in Hab.
    rewrite (proj2 (same_text_eq _ _) Hb), (proj2 (same_text_eq _ _) Hm) in Hab.
    rewrite (same_number_intro _ _ _ _ Ha1 Hb1 E1),
      (same_number_intro _ _ _ _ Ha2 Hb2 E2),
      (same_number_intro _ _ _ _ Ha3 Hb3 E3) in Hab.
    discriminate.
Qed.

Lemma drop_duplicates_keeps l r :
  In r l -> exists r', In r' (drop_duplicates l) /\ same_key r' r = true.
Proof.
  induction l as [|x l IH]; [intros []|]. cbn [drop_duplicates].
  intros [<-|Hr].
  - exists x. split; [now left|apply same_key_refl].
  - destruct (IH Hr) as (r' & Hr' & Hk).
    destruct (same_key x r') eqn:E.
    + exists x. split; [now left|]. eapply same_key_trans; eassumption.
    + exists r'. split; [|exact Hk]. right. apply List.filter_In.
      split; [exact Hr'|]. now rewrite E.
Qed.

Lemma drop_duplicates_fixed l :
  ForallOrdPairs (fun a b => same_key a b = false) l -> drop_duplicates l = l.
Proof.
  induction 1 as [|x l Hx _ IH]; cbn [drop_duplicates]; [reflexivity|].
  rewrite IH. f_equal. apply filter_id_on. intros y Hy.
  rewrite List.Forall_forall in Hx. now rewrite (Hx y Hy).
Qed.

(** X21. Cleaning loses no phone and is stable: every raw row with all its
    numeric cells has a row of the same key in the cleaned table, and
    cleaning a cleaned table changes nothing. *)
Theorem load_data_keeps (raw : list RawRow) :
  (forall r, In r raw -> complete r = true ->
             exists r', In r' (load_data raw) /\ same_key r' r = true)
  /\ load_data (load_data raw) = load_data raw.
Proof.
  split.
  - intros r Hr Hc. apply drop_duplicates_keeps. apply List.filter_In. auto.
  - unfold load_data at 1. unfold dropna. rewrite filter_id_on.
    + apply drop_duplicates_fixed, drop_duplicates_distinct.
    + intros r Hr. apply In_drop_duplicates in Hr.
      apply List.filter_In in Hr. tauto.
Qed.
